(** * nitransforms.io.afni: the AFNI format adapter

    A shallow embedding of [nitransforms/io/afni.py] and the properties of
    its text parser and serialiser, of the RAS/LPS conversion, of the
    displacements-field import and of the (de)obliquing helpers.

    Conventions of the embedding.
    - A Python [str] is a list of code points; only code points below 256
      are represented (one [ascii] each).
    - A raised exception is a value of [exception]; functions that can raise
      return a [result], and a comprehension stops at the first exception.
    - The text layer is generic in the type of the numbers, through the
      class [PyFloat] (the builtin [float], nan, ["%g" % x]); its instance
      [pyfloat] is exact decimal arithmetic.
    - The linear algebra is carried out over the reals [R], the exact
      arithmetic that float64 approximates: an array is the list of its
      rows, and the functions of numpy and nibabel that the module calls
      ([genfromtxt], [linalg.inv], [squeeze], [stack], [voxel_sizes],
      [obliquity]) are written out from their definitions. *)

From Stdlib Require Import String Ascii List Bool NArith ZArith Lia.
From Stdlib Require Import Reals Lra.
From Stdlib Require Import DecimalString DecimalN.
Import ListNotations.

Set Implicit Arguments.

(** ** Exceptions *)

Inductive exception : Type :=
| TransformFileError (msg : list ascii)
| ValueError
| LinAlgError
| TypeError.

Inductive result (A : Type) : Type :=
| Ok (a : A)
| Raise (e : exception).

Arguments Ok {A} a.
Arguments Raise {A} e.

Definition bind {A B : Type} (r : result A) (k : A -> result B) : result B :=
  match r with
  | Ok a => k a
  | Raise e => Raise e
  end.

Notation "x <- r ;; k" := (bind r (fun x => k))
  (at level 61, r at next level, right associativity).

(** A list comprehension whose body can raise: the first exception wins. *)
Fixpoint mapM {A B : Type} (f : A -> result B) (l : list A) : result (list B) :=
  match l with
  | [] => Ok []
  | x :: t => y <- f x ;; ys <- mapM f t ;; Ok (y :: ys)
  end.

Definition raises_TransformFileError {A : Type} (r : result A) : Prop :=
  exists msg, r = Raise (TransformFileError msg).

Definition succeeds {A : Type} (r : result A) : Prop :=
  exists a, r = Ok a.

(** ** Python strings *)

Definition str := list ascii.

Definition py (s : string) : str := list_ascii_of_string s.

Definition code (c : ascii) : N := N_of_ascii c.

(** [str.isspace] on one code point below 256. *)
Definition isspace (c : ascii) : bool :=
  let n := code c in
  ((9 <=? n) && (n <=? 13) || (28 <=? n) && (n <=? 32)
   || (n =? 133) || (n =? 160))%N.

(** The line boundaries of [str.splitlines] below 256, other than the pair
    CR LF: LF, VT, FF, CR, FS, GS, RS and NEL. *)
Definition islinebreak (c : ascii) : bool :=
  let n := code c in
  ((10 <=? n) && (n <=? 13) || (28 <=? n) && (n <=? 30) || (n =? 133))%N.

Definition CR : ascii := "013"%char.
Definition LF : ascii := "010"%char.
Definition TAB : ascii := "009"%char.

(** [s.splitlines()]: the lines without their terminators; a terminator at
    the very end opens no further line. *)
Fixpoint splitlines (s : str) : list str :=
  match s with
  | [] => []
  | c :: t =>
      if islinebreak c then
        match t with
        | c' :: t' =>
            if Ascii.eqb c CR && Ascii.eqb c' LF
            then [] :: splitlines t'
            else [] :: splitlines t
        | [] => [[]]
        end
      else
        match splitlines t with
        | [] => [[c]]
        | l :: ls => (c :: l) :: ls
        end
  end.

Fixpoint dropwhile (p : ascii -> bool) (s : str) : str :=
  match s with
  | [] => []
  | c :: t => if p c then dropwhile p t else s
  end.

Definition lstrip_by (p : ascii -> bool) (s : str) : str := dropwhile p s.
Definition rstrip_by (p : ascii -> bool) (s : str) : str :=
  rev (dropwhile p (rev s)).
Definition strip_by (p : ascii -> bool) (s : str) : str :=
  rstrip_by p (lstrip_by p s).

(** [s.strip()] *)
Definition strip (s : str) : str := strip_by isspace s.

(** [s.strip(chars)] *)
Definition strip_chars (chars : str) (s : str) : str :=
  strip_by (fun c => existsb (Ascii.eqb c) chars) s.

(** [s.startswith(prefix)] *)
Fixpoint startswith (prefix s : str) : bool :=
  match prefix, s with
  | [], _ => true
  | _ :: _, [] => false
  | p :: ps, c :: t => Ascii.eqb p c && startswith ps t
  end.

(** [needle in s] *)
Fixpoint contains (needle s : str) : bool :=
  startswith needle s ||
  match s with
  | [] => false
  | _ :: t => contains needle t
  end.

(** [s.split()]: the maximal runs of non-whitespace characters. *)
Fixpoint split_whitespace (s : str) : list str :=
  match s with
  | [] => []
  | c :: t =>
      if isspace c then split_whitespace t
      else
        match t with
        | [] => [[c]]
        | c' :: _ =>
            if isspace c' then [c] :: split_whitespace t
            else
              match split_whitespace t with
              | [] => [[c]]
              | w :: ws => (c :: w) :: ws
              end
        end
  end.

(** [s.split(sep)[0]] for a one-character separator. *)
Fixpoint before_first (sep : ascii) (s : str) : str :=
  match s with
  | [] => []
  | c :: t => if Ascii.eqb c sep then [] else c :: before_first sep t
  end.

(** [sep.join(parts)] *)
Fixpoint join (sep : str) (parts : list str) : str :=
  match parts with
  | [] => []
  | [p] => p
  | p :: ps => p ++ sep ++ join sep ps
  end.

(** [s.encode()]: UTF-8, for code points below 256. *)
Definition encode (s : str) : list ascii :=
  flat_map
    (fun c =>
       let n := code c in
       if (n <? 128)%N then [c]
       else if (n <? 192)%N then [ascii_of_N 194; c]
       else [ascii_of_N 195; ascii_of_N (n - 64)])
    s.

(** [bytes.decode("latin1")]: every byte is the code point of its value. *)
Definition decode_latin1 (b : list ascii) : str := b.

(** ** Scalars of the text layer *)

(** What the text layer needs of float64: the builtin [float] on a token
    ([None] when it raises [ValueError]), the constants it writes, and the
    ["%g"] conversion. *)
Class PyFloat (F : Type) : Type := {
  float_of_str : str -> option F;
  float_nan : F;
  float_zero : F;
  float_one : F;
  format_g : F -> str
}.

(** ** numpy.genfromtxt on one line, dtype ["f8"] *)

Section Genfromtxt.
Context {F : Type} `{PyFloat F}.

(** [LineSplitter._delimited_splitter] with [comments="#"] and
    [delimiter=None]: chop off the comment, strip, split at whitespace. *)
Definition delimited_splitter (line : str) : list str :=
  let line := before_first "#"%char line in
  let line := strip_chars (py " " ++ [CR; LF]) line in
  match line with
  | [] => []
  | _ => split_whitespace line
  end.

(** [StringConverter._loose_call]: an invalid token becomes the default of
    the float converter, nan. *)
Definition loose_call (value : str) : F :=
  match float_of_str value with
  | Some x => x
  | None => float_nan
  end.

(** [np.genfromtxt([line.encode()], dtype="f8")]: the bytes are decoded as
    latin1, split, and every field converted loosely.  The result is the
    flat sequence of the values of the single row. *)
Definition genfromtxt (line : str) : list F :=
  map loose_call (delimited_splitter (decode_latin1 (encode line))).

(** [a.reshape((3, 4))]: row-major, [ValueError] unless [a] has 12 items. *)
Definition reshape_3_4 (a : list F) : result (list (list F)) :=
  match a with
  | [a0; a1; a2; a3; a4; a5; a6; a7; a8; a9; a10; a11] =>
      Ok [[a0; a1; a2; a3]; [a4; a5; a6; a7]; [a8; a9; a10; a11]]
  | _ => Raise ValueError
  end.
End Genfromtxt.

(** ** A model of float64 for the text layer

    A finite value is the decimal number [m * 10^e] that its literal
    denotes, kept in lowest terms ([m] not divisible by 10, and [e = 0]
    when [m = 0]).  The binary rounding of float64 is left out and the two
    zeros are one value: this is decimal arithmetic, in which the integers
    that float64 holds exactly, those of magnitude below 2^53, are the
    same numbers. *)

Inductive pyfloat : Type :=
| Finite (m e : Z)
| Inf (negative : bool)
| NaN.

Definition isdigit (c : ascii) : bool :=
  ((48 <=? code c) && (code c <=? 57))%N.

Definition digit_value (c : ascii) : Z := (Z.of_N (code c) - 48)%Z.

Definition digits_value (ds : list ascii) : Z :=
  fold_left (fun acc d => 10 * acc + digit_value d)%Z ds 0%Z.

(** [digitpart ::= digit (["_"] digit)*]: the digits read, and the rest. *)
Fixpoint digitpart (s : str) : list ascii * str :=
  match s with
  | [] => ([], [])
  | d :: t =>
      if isdigit d then
        let (ds, r) :=
          match t with
          | [] => ([], [])
          | u :: t' =>
              if Ascii.eqb u "_"
                 && match t' with d' :: _ => isdigit d' | [] => false end
              then digitpart t'
              else digitpart t
          end in
        (d :: ds, r)
      else ([], s)
  end.

Definition lower (c : ascii) : ascii :=
  if ((65 <=? code c) && (code c <=? 90))%N
  then ascii_of_N (code c + 32) else c.

Definition str_eqb (a b : str) : bool :=
  if list_eq_dec ascii_dec a b then true else false.

Definition parse_sign (s : str) : bool * str :=
  match s with
  | c :: t =>
      if Ascii.eqb c "-" then (true, t)
      else if Ascii.eqb c "+" then (false, t)
      else (false, s)
  | [] => (false, s)
  end.

(** [exponent ::= ("e" | "E") [sign] digitpart], or nothing; the whole of
    [s] has to be consumed. *)
Definition parse_exponent (s : str) : option Z :=
  match s with
  | [] => Some 0%Z
  | c :: t =>
      if Ascii.eqb (lower c) "e" then
        let (neg, t') := parse_sign t in
        match digitpart t' with
        | (d :: ds, []) =>
            let x := digits_value (d :: ds) in
            Some (if neg then - x else x)%Z
        | _ => None
        end
      else None
  end.

(** [floatnumber]: [[digitpart] "." digitpart | digitpart ["."]], then the
    optional exponent.  The result is the pair [(m, e)] of the digits read
    as an integer and the power of ten they are scaled by. *)
Definition parse_floatnumber (s : str) : option (Z * Z) :=
  let (ip, r1) := digitpart s in
  match r1 with
  | c :: r2 =>
      if Ascii.eqb c "." then
        let (fp, r3) := digitpart r2 in
        match ip, fp with
        | [], [] => None
        | _, _ =>
            match parse_exponent r3 with
            | Some x =>
                Some (digits_value (ip ++ fp), x - Z.of_nat (length fp))%Z
            | None => None
            end
        end
      else
        match ip with
        | [] => None
        | _ =>
            match parse_exponent r1 with
            | Some x => Some (digits_value ip, x)
            | None => None
            end
        end
  | [] =>
      match ip with
      | [] => None
      | _ => Some (digits_value ip, 0%Z)
      end
  end.

Fixpoint strip10 (fuel : nat) (m e : Z) : Z * Z :=
  match fuel with
  | O => (m, e)
  | S f =>
      if (m mod 10 =? 0)%Z then strip10 f (m / 10)%Z (e + 1)%Z else (m, e)
  end.

(** The value [m * 10^e] in lowest terms. *)
Definition normalize (m e : Z) : pyfloat :=
  if (m =? 0)%Z then Finite 0%Z 0%Z
  else
    let (m', e') := strip10 (S (Z.to_nat (Z.log2 (Z.abs m)))) m e in
    Finite m' e'.

(** The builtin [float] on a string: surrounding whitespace is dropped, then
    [[sign] (floatnumber | "inf" | "infinity" | "nan")], letters in either
    case.  [None] stands for [ValueError]. *)
Definition pyfloat_of_str (s : str) : option pyfloat :=
  let (neg, r) := parse_sign (strip s) in
  let lr := map lower r in
  if str_eqb lr (py "inf") || str_eqb lr (py "infinity") then Some (Inf neg)
  else if str_eqb lr (py "nan") then Some NaN
  else
    match parse_floatnumber r with
    | Some (m, e) => Some (normalize (if neg then - m else m)%Z e)
    | None => None
    end.

(** The decimal digits of a natural number, most significant first. *)
Definition digits_of (n : N) : str :=
  list_ascii_of_string (NilEmpty.string_of_uint (N.to_uint n)).

(** [a / 10^k] rounded to the nearest integer, ties to even. *)
Definition round_half_even (a : N) (k : nat) : N :=
  let p := (10 ^ N.of_nat k)%N in
  let q := (a / p)%N in
  let r := (a mod p)%N in
  if (2 * r <? p)%N then q
  else if (p <? 2 * r)%N then (q + 1)%N
  else if N.even q then q else (q + 1)%N.

Definition strip_trailing_zeros (ds : str) : str :=
  rstrip_by (fun c => Ascii.eqb c "0") ds.

(** The significant digits of [a * 10^e] at precision 6 (at most six, the
    last one not zero) and the decimal exponent [X] of the rounded value,
    which is [d.ddddd * 10^X]. *)
Definition significand6 (a : N) (e : Z) : str * Z :=
  let nd := length (digits_of a) in
  let k := (nd - 6)%nat in
  let dq := digits_of (round_half_even a k) in
  (strip_trailing_zeros dq,
   (e + Z.of_nat k + Z.of_nat (length dq) - 1)%Z).

Definition zeros (n : nat) : str := repeat "0"%char n.

Definition with_point (ip fp : str) : str :=
  match fp with
  | [] => ip
  | _ => ip ++ py "." ++ fp
  end.

(** The exponent field of the scientific style: a sign and at least two
    digits. *)
Definition exponent_field (x : Z) : str :=
  let ds := digits_of (Z.to_N (Z.abs x)) in
  (if (x <? 0)%Z then py "-" else py "+")
    ++ zeros (2 - length ds)%nat ++ ds.

(** The magnitude [a * 10^e], [a > 0], in the style ["%g"]: scientific when
    the exponent is below -4 or not below the precision 6, fixed
    otherwise; no trailing zeros, and no point without a digit after it. *)
Definition format_magnitude (a : N) (e : Z) : str :=
  let (sig, x) := significand6 a e in
  if ((x <? -4) || (6 <=? x))%Z then
    with_point (firstn 1 sig) (skipn 1 sig) ++ py "e" ++ exponent_field x
  else if (0 <=? x)%Z then
    let n := S (Z.to_nat x) in
    with_point (firstn n (sig ++ zeros (n - length sig)%nat)) (skipn n sig)
  else
    py "0." ++ zeros (Z.to_nat (- x - 1)%Z) ++ sig.

(** ["%g" % x] *)
Definition pyfloat_format_g (x : pyfloat) : str :=
  match x with
  | NaN => py "nan"
  | Inf neg => if neg then py "-inf" else py "inf"
  | Finite m e =>
      if (m =? 0)%Z then py "0"
      else
        (if (m <? 0)%Z then py "-" else [])
          ++ format_magnitude (Z.to_N (Z.abs m)) e
  end.

#[export] Instance PyFloat_pyfloat : PyFloat pyfloat := {
  float_of_str := pyfloat_of_str;
  float_nan := NaN;
  float_zero := Finite 0%Z 0%Z;
  float_one := Finite 1%Z 0%Z;
  format_g := pyfloat_format_g
}.

(** ** Arrays of reals *)

Local Open Scope R_scope.

(** A two-dimensional array, as the list of its rows. *)
Definition matrix := list (list R).

Fixpoint zip_with {A B C : Type} (f : A -> B -> C) (u : list A) (v : list B)
  : list C :=
  match u, v with
  | x :: u', y :: v' => f x y :: zip_with f u' v'
  | _, _ => []
  end.

Definition rsum (l : list R) : R := fold_right Rplus 0 l.

Definition dot (u v : list R) : R := rsum (zip_with Rmult u v).

Definition column (j : nat) (M : matrix) : list R :=
  map (fun row => nth j row 0) M.

Definition ncols (M : matrix) : nat := length (hd [] M).

(** [M.T] *)
Definition transpose (M : matrix) : matrix :=
  map (fun j => column j M) (seq 0 (ncols M)).

(** [np.swapaxes(M, 0, 1)] on a two-dimensional array. *)
Definition swapaxes01 (M : matrix) : matrix := transpose M.

(** [A @ B].  numpy raises when the shapes do not agree; every product
    below is one of 4x4 arrays. *)
Definition matmul (A B : matrix) : matrix :=
  map (fun row => map (dot row) (transpose B)) A.

Notation "A @@ B" := (matmul A B) (at level 40, left associativity).

(** [A @ v] for a one-dimensional [v]. *)
Definition matvec (A : matrix) (v : list R) : list R :=
  map (fun row => dot row v) A.

Definition is4x4 (M : matrix) : Prop :=
  length M = 4%nat /\ Forall (fun row => length row = 4%nat) M.

(** [np.diag([-1, -1, 1, 1])] *)
Definition LPS : matrix :=
  [[-1; 0; 0; 0]; [0; -1; 0; 0]; [0; 0; 1; 0]; [0; 0; 0; 1]].

(** [np.eye(4)] *)
Definition eye4 : matrix :=
  [[1; 0; 0; 0]; [0; 1; 0; 0]; [0; 0; 1; 0]; [0; 0; 0; 1]].

(** [a.max()] and [a.min()] of a one-dimensional array.  numpy raises on an
    empty array; the arrays reduced below have three items. *)
Definition list_max (l : list R) : R :=
  match l with
  | [] => 0
  | x :: t => fold_left Rmax t x
  end.

Definition list_min (l : list R) : R :=
  match l with
  | [] => 0
  | x :: t => fold_left Rmin t x
  end.

(** *** numpy.linalg.inv

    The inverse by cofactors; [LinAlgError] for a singular matrix.  This
    is [numpy.linalg.inv] in exact arithmetic.  In float64 the exception
    is raised when the elimination meets a pivot that is exactly zero: a
    matrix that is singular in exact arithmetic gives one when its zeros
    are exact (two rows that are zero outside the same column, as a
    singular plumb affine has), and need not when they come from
    cancellation. *)

Definition drop_nth {A : Type} (j : nat) (l : list A) : list A :=
  firstn j l ++ skipn (S j) l.

Definition minor (i j : nat) (M : matrix) : matrix :=
  map (drop_nth j) (drop_nth i M).

(** The determinant of an [n] x [n] array, expanded along its first row. *)
Fixpoint det (n : nat) (M : matrix) : R :=
  match n with
  | O => 1
  | S n' =>
      rsum (map (fun j => (-1) ^ j * nth j (hd [] M) 0 * det n' (minor 0 j M))
              (seq 0 (S n')))
  end.

Definition cofactor (n i j : nat) (M : matrix) : R :=
  (-1) ^ (i + j) * det (n - 1) (minor i j M).

Definition inv (M : matrix) : result matrix :=
  let n := length M in
  let d := det n M in
  if Req_dec_T d 0 then Raise LinAlgError
  else
    Ok (map (fun i => map (fun j => cofactor n j i M / d) (seq 0 n))
          (seq 0 n)).

(** *** nibabel.affines *)

(** [voxel_sizes(affine)]: the Euclidean length of every column of
    [affine[:-1, :-1]], in exact arithmetic: the squares do not overflow
    or underflow. *)
Definition voxel_sizes (affine : matrix) : list R :=
  let top_left := map (@removelast R) (removelast affine) in
  map (fun col => sqrt (rsum (map (fun x => x * x) col)))
    (transpose top_left).

(** [obliquity(affine)]: for every row of [affine[:-1, :-1]], the angle whose
    cosine is the largest entry, in absolute value, of the row once each
    column is divided by its voxel size.  Exact arithmetic again; a column
    of zeros, whose quotients are nan in float64, is outside it. *)
Definition obliquity (affine : matrix) : list R :=
  let vs := voxel_sizes affine in
  let top_left := map (@removelast R) (removelast affine) in
  let best_cosines :=
    map (fun row => list_max (map Rabs (zip_with Rdiv row vs))) top_left in
  map acos best_cosines.

(** ** AFNILinearTransform *)

Definition BANNER : str :=
  py "# 3dvolreg matrices (DICOM-to-DICOM, row-by-row):".

Module AFNILinearTransform.

(** [structarr["parameters"]], a 4x4 float64 array. *)
Record t (F : Type) : Type := mk { parameters : list (list F) }.
Arguments mk {F} parameters.
Arguments parameters {F} _.

Section Text.
Context {F : Type} `{PyFloat F}.

(** [__str__]: ["\t".join(["%g" % p for p in param[:3, :].reshape(-1)])] *)
Definition __str__ (self : t F) : str :=
  join [TAB] (map format_g (concat (firstn 3 (parameters self)))).

(** [to_string].  The closing [string % self] substitutes nothing: the
    text holds no conversion specifier and the instance is subscriptable,
    so the operator returns [string] itself. *)
Definition to_string (self : t F) (banner : bool) : str :=
  let string := __str__ self ++ [LF] in
  if banner then join [LF] [BANNER; string] else string.

(** The lines [from_string] keeps: neither blank, nor starting with
    ["#"], nor holding the banner text. *)
Definition keep_line (line : str) : bool :=
  match strip line with [] => false | _ => true end
  && negb (startswith (py "#") line
           || contains (py "3dvolreg matrices") line).

Definition data_lines (string : str) : list str :=
  filter keep_line (splitlines string).

(** [from_string] *)
Definition from_string (string : str) : result (t F) :=
  match data_lines string with
  | [] => Raise (TransformFileError [])
  | line0 :: _ =>
      rows <- reshape_3_4 (genfromtxt line0) ;;
      Ok (mk (rows ++ [[float_zero; float_zero; float_zero; float_one]]))
  end.
End Text.

Section Ras.
(** The types of the [moving] and [reference] arguments; [None] is the
    default of both. *)
Context {Mov Ref : Type}.

(** [from_ras] *)
Definition from_ras (ras : matrix) (moving : option Mov)
  (reference : option Ref) : t R :=
  let parameters := swapaxes01 (LPS @@ ras @@ LPS) in
  mk (transpose parameters).

(** [to_ras] *)
Definition to_ras (self : t R) (moving : option Mov)
  (reference : option Ref) : matrix :=
  LPS @@ swapaxes01 (transpose (parameters self)) @@ LPS.
End Ras.

End AFNILinearTransform.

(** ** AFNILinearTransformArray *)

Module AFNILinearTransformArray.

Record t (F : Type) : Type := mk { xforms : list (AFNILinearTransform.t F) }.
Arguments mk {F} xforms.
Arguments xforms {F} _.

Section Text.
Context {F : Type} `{PyFloat F}.

Definition nonblank (line : str) : bool :=
  match strip line with [] => false | _ => true end.

(** The lines of one transform as [to_string] collects them. *)
Definition xfm_lines (banner : bool) (xfm : AFNILinearTransform.t F)
  : list str :=
  map strip
    (filter nonblank
       (splitlines (AFNILinearTransform.to_string xfm banner))).

(** [for i, xfm in enumerate(self.xforms)]: the banner is asked for at
    index 0 only. *)
Fixpoint collect_lines (first : bool)
  (xs : list (AFNILinearTransform.t F)) : list str :=
  match xs with
  | [] => []
  | xfm :: rest => xfm_lines first xfm ++ collect_lines false rest
  end.

(** [to_string] *)
Definition to_string (self : t F) : str :=
  join [LF] (collect_lines true (xforms self)).

Definition keep_line (line : str) : bool :=
  nonblank line && negb (startswith (py "#") line).

(** The stripped lines handed to the inner parser. *)
Definition data_lines (string : str) : list str :=
  map strip (filter keep_line (splitlines string)).

(** [from_string] *)
Definition from_string (string : str) : result (t F) :=
  match data_lines string with
  | [] => Raise (TransformFileError (py "Input string is empty."))
  | lines =>
      xs <- mapM AFNILinearTransform.from_string lines ;;
      Ok (mk xs)
  end.
End Text.

Section Ras.
Context {Mov Ref : Type}.

(** [np.stack(arrays)]: [ValueError] when there is nothing to stack. *)
Definition stack (arrays : list matrix) : result (list matrix) :=
  match arrays with
  | [] => Raise ValueError
  | _ => Ok arrays
  end.

(** [to_ras] *)
Definition to_ras (self : t R) (moving : option Mov)
  (reference : option Ref) : result (list matrix) :=
  stack (map (fun xfm => AFNILinearTransform.to_ras xfm moving reference)
           (xforms self)).

(** [from_ras]: [ras] has shape (N, 4, 4) and [ras[i, ...]] is its
    [i]-th matrix. *)
Definition from_ras (ras : list matrix) (moving : option Mov)
  (reference : option Ref) : t R :=
  mk (map (fun ras_i => AFNILinearTransform.from_ras ras_i moving reference)
        ras).
End Ras.

End AFNILinearTransformArray.

(** ** AFNIDisplacementsField *)

Module AFNIDisplacementsField.

(** The kind of the dtype of an array, as far as the product in place by
    the float [-1.0] tells them apart: [floating] for the float dtypes,
    [integer] for the boolean and the signed and unsigned integer dtypes,
    which cannot take the float64 result of the product. *)
Inductive dtype_kind : Type := floating | integer.

(** An n-dimensional array: the kind of its dtype, its shape and its items
    in row-major order. *)
Record ndarray : Type := mk_ndarray {
  dtype : dtype_kind;
  shape : list nat;
  data : list R
}.

(** The image object: its data as [np.asanyarray(imgobj.dataobj)] gives
    them (for an image on disk, after the scaling of the header, if any,
    which makes them float64), its affine, and the file name of
    [file_map["image"]] ([None] for an image that is not on disk).  The
    header is not kept apart: nibabel holds its data shape equal to the
    shape of the data, on loading and on construction alike. *)
Record image : Type := mk_image {
  dataobj : ndarray;
  affine : matrix;
  filename : option str
}.

(** [imgobj.header.get_data_shape()] *)
Definition get_data_shape (imgobj : image) : list nat :=
  shape (dataobj imgobj).

Definition QUOTE : ascii := "034"%char.

(** ["%s" % filename] *)
Definition format_s (name : option str) : str :=
  match name with
  | Some s => s
  | None => py "None"
  end.

(** ['Displacements field "%s" does not come from AFNI.' % filename] *)
Definition message (name : option str) : str :=
  py "Displacements field " ++ [QUOTE] ++ format_s name ++ [QUOTE]
    ++ py " does not come from AFNI.".

(** [shape[-k]] *)
Definition from_end (k : nat) (shape : list nat) : nat :=
  nth (length shape - k) shape 0%nat.

(** [np.squeeze(a)]: every axis of length one is removed. *)
Definition squeeze (a : ndarray) : ndarray :=
  mk_ndarray (dtype a) (filter (fun n => negb (n =? 1)%nat) (shape a))
    (data a).

Fixpoint mapi_from {A B : Type} (k : nat) (f : nat -> A -> B) (l : list A)
  : list B :=
  match l with
  | [] => []
  | x :: t => f k x :: mapi_from (S k) f t
  end.

(** [field[..., (0, 1)] *= -1.0]: the item at flat position [k] has index
    [k mod c] on the last axis, of length [c].  The product is a float64
    array, stored back into [field]: numpy refuses the cast into a boolean
    or integer array (same-kind rule) with [UFuncTypeError], a
    [TypeError], before anything is written. *)
Definition negate_first_two (field : ndarray) : result ndarray :=
  match dtype field with
  | integer => Raise TypeError
  | floating =>
      let c := from_end 1 (shape field) in
      Ok (mk_ndarray floating (shape field)
            (mapi_from 0
               (fun k x => if (Nat.modulo k c <? 2)%nat then x * -1 else x)
               (data field)))
  end.

(** [from_image]; the image returned is built from the field, the affine
    of the input and the copied header, and is not on disk.  The product is
    made in place: when the data of the input are held in memory, they are
    the array that is modified.  The function below gives the contents of
    the field returned, from the data as they were before the call. *)
Definition from_image (imgobj : image) : result image :=
  let shape := get_data_shape imgobj in
  if negb (length shape =? 5)%nat
     || negb (from_end 2 shape =? 1)%nat
     || negb ((from_end 1 shape =? 2)%nat || (from_end 1 shape =? 3)%nat)
  then Raise (TransformFileError (message (filename imgobj)))
  else
    let field := squeeze (dataobj imgobj) in
    field <- negate_first_two field ;;
    Ok (mk_image field (affine imgobj) None).

End AFNIDisplacementsField.

(** ** Obliquity *)

Definition OBLIQUITY_THRESHOLD_DEG : R := 1 / 100.

(** [_is_oblique] *)
Definition _is_oblique (affine : matrix) (thres : R) : bool :=
  if Rlt_dec thres (list_min (obliquity affine) * 180 / PI)
  then true else false.

(** [_is_oblique(affine)], the threshold left at its default. *)
Definition _is_oblique_default (affine : matrix) : bool :=
  _is_oblique affine OBLIQUITY_THRESHOLD_DEG.

(** ** Warpdrive *)

(** [np.hstack((0.5 * shape, 1.0))] for [shape = np.array(shape[:3])] *)
Definition grid_center (shape : list nat) : list R :=
  map (Rmult (1 / 2)) (map INR (firstn 3 shape)) ++ [1].

(** The rotation part of the plumb affine: every column of
    [oblique[:3, :3]] is divided by its largest absolute value, the items
    left with absolute value below 1 are zeroed, and the column is scaled
    by the voxel size. *)
Definition plumb_rotation (oblique : matrix) : matrix :=
  let top := map (firstn 3) (firstn 3 oblique) in
  let colmax := map list_max (transpose (map (map Rabs) top)) in
  let plumb_r := map (fun row => zip_with Rdiv row colmax) top in
  let plumb_r :=
    map (map (fun x => if Rlt_dec (Rabs x) 1 then 0 else x)) plumb_r in
  map (fun row => zip_with Rmult row (voxel_sizes oblique)) plumb_r.

(** [M[:3, :3] = block] *)
Definition set_top_left (M block : matrix) : matrix :=
  zip_with (fun new old => new ++ skipn 3 old) block (firstn 3 M)
    ++ skipn 3 M.

(** [M[:3, 3] = v] *)
Definition set_translation (M : matrix) (v : list R) : matrix :=
  zip_with (fun row x => firstn 3 row ++ [x] ++ skipn 4 row) (firstn 3 M) v
    ++ skipn 3 M.

(** The plumb affine that [_afni_warpdrive] builds: the plumb rotation, and
    the translation that sends the grid center where [oblique] sends it. *)
Definition plumb_affine (oblique : matrix) (shape : list nat) : matrix :=
  let plumb := set_top_left eye4 (plumb_rotation oblique) in
  let obliq_c := matvec oblique (grid_center shape) in
  let plumb_c := matvec plumb (grid_center shape) in
  set_translation plumb
    (zip_with Rplus (map Ropp (firstn 3 plumb_c)) (firstn 3 obliq_c)).

(** [_afni_warpdrive]; [shape] holds the extents of the grid. *)
Definition _afni_warpdrive (oblique : matrix) (shape : list nat)
  (forward ras : bool) : result matrix :=
  let plumb := plumb_affine oblique shape in
  oblique_inv <- inv oblique ;;
  let R0 := plumb @@ oblique_inv in
  let R1 := if negb ras then LPS @@ R0 @@ LPS else R0 in
  if forward then Ok R1 else inv R1.

(** ** Sample inputs *)

Module FieldSamples.
Import AFNIDisplacementsField.

(** A field on a grid of two voxels along the first axis and one along
    the others: shape (2, 1, 1, 1, 3). *)
Definition single_column_field : image :=
  mk_image (mk_ndarray floating [2; 1; 1; 1; 3]%nat [1; 2; 3; 4; 5; 6]%R)
    eye4
    (Some (py "warp.nii")).

(** A field on a grid of 2 x 2 x 2 voxels with two components. *)
Definition cube_field : image :=
  mk_image
    (mk_ndarray floating [2; 2; 2; 1; 2]%nat
       [1; 2; 3; 4; 5; 6; 7; 8; 9; 10; 11; 12; 13; 14; 15; 16]%R)
    eye4 (Some (py "warp.nii")).


End FieldSamples.

Module AffineSamples.

(** An invertible affine whose first two columns are both largest in
    their first item; every column has length 5. *)
Definition sheared : matrix :=
  [[4; 4; 0; 0]; [3; 0; 3; 0]; [0; 3; 4; 0]; [0; 0; 0; 1]].

(** A rotation about the third axis with voxels of size 5, and a
    translation. *)
Definition rotated : matrix :=
  [[4; -3; 0; 10]; [3; 4; 0; -20]; [0; 0; 5; 30]; [0; 0; 0; 1]].

Definition grid : list nat := [2; 2; 2]%nat.

End AffineSamples.

Module TextSamples.

(** A banner line without its leading ["#"], then one transform. *)
Definition banner_without_hash : str :=
  py "3dvolreg matrices" ++ [LF] ++ py "1 2 3 4 5 6 7 8 9 10 11 12".

(** Twelve fields, the last of which is no number. *)
Definition twelfth_field_not_a_number : str :=
  py "1 2 3 4 5 6 7 8 9 10 11 x".

(** The identity transform, and a further line of three fields. *)
Definition identity_line : str := py "1 0 0 0 0 1 0 0 0 0 1 0".
Definition short_line : str := py "9 9 9".

(** One transform whose first number has seven significant digits. *)
Definition seven_digits : str := py "1234567 0 0 0 0 1 0 0 0 0 1 0".

Definition seven_digits_parsed : AFNILinearTransformArray.t pyfloat :=
  AFNILinearTransformArray.mk
    [AFNILinearTransform.mk
       [[Finite 1234567 0; Finite 0 0; Finite 0 0; Finite 0 0];
        [Finite 0 0; Finite 1 0; Finite 0 0; Finite 0 0];
        [Finite 0 0; Finite 0 0; Finite 1 0; Finite 0 0];
        [Finite 0 0; Finite 0 0; Finite 0 0; Finite 1 0]]].

(** The same transform once written with six significant digits and read
    again: 1234570. *)
Definition seven_digits_reparsed : AFNILinearTransformArray.t pyfloat :=
  AFNILinearTransformArray.mk
    [AFNILinearTransform.mk
       [[Finite 123457 1; Finite 0 0; Finite 0 0; Finite 0 0];
        [Finite 0 0; Finite 1 0; Finite 0 0; Finite 0 0];
        [Finite 0 0; Finite 0 0; Finite 1 0; Finite 0 0];
        [Finite 0 0; Finite 0 0; Finite 0 0; Finite 1 0]]].

(** A text of three lines: the banner, a transform whose first number
    has seven significant digits, and the identity transform. *)
Definition seven_digits_two_lines : str :=
  py "# 3dvolreg matrices (DICOM-to-DICOM, row-by-row):" ++ [LF]
    ++ py "1234567 0 0 0 0 1 0 0 0 0 1 0" ++ [LF]
    ++ py "1 0 0 0 0 1 0 0 0 0 1 0" ++ [LF].

Definition identity_parsed : AFNILinearTransform.t pyfloat :=
  AFNILinearTransform.mk
    [[Finite 1 0; Finite 0 0; Finite 0 0; Finite 0 0];
     [Finite 0 0; Finite 1 0; Finite 0 0; Finite 0 0];
     [Finite 0 0; Finite 0 0; Finite 1 0; Finite 0 0];
     [Finite 0 0; Finite 0 0; Finite 0 0; Finite 1 0]].

Definition seven_digits_two_lines_parsed
  : AFNILinearTransformArray.t pyfloat :=
  AFNILinearTransformArray.mk
    (AFNILinearTransformArray.xforms seven_digits_parsed
       ++ [identity_parsed]).

Definition seven_digits_two_lines_reparsed
  : AFNILinearTransformArray.t pyfloat :=
  AFNILinearTransformArray.mk
    (AFNILinearTransformArray.xforms seven_digits_reparsed
       ++ [identity_parsed]).

(** Two transforms under a banner and a comment, with a blank line. *)
Definition two_transforms : str :=
  py "# 3dvolreg matrices (DICOM-to-DICOM, row-by-row):" ++ [LF]
    ++ py "0.999999 -0.001 0 -4 0.001 0.621609 0.783327 -2 0 -0.783327 0.62161 -1"
    ++ [LF] ++ [LF]
    ++ py "1 0 0 1.5e-05 0 1 0 2e+06 0 0 1 -0.25" ++ [LF].

Definition two_transforms_parsed : AFNILinearTransformArray.t pyfloat :=
  AFNILinearTransformArray.mk
    [AFNILinearTransform.mk
       [[Finite 999999 (-6); Finite (-1) (-3); Finite 0 0; Finite (-4) 0];
        [Finite 1 (-3); Finite 621609 (-6); Finite 783327 (-6);
         Finite (-2) 0];
        [Finite 0 0; Finite (-783327) (-6); Finite 62161 (-5);
         Finite (-1) 0];
        [Finite 0 0; Finite 0 0; Finite 0 0; Finite 1 0]];
     AFNILinearTransform.mk
       [[Finite 1 0; Finite 0 0; Finite 0 0; Finite 15 (-6)];
        [Finite 0 0; Finite 1 0; Finite 0 0; Finite 2 6];
        [Finite 0 0; Finite 0 0; Finite 1 0; Finite (-25) (-2)];
        [Finite 0 0; Finite 0 0; Finite 0 0; Finite 1 0]]].

End TextSamples.

(** ** Vocabulary of the statements *)

(** A line parses into exactly 12 numbers when it has 12 fields and every
    field is a float literal. *)
Definition parses_into_12_numbers {F : Type} `{PyFloat F} (line : str) : Prop :=
  exists xs : list F,
    length xs = 12%nat
    /\ map float_of_str (delimited_splitter (decode_latin1 (encode line)))
       = map Some xs.

(** The parameters of a transform that [from_string] returned. *)
Definition parsed {F : Type} `{PyFloat F} (xfm : AFNILinearTransform.t F)
  : Prop :=
  exists a0 a1 a2 a3 a4 a5 a6 a7 a8 a9 a10 a11,
    AFNILinearTransform.parameters xfm
    = [[a0; a1; a2; a3]; [a4; a5; a6; a7]; [a8; a9; a10; a11];
       [float_zero; float_zero; float_zero; float_one]].

(** The values that [__str__] writes: [param[:3, :].reshape(-1)]. *)
Definition written {F : Type} (xfm : AFNILinearTransform.t F) : list F :=
  concat (firstn 3 (AFNILinearTransform.parameters xfm)).

(** A value that is read back from its ["%g"] form as it was. *)
Definition reread {F : Type} `{PyFloat F} (x : F) : Prop :=
  float_of_str (format_g x) = Some x.

(** A character of a number as ["%g"] writes it: not whitespace, not the
    comment mark, and plain ASCII. *)
Definition token_char (c : ascii) : bool :=
  negb (isspace c) && negb (Ascii.eqb c "#") && (code c <? 128)%N.

Definition clean_token (tok : str) : Prop :=
  tok <> [] /\ Forall (fun c => token_char c = true) tok.

(** A character of a line of tab-separated tokens. *)
Definition line_char (c : ascii) : bool := Ascii.eqb c TAB || token_char c.

(** The characters of a formatted number. *)
Definition number_char (c : ascii) : bool :=
  isdigit c || existsb (Ascii.eqb c) (py ".e+-naif").

Definition number_str (s : str) : Prop :=
  Forall (fun c => number_char c = true) s.

(** The bottom row of an affine. *)
Definition affine_bottom_row (M : matrix) : Prop :=
  nth 3 M [] = [0; 0; 0; 1].

(** The data shapes that [from_image] accepts. *)
Definition afni_shape (shape : list nat) : Prop :=
  exists X Y Z C : nat,
    shape = [X; Y; Z; 1%nat; C] /\ (C = 2%nat \/ C = 3%nat).

(** One item of the plumb rotation, from the item [a] of the oblique
    affine, the largest absolute value [m] of its column and the voxel size
    [v] of the column. *)
Definition plumb_item (a m v : R) : R :=
  (if Rlt_dec (Rabs (a / m)) 1 then 0 else a / m) * v.

Definition max3 (a b c : R) : R := Rmax (Rmax (Rabs a) (Rabs b)) (Rabs c).
Definition norm3 (a b c : R) : R := sqrt (a * a + (b * b + (c * c + 0))).

(** A value in lowest terms. *)
Definition canonical (x : pyfloat) : Prop :=
  match x with
  | Finite m e => (m = 0 /\ e = 0)%Z \/ (m mod 10 <> 0)%Z
  | _ => True
  end.

(** A number of at most six significant digits (the digits of [m], the
    value being in lowest terms), or an infinity; nan, which is equal to
    nothing, is left out. *)
Definition six_digits (x : pyfloat) : Prop :=
  match x with
  | Finite m e => (length (digits_of (Z.to_N (Z.abs m))) <= 6)%nat
  | Inf _ => True
  | NaN => False
  end.

(** The plain digits that [N.to_uint] gives, as characters. *)
Definition uint_chars (d : Decimal.uint) : str :=
  list_ascii_of_string (NilEmpty.string_of_uint d).

Definition digit_step (acc : Z) (d : ascii) : Z :=
  (10 * acc + digit_value d)%Z.

(** What may follow the digits of a [digitpart]. *)
Definition stops_digits (r : str) : Prop :=
  match r with
  | [] => True
  | c :: _ => isdigit c = false /\ c <> "_"%char
  end.

(** The end of a number: nothing, or an exponent. *)
Definition number_tail (tail : str) (x : Z) : Prop :=
  (tail = [] /\ x = 0%Z) \/ tail = py "e" ++ exponent_field x.

(** ** The affine kept in the header of an AFNI image *)

(** What [_afni_header] returns: the values as they were read, or the 4x4
    affine made of twelve of them. *)
Inductive header_value : Type :=
| Flat (values : list R)
| Affine (M : matrix).

(** The default of the [field] argument. *)
Definition WARPDRIVE_FIELD : str := py "WARPDRIVE_MATVEC_FOR_000000".

Section AfniHeader.
(** The image objects, and the array that [np.fromstring] reads from the
    text of the element of the XML header extension whose [atr_name] is
    [field].  The lookup is left to [lxml] and numpy: an image without
    the extension or without the element is outside this function. *)
Variable Nii : Type.
Variable attribute_values : Nii -> str -> list R.

(** [_afni_header]: twelve values are laid out as three rows of four above
    the row [0, 0, 0, 1], and converted when [to_ras] is set; any other
    number of values is returned flat. *)
Definition _afni_header (nii : Nii) (field : str) (to_ras : bool)
  : result header_value :=
  let retval := attribute_values nii field in
  if (length retval =? 12)%nat then
    rows <- reshape_3_4 retval ;;
    let retval := rows ++ [[0; 0; 0; 1]] in
    Ok (Affine (if to_ras then LPS @@ retval @@ LPS else retval))
  else Ok (Flat retval).
End AfniHeader.

(** ** Further vocabulary *)

(** [M[i, j]] *)
Definition entry (i j : nat) (M : matrix) : R := nth j (nth i M []) 0.

(** [np.diag([s0, s1, s2, 1])]: the zooms of the three axes. *)
Definition zooms (s0 s1 s2 : R) : matrix :=
  [[s0; 0; 0; 0]; [0; s1; 0; 0]; [0; 0; s2; 0]; [0; 0; 0; 1]].

(** A column of the rotation part that lies along one of the three
    axes: one item is not zero, the two others are. *)
Definition cardinal_column (a b c : R) : Prop :=
  (a <> 0 /\ b = 0 /\ c = 0) \/ (a = 0 /\ b <> 0 /\ c = 0)
  \/ (a = 0 /\ b = 0 /\ c <> 0).

(** The sign change of the conversion between RAS and LPS at row [i] and
    column [j]: one of the two indices is below 2 and the other is not. *)
Definition lps_flips (i j : nat) : bool := xorb (i <? 2)%nat (j <? 2)%nat.

(** A space or a tab. *)
Definition blank_char (c : ascii) : bool :=
  Ascii.eqb c " " || Ascii.eqb c TAB.

Definition blank (s : str) : Prop := Forall (fun c => blank_char c = true) s.

(** A line as a sequence of fields, each a token and the gap after it. *)
Fixpoint spaced (fields : list (str * str)) : str :=
  match fields with
  | [] => []
  | (tok, gap) :: rest => tok ++ gap ++ spaced rest
  end.

(** Every gap but the last is not empty. *)
Fixpoint separated (fields : list (str * str)) : Prop :=
  match fields with
  | [] => True
  | (_, gap) :: rest =>
      match rest with
      | [] => True
      | _ => gap <> [] /\ separated rest
      end
  end.

(** * Properties *)

(** ** The error monad *)

Lemma mapM_ok_inv {A B : Type} (f : A -> result B) (l : list A) (ys : list B) :
  mapM f l = Ok ys -> Forall2 (fun x y => f x = Ok y) l ys.
Proof.
  revert ys; induction l as [|x t IH]; simpl; intros ys Hm.
  - injection Hm as <-. constructor.
  - destruct (f x) as [y|e] eqn:Hx; simpl in Hm; [|discriminate].
    destruct (mapM f t) as [ys'|e] eqn:Ht; simpl in Hm; [|discriminate].
    injection Hm as <-. constructor; auto.
Qed.

Lemma mapM_ok_intro {A B : Type} (f : A -> result B) (l : list A) (ys : list B) :
  Forall2 (fun x y => f x = Ok y) l ys -> mapM f l = Ok ys.
Proof.
  induction 1 as [|x y t ys' Hx _ IH]; simpl; [reflexivity|].
  now rewrite Hx, IH.
Qed.

(** [mapM] raises exactly the exception of the first item on which [f]
    raises. *)
Lemma mapM_raise_iff {A B : Type} (f : A -> result B) (l : list A) e :
  mapM f l = Raise e <->
  exists pre x post,
    l = pre ++ x :: post /\ Forall (fun a => succeeds (f a)) pre
    /\ f x = Raise e.
Proof.
  induction l as [|a t IH]; simpl.
  - split; [discriminate|].
    intros (pre & x & post & Hl & _); destruct pre; discriminate.
  - split.
    + destruct (f a) as [y|e'] eqn:Ha; simpl.
      * destruct (mapM f t) as [ys|e'] eqn:Ht; simpl; [discriminate|].
        intros Heq; injection Heq as ->.
        destruct (proj1 IH eq_refl) as (pre & x & post & Et & Hpre & Hx).
        exists (a :: pre), x, post; repeat split; auto.
        -- simpl; now rewrite Et.
        -- constructor; auto. now exists y.
      * intros Heq; injection Heq as ->.
        exists [], a, t; repeat split; auto.
    + intros (pre & x & post & Hl & Hpre & Hx).
      destruct pre as [|p pre]; simpl in Hl; injection Hl as Ea Et.
      * subst a. now rewrite Hx.
      * subst p. inversion Hpre as [|? ? [y Hy] Hpre']; subst.
        rewrite Hy; simpl.
        assert (mapM f (pre ++ x :: post) = Raise e) as Hm.
        { apply IH. exists pre, x, post; auto. }
        now rewrite Hm.
Qed.

(** ** The single-transform parser *)

Section SingleParser.
Context {F : Type} `{PyFloat F}.

Lemma reshape_3_4_length (a : list F) :
  length a = 12%nat ->
  exists a0 a1 a2 a3 a4 a5 a6 a7 a8 a9 a10 a11,
    a = [a0; a1; a2; a3; a4; a5; a6; a7; a8; a9; a10; a11]
    /\ reshape_3_4 a
       = Ok [[a0; a1; a2; a3]; [a4; a5; a6; a7]; [a8; a9; a10; a11]].
Proof.
  intros Hlen.
  do 12 (destruct a as [|? a]; [discriminate Hlen|]).
  destruct a; [|discriminate Hlen].
  repeat eexists.
Qed.

Lemma reshape_3_4_other (a : list F) :
  length a <> 12%nat -> reshape_3_4 a = Raise ValueError.
Proof.
  intros Hlen.
  do 12 (destruct a as [|? a]; [reflexivity|]).
  destruct a; [exfalso; apply Hlen; reflexivity | reflexivity].
Qed.

(** The only [TransformFileError] of [from_string] is the one of the
    empty selection. *)
Lemma from_string_raises_iff (string : str) :
  raises_TransformFileError (AFNILinearTransform.from_string (F:=F) string)
  <-> AFNILinearTransform.data_lines string = [].
Proof.
  unfold AFNILinearTransform.from_string, raises_TransformFileError.
  destruct (AFNILinearTransform.data_lines string) as [|line0 rest].
  - split; [reflexivity | eauto].
  - split; [|discriminate].
    intros [msg Hr].
    destruct (Nat.eq_dec (length (genfromtxt (F:=F) line0)) 12) as [E|E].
    + destruct (reshape_3_4_length _ E)
        as (? & ? & ? & ? & ? & ? & ? & ? & ? & ? & ? & ? & _ & Hre).
      rewrite Hre in Hr. discriminate Hr.
    + rewrite (reshape_3_4_other _ E) in Hr. discriminate Hr.
Qed.

Lemma from_string_first_line (string line0 : str) (rest : list str) :
  AFNILinearTransform.data_lines string = line0 :: rest ->
  AFNILinearTransform.from_string (F:=F) string
  = (rows <- reshape_3_4 (genfromtxt line0) ;;
     Ok (AFNILinearTransform.mk
           (rows ++ [[float_zero; float_zero; float_zero; float_one]]))).
Proof.
  intros Hd. unfold AFNILinearTransform.from_string. now rewrite Hd.
Qed.
End SingleParser.

(** ** Lines *)

Lemma splitlines_app_LF (line more : str) :
  Forall (fun c => islinebreak c = false) line ->
  splitlines (line ++ LF :: more) = line :: splitlines more.
Proof.
  induction 1 as [|c line Hc _ IH]; simpl.
  - destruct more; reflexivity.
  - now rewrite Hc, IH.
Qed.

Lemma splitlines_one (line : str) :
  Forall (fun c => islinebreak c = false) line ->
  line <> [] ->
  splitlines line = [line].
Proof.
  induction 1 as [|c line Hc Hl IH]; intros Hne; [congruence|].
  simpl. rewrite Hc.
  destruct line as [|c' line']; [reflexivity|].
  rewrite IH by discriminate. reflexivity.
Qed.

Lemma strip_nil : strip [] = [].
Proof. reflexivity. Qed.

Lemma Forall_forallb_false (p : ascii -> bool) (s : str) :
  forallb (fun c => negb (p c)) s = true -> Forall (fun c => p c = false) s.
Proof.
  intros Hf. apply Forall_forall. intros c Hc.
  rewrite forallb_forall in Hf. apply negb_true_iff. now apply Hf.
Qed.

(** ** The array parser *)

Section ArrayParser.
Context {F : Type} `{PyFloat F}.

(** [AFNILinearTransformArray.from_string] raises the format error for an
    empty selection, and passes on the one of the first line that the
    inner parser turns down, when every line before it was accepted. *)
Lemma array_from_string_raises_iff (string : str) :
  raises_TransformFileError
    (AFNILinearTransformArray.from_string (F:=F) string)
  <-> AFNILinearTransformArray.data_lines string = []
      \/ exists pre line post,
          AFNILinearTransformArray.data_lines string = pre ++ line :: post
          /\ Forall (fun l => succeeds
                                (AFNILinearTransform.from_string (F:=F) l))
               pre
          /\ AFNILinearTransform.data_lines line = [].
Proof.
  unfold AFNILinearTransformArray.from_string, raises_TransformFileError.
  destruct (AFNILinearTransformArray.data_lines string) as [|l0 ls] eqn:Hd.
  - split; [now left | eauto].
  - set (lines := l0 :: ls) in *.
    split.
    + intros [msg Hr]. right.
      destruct (mapM AFNILinearTransform.from_string lines) as [xs|e] eqn:Hm;
        simpl in Hr; [discriminate|].
      injection Hr as ->.
      apply mapM_raise_iff in Hm.
      destruct Hm as (pre & x & post & Hl & Hpre & Hx).
      exists pre, x, post; repeat split; auto.
      apply from_string_raises_iff. now exists msg.
    + intros [Habs | (pre & x & post & Hl & Hpre & Hx)]; [discriminate|].
      apply (from_string_raises_iff (F:=F)) in Hx. destruct Hx as [msg Hx].
      exists msg.
      assert (mapM AFNILinearTransform.from_string lines
              = Raise (TransformFileError msg)) as Hm.
      { apply mapM_raise_iff. exists pre, x, post; auto. }
      now rewrite Hm.
Qed.
End ArrayParser.

(** C5 (amended).  [AFNILinearTransform.from_string] keeps the lines that
    are not blank, do not start with ["#"] and do not hold the banner text,
    and raises [TransformFileError] if and only if none is kept.
    [AFNILinearTransformArray.from_string] keeps, stripped, the lines that
    are not blank and do not start with ["#"]; it raises
    [TransformFileError] if and only if none is kept or the first kept line
    that the inner parser does not accept is one the inner parser's own
    selection leaves nothing of. *)
Theorem from_string_format_error (F : Type) (PF : PyFloat F) (string : str) :
  (forall line,
      In line (AFNILinearTransform.data_lines string)
      <-> In line (splitlines string) /\ strip line <> []
          /\ startswith (py "#") line = false
          /\ contains (py "3dvolreg matrices") line = false)
  /\ (raises_TransformFileError
        (AFNILinearTransform.from_string (F:=F) string)
      <-> AFNILinearTransform.data_lines string = [])
  /\ (forall line,
        In line (AFNILinearTransformArray.data_lines string)
        <-> exists raw, In raw (splitlines string) /\ strip raw <> []
                        /\ startswith (py "#") raw = false
                        /\ line = strip raw)
  /\ (raises_TransformFileError
        (AFNILinearTransformArray.from_string (F:=F) string)
      <-> AFNILinearTransformArray.data_lines string = []
          \/ exists pre line post,
              AFNILinearTransformArray.data_lines string = pre ++ line :: post
              /\ Forall (fun l => succeeds
                                    (AFNILinearTransform.from_string (F:=F) l))
                   pre
              /\ AFNILinearTransform.data_lines line = []).
Proof.
  split; [|split; [|split]].
  - intros line. unfold AFNILinearTransform.data_lines.
    rewrite filter_In. unfold AFNILinearTransform.keep_line.
    rewrite andb_true_iff, negb_true_iff, orb_false_iff.
    destruct (strip line); intuition congruence.
  - apply from_string_raises_iff.
  - intros line. unfold AFNILinearTransformArray.data_lines.
    rewrite in_map_iff. split.
    + intros (raw & <- & Hin). apply filter_In in Hin. destruct Hin as [Hin Hk].
      unfold AFNILinearTransformArray.keep_line,
        AFNILinearTransformArray.nonblank in Hk.
      apply andb_true_iff in Hk. destruct Hk as [Hn Hs].
      apply negb_true_iff in Hs.
      exists raw; repeat split; auto. destruct (strip raw); congruence.
    + intros (raw & Hin & Hn & Hs & ->). exists raw; split; auto.
      apply filter_In; split; auto.
      unfold AFNILinearTransformArray.keep_line,
        AFNILinearTransformArray.nonblank.
      rewrite Hs. destruct (strip raw); [congruence | reflexivity].
  - apply array_from_string_raises_iff.
Qed.

(** C6 (amended).  With [line] the first line kept, its fields are what
    [genfromtxt] splits it into: the comment from the first ["#"] on is cut
    off, and the rest is split at whitespace.  If there are exactly 12
    fields, the parameters are their values, row by row in three rows of
    four, above the row [0, 0, 0, 1]: the value of a field that is a float
    literal is the number that [float] reads in it, the value of any other
    field is nan.  If there are not 12 fields, [ValueError] is raised. *)
Theorem from_string_parameters (F : Type) (PF : PyFloat F)
  (string line : str) (rest : list str) :
  AFNILinearTransform.data_lines string = line :: rest ->
  let fields := delimited_splitter (decode_latin1 (encode line)) in
  (length fields = 12%nat ->
   exists a0 a1 a2 a3 a4 a5 a6 a7 a8 a9 a10 a11,
     map (fun field => match float_of_str field with
                       | Some x => x
                       | None => float_nan
                       end) fields
     = [a0; a1; a2; a3; a4; a5; a6; a7; a8; a9; a10; a11]
     /\ AFNILinearTransform.from_string (F:=F) string
        = Ok (AFNILinearTransform.mk
                [[a0; a1; a2; a3]; [a4; a5; a6; a7]; [a8; a9; a10; a11];
                 [float_zero; float_zero; float_zero; float_one]]))
  /\ (length fields <> 12%nat ->
      AFNILinearTransform.from_string (F:=F) string = Raise ValueError).
Proof.
  intros Hd fields. rewrite (from_string_first_line _ Hd).
  unfold genfromtxt. fold fields. split.
  - intros Hlen.
    destruct (reshape_3_4_length (map (loose_call (F:=F)) fields))
      as (a0 & a1 & a2 & a3 & a4 & a5 & a6 & a7 & a8 & a9 & a10 & a11
          & Hm & Hre).
    { now rewrite length_map. }
    exists a0, a1, a2, a3, a4, a5, a6, a7, a8, a9, a10, a11.
    split; [exact Hm|]. now rewrite Hre.
  - intros Hlen. rewrite reshape_3_4_other; [reflexivity|].
    now rewrite length_map.
Qed.

(** C10.  The single-transform parser reads the first kept line only: the
    lines that follow it change nothing, neither the outcome nor the
    parameters, whatever they hold.  It skips every line that holds the
    banner text, with or without a leading ["#"]; the array parser skips
    blank lines and lines starting with ["#"] and nothing else. *)
Theorem from_string_first_data_line_only (F : Type) (PF : PyFloat F)
  (line more : str) :
  Forall (fun c => islinebreak c = false) line ->
  AFNILinearTransform.keep_line line = true ->
  AFNILinearTransform.from_string (F:=F) (line ++ [LF] ++ more)
  = AFNILinearTransform.from_string line
  /\ (forall string rest,
        AFNILinearTransform.data_lines string = line :: rest ->
        AFNILinearTransform.from_string (F:=F) string
        = AFNILinearTransform.from_string line)
  /\ AFNILinearTransform.from_string (F:=F) line
     = (rows <- reshape_3_4 (genfromtxt line) ;;
        Ok (AFNILinearTransform.mk
              (rows ++ [[float_zero; float_zero; float_zero; float_one]])))
  /\ (forall l, contains (py "3dvolreg matrices") l = true ->
                AFNILinearTransform.keep_line l = false)
  /\ (forall l, AFNILinearTransformArray.keep_line l = true
                <-> strip l <> [] /\ startswith (py "#") l = false).
Proof.
  intros Hnb Hk.
  assert (line <> []) as Hne.
  { intros ->. discriminate Hk. }
  assert (AFNILinearTransform.data_lines line = [line]) as Hone.
  { unfold AFNILinearTransform.data_lines.
    rewrite (splitlines_one Hnb Hne). simpl. now rewrite Hk. }
  assert (AFNILinearTransform.data_lines (line ++ [LF] ++ more)
          = line :: AFNILinearTransform.data_lines more) as Hmore.
  { unfold AFNILinearTransform.data_lines. simpl app.
    rewrite (splitlines_app_LF more Hnb). simpl. now rewrite Hk. }
  split; [|split; [|split; [|split]]].
  - now rewrite (from_string_first_line _ Hmore), (from_string_first_line _ Hone).
  - intros string rest Hd.
    now rewrite (from_string_first_line _ Hd), (from_string_first_line _ Hone).
  - apply (from_string_first_line _ Hone).
  - intros l Hc. unfold AFNILinearTransform.keep_line.
    rewrite Hc, orb_true_r. simpl. apply andb_false_r.
  - intros l. unfold AFNILinearTransformArray.keep_line,
      AFNILinearTransformArray.nonblank.
    rewrite andb_true_iff, negb_true_iff.
    destruct (strip l); intuition congruence.
Qed.

(** C5: the array parser raises the format error on a text that holds a
    transform, because of a banner line without ["#"]; lines remain after
    either selection. *)
Lemma banner_without_hash_raises :
  ~ (raises_TransformFileError
       (AFNILinearTransformArray.from_string (F:=pyfloat)
          TextSamples.banner_without_hash)
     <-> AFNILinearTransformArray.data_lines TextSamples.banner_without_hash = [])
  /\ ~ (raises_TransformFileError
          (AFNILinearTransformArray.from_string (F:=pyfloat)
             TextSamples.banner_without_hash)
        <-> AFNILinearTransform.data_lines TextSamples.banner_without_hash = []).
Proof.
  assert (raises_TransformFileError
            (AFNILinearTransformArray.from_string (F:=pyfloat)
               TextSamples.banner_without_hash)) as Hr.
  { exists []. vm_compute. reflexivity. }
  split; intros [Himp _]; specialize (Himp Hr); vm_compute in Himp;
    discriminate Himp.
Qed.

(** C6: a line of twelve fields whose last field is no number is accepted,
    with nan as the last parameter of the third row. *)
Lemma non_number_field_accepted :
  AFNILinearTransform.data_lines TextSamples.twelfth_field_not_a_number
  = [TextSamples.twelfth_field_not_a_number]
  /\ ~ parses_into_12_numbers (F:=pyfloat) TextSamples.twelfth_field_not_a_number
  /\ AFNILinearTransform.from_string (F:=pyfloat)
       TextSamples.twelfth_field_not_a_number
     = Ok (AFNILinearTransform.mk
             [[Finite 1 0; Finite 2 0; Finite 3 0; Finite 4 0];
              [Finite 5 0; Finite 6 0; Finite 7 0; Finite 8 0];
              [Finite 9 0; Finite 1 1; Finite 11 0; NaN];
              [Finite 0 0; Finite 0 0; Finite 0 0; Finite 1 0]]).
Proof.
  split; [vm_compute; reflexivity|]. split; [|vm_compute; reflexivity].
  intros (xs & Hlen & Hm). vm_compute in Hm.
  do 12 (destruct xs as [|? xs]; [discriminate Hlen|]).
  simpl in Hm. discriminate Hm.
Qed.

(** C6, at the identity transform. *)
Lemma from_string_parameters_witness :
  AFNILinearTransform.from_string (F:=pyfloat) TextSamples.identity_line
  = Ok (AFNILinearTransform.mk
          [[Finite 1 0; Finite 0 0; Finite 0 0; Finite 0 0];
           [Finite 0 0; Finite 1 0; Finite 0 0; Finite 0 0];
           [Finite 0 0; Finite 0 0; Finite 1 0; Finite 0 0];
           [Finite 0 0; Finite 0 0; Finite 0 0; Finite 1 0]]).
Proof.
  destruct (@from_string_parameters pyfloat _ TextSamples.identity_line
              TextSamples.identity_line [] eq_refl) as (H12 & _).
  destruct (H12 eq_refl)
    as (a0 & a1 & a2 & a3 & a4 & a5 & a6 & a7 & a8 & a9 & a10 & a11 & Hm & Hr).
  vm_compute in Hm.
  injection Hm as <- <- <- <- <- <- <- <- <- <- <- <-.
  exact Hr.
Defined.

(** C10, at the identity transform followed by a line of three fields. *)
Lemma from_string_first_data_line_only_witness :
  AFNILinearTransform.from_string (F:=pyfloat)
    (TextSamples.identity_line ++ [LF] ++ TextSamples.short_line)
  = AFNILinearTransform.from_string TextSamples.identity_line.
Proof.
  refine (proj1 (@from_string_first_data_line_only pyfloat _
                   TextSamples.identity_line TextSamples.short_line _ _)).
  - apply Forall_forallb_false. vm_compute. reflexivity.
  - vm_compute. reflexivity.
Defined.

(** ** RAS and LPS *)

Lemma is4x4_inv (M : matrix) :
  is4x4 M ->
  exists a00 a01 a02 a03 a10 a11 a12 a13 a20 a21 a22 a23 a30 a31 a32 a33,
    M = [[a00; a01; a02; a03]; [a10; a11; a12; a13];
         [a20; a21; a22; a23]; [a30; a31; a32; a33]].
Proof.
  intros [Hlen Hrows].
  do 4 (destruct M as [|? M]; [discriminate Hlen|]).
  destruct M; [|discriminate Hlen].
  repeat match goal with
         | H : Forall _ (_ :: _) |- _ => inversion H; clear H; subst
         end.
  repeat match goal with
         | H : length ?l = 4%nat |- _ =>
             do 4 (destruct l as [|? l]; [discriminate H|]);
             destruct l; [clear H | discriminate H]
         end.
  repeat eexists.
Qed.

Ltac matrix_unfold :=
  unfold swapaxes01, matmul, matvec, transpose, column, ncols, dot, rsum,
    LPS, eye4;
  cbn [map seq nth hd length zip_with fold_right app firstn skipn].

(** Two lists of the same length are equal when their items are. *)
Ltac list_eq :=
  repeat match goal with
         | |- _ :: _ = _ :: _ => f_equal
         end.

Ltac matrix_ring := matrix_unfold; list_eq; ring.

(** Conjugation by [LPS] changes the sign of the items that lie in one of
    the first two rows or in one of the first two columns, but not in
    both. *)
Lemma lps_conjugation
  (a00 a01 a02 a03 a10 a11 a12 a13 a20 a21 a22 a23 a30 a31 a32 a33 : R) :
  LPS @@ [[a00; a01; a02; a03]; [a10; a11; a12; a13];
          [a20; a21; a22; a23]; [a30; a31; a32; a33]] @@ LPS
  = [[a00; a01; - a02; - a03]; [a10; a11; - a12; - a13];
     [- a20; - a21; a22; a23]; [- a30; - a31; a32; a33]].
Proof. matrix_ring. Qed.

Lemma transpose_4x4
  (a00 a01 a02 a03 a10 a11 a12 a13 a20 a21 a22 a23 a30 a31 a32 a33 : R) :
  transpose [[a00; a01; a02; a03]; [a10; a11; a12; a13];
             [a20; a21; a22; a23]; [a30; a31; a32; a33]]
  = [[a00; a10; a20; a30]; [a01; a11; a21; a31];
     [a02; a12; a22; a32]; [a03; a13; a23; a33]].
Proof. reflexivity. Qed.

(** Conjugating twice by [LPS], with the transpositions of [from_ras] and
    [to_ras] in between, gives the matrix back. *)
Lemma to_ras_from_ras {Mov Ref : Type} (moving : option Mov)
  (reference : option Ref) (M : matrix) :
  is4x4 M ->
  AFNILinearTransform.to_ras
    (AFNILinearTransform.from_ras M moving reference) moving reference = M.
Proof.
  intros H4.
  destruct (is4x4_inv H4)
    as (a00 & a01 & a02 & a03 & a10 & a11 & a12 & a13
        & a20 & a21 & a22 & a23 & a30 & a31 & a32 & a33 & ->).
  unfold AFNILinearTransform.to_ras, AFNILinearTransform.from_ras, swapaxes01.
  cbn [AFNILinearTransform.parameters].
  rewrite lps_conjugation, !transpose_4x4, lps_conjugation.
  now rewrite !Ropp_involutive.
Qed.

(** C1 (amended).  For every 4x4 matrix [M] with bottom row [0, 0, 0, 1],
    [to_ras(from_ras(M))] is [M]; for every stack of such matrices that is
    not empty, [to_ras(from_ras(stack))] is the stack, matrix by matrix in
    the same order.  Over the reals the equalities are exact, hence within
    any tolerance. *)
Theorem ras_round_trip (Mov Ref : Type) (moving : option Mov)
  (reference : option Ref) (M : matrix) (ras : list matrix) :
  is4x4 M -> affine_bottom_row M ->
  ras <> [] -> Forall (fun M' => is4x4 M' /\ affine_bottom_row M') ras ->
  AFNILinearTransform.to_ras
    (AFNILinearTransform.from_ras M moving reference) moving reference = M
  /\ AFNILinearTransformArray.to_ras
       (AFNILinearTransformArray.from_ras ras moving reference)
       moving reference = Ok ras.
Proof.
  intros H4 _ Hne Hall. split; [now apply to_ras_from_ras|].
  unfold AFNILinearTransformArray.to_ras, AFNILinearTransformArray.from_ras.
  simpl. rewrite map_map.
  assert (map (fun x => AFNILinearTransform.to_ras
                          (AFNILinearTransform.from_ras x moving reference)
                          moving reference) ras = ras) as ->.
  { clear Hne. induction Hall as [|M' t [HM' _] _ IH]; simpl; [reflexivity|].
    now rewrite to_ras_from_ras, IH. }
  destruct ras; [contradiction | reflexivity].
Qed.

(** C1, at the identity and at a stack of two affines. *)
Lemma ras_round_trip_witness :
  AFNILinearTransform.to_ras (Mov:=unit) (Ref:=unit)
    (AFNILinearTransform.from_ras (Mov:=unit) (Ref:=unit) eye4 None None)
    None None
  = eye4
  /\ AFNILinearTransformArray.to_ras (Mov:=unit) (Ref:=unit)
       (AFNILinearTransformArray.from_ras (Mov:=unit) (Ref:=unit)
          [eye4; [[1; 0; 0; 4]; [0; 1; 0; 2]; [0; 0; 1; -1]; [0; 0; 0; 1]]]
          None None)
       None None
     = Ok [eye4; [[1; 0; 0; 4]; [0; 1; 0; 2]; [0; 0; 1; -1]; [0; 0; 0; 1]]].
Proof.
  apply ras_round_trip.
  - split; [reflexivity | repeat constructor].
  - reflexivity.
  - discriminate.
  - repeat constructor.
Defined.

(** C1: nothing can be stacked for the empty sequence of transforms, and
    [to_ras] raises. *)
Lemma to_ras_of_empty_stack_raises :
  AFNILinearTransformArray.to_ras (Mov:=unit) (Ref:=unit)
    (AFNILinearTransformArray.from_ras (Mov:=unit) (Ref:=unit) [] None None)
    None None
  = Raise ValueError.
Proof. reflexivity. Qed.

(** C9.  [from_ras] stores the same parameters, and [to_ras] returns the
    same matrix, whatever is passed as [moving] and [reference]. *)
Theorem ras_ignores_moving_and_reference
  (Mov1 Ref1 Mov2 Ref2 : Type)
  (moving1 : option Mov1) (reference1 : option Ref1)
  (moving2 : option Mov2) (reference2 : option Ref2)
  (M : matrix) (self : AFNILinearTransform.t R) :
  AFNILinearTransform.parameters
    (AFNILinearTransform.from_ras M moving1 reference1)
  = AFNILinearTransform.parameters
      (AFNILinearTransform.from_ras M moving2 reference2)
  /\ AFNILinearTransform.to_ras self moving1 reference1
     = AFNILinearTransform.to_ras self moving2 reference2.
Proof. split; reflexivity. Qed.

(** ** Displacements fields *)

Section FromImage.
Import AFNIDisplacementsField.

Lemma afni_shape_dec (shape : list nat) :
  (negb (length shape =? 5)%nat
   || negb (from_end 2 shape =? 1)%nat
   || negb ((from_end 1 shape =? 2)%nat || (from_end 1 shape =? 3)%nat))
  = false <-> afni_shape shape.
Proof.
  rewrite !orb_false_iff, !negb_false_iff, orb_true_iff, !Nat.eqb_eq.
  unfold afni_shape, from_end. split.
  - intros [[Hlen H2] H1].
    do 5 (destruct shape as [|? shape]; [discriminate Hlen|]).
    destruct shape; [|discriminate Hlen].
    simpl in H1, H2. subst.
    repeat eexists. exact H1.
  - intros (X & Y & Z & C & -> & HC). simpl. auto.
Qed.







(** C4, at a field of shape (2, 1, 1, 1, 3): the array returned has shape
    (2, 3), not (2, 1, 1, 3). *)
Theorem from_image_single_column_field :
  from_image FieldSamples.single_column_field
  = Ok (mk_image (mk_ndarray floating [2; 3]%nat [-1; -2; 3; -4; -5; 6])
          eye4 None)
  /\ shape (dataobj FieldSamples.single_column_field)
     = [2; 1; 1; 1; 3]%nat.
Proof.
  split; [|reflexivity].
  unfold from_image. simpl.
  unfold negate_first_two. simpl.
  do 3 f_equal. list_eq; ring.
Qed.
End FromImage.

(** ** Obliquity *)

Lemma voxel_sizes_eye4 : voxel_sizes eye4 = [1; 1; 1].
Proof.
  unfold voxel_sizes, eye4, transpose, column, ncols, rsum. simpl.
  replace (1 * 1 + (0 * 0 + (0 * 0 + 0))) with 1 by ring.
  replace (0 * 0 + (1 * 1 + (0 * 0 + 0))) with 1 by ring.
  replace (0 * 0 + (0 * 0 + (1 * 1 + 0))) with 1 by ring.
  now rewrite sqrt_1.
Qed.

Lemma obliquity_eye4 : obliquity eye4 = [0; 0; 0].
Proof.
  unfold obliquity. rewrite voxel_sizes_eye4.
  unfold eye4, list_max. simpl.
  replace (1 / 1) with 1 by field.
  replace (0 / 1) with 0 by field.
  rewrite Rabs_R0, Rabs_R1.
  rewrite (Rmax_left 1 0) by lra.
  rewrite (Rmax_right 0 1) by lra.
  rewrite (Rmax_left 1 0) by lra.
  rewrite (Rmax_left 0 0) by lra.
  rewrite (Rmax_right 0 1) by lra.
  now rewrite acos_1.
Qed.

(** C2.  [_is_oblique(affine)] is true if and only if the smallest
    obliquity angle, in degrees, exceeds 0.01; it is false of the identity;
    and it is the same for two affines that have the same rotation block. *)
Theorem is_oblique_threshold (affine : matrix) :
  (_is_oblique_default affine = true
   <-> 1 / 100 < list_min (obliquity affine) * 180 / PI)
  /\ _is_oblique_default eye4 = false
  /\ (forall affine',
        map (@removelast R) (removelast affine')
        = map (@removelast R) (removelast affine) ->
        _is_oblique_default affine' = _is_oblique_default affine).
Proof.
  unfold _is_oblique_default, _is_oblique, OBLIQUITY_THRESHOLD_DEG.
  split; [|split].
  - destruct (Rlt_dec (1 / 100) (list_min (obliquity affine) * 180 / PI));
      split; auto; discriminate.
  - rewrite obliquity_eye4. simpl.
    unfold list_min; simpl. rewrite !(Rmin_left 0 0) by lra.
    destruct (Rlt_dec (1 / 100) (0 * 180 / PI)) as [Hlt|]; [|reflexivity].
    exfalso. unfold Rdiv in Hlt. rewrite !Rmult_0_l in Hlt. lra.
  - intros affine' Heq. unfold obliquity, voxel_sizes. now rewrite Heq.
Qed.

(** ** Inverses *)

Lemma dot4_div (a b c e x y z w d : R) :
  d <> 0 ->
  a * (x / d) + (b * (y / d) + (c * (z / d) + (e * (w / d) + 0)))
  = (a * x + b * y + c * z + e * w) / d.
Proof. intros Hd. field. exact Hd. Qed.

Lemma dot4_div_l (a b c e x y z w d : R) :
  d <> 0 ->
  x / d * a + (y / d * b + (z / d * c + (w / d * e + 0)))
  = (a * x + b * y + c * z + e * w) / d.
Proof. intros Hd. field. exact Hd. Qed.

Lemma div_eq_1 (n d : R) : d <> 0 -> n = d -> n / d = 1.
Proof. intros Hd ->. now field. Qed.

Lemma div_eq_0 (n d : R) : d <> 0 -> n = 0 -> n / d = 0.
Proof. intros Hd ->. now field. Qed.

Ltac cofactor_ring :=
  unfold cofactor, det, minor, drop_nth, rsum; simpl; ring.

(** The cofactor formula inverts every 4x4 matrix of non-zero
    determinant, on both sides. *)
Lemma inv_4x4 (M : matrix) :
  is4x4 M ->
  det 4 M <> 0 ->
  exists M', inv M = Ok M' /\ is4x4 M' /\ M @@ M' = eye4 /\ M' @@ M = eye4.
Proof.
  intros H4 Hdet.
  destruct (is4x4_inv H4)
    as (a00 & a01 & a02 & a03 & a10 & a11 & a12 & a13
        & a20 & a21 & a22 & a23 & a30 & a31 & a32 & a33 & ->).
  set (M := [[a00; a01; a02; a03]; [a10; a11; a12; a13];
             [a20; a21; a22; a23]; [a30; a31; a32; a33]]) in *.
  unfold inv. change (length M) with 4%nat.
  destruct (Req_dec_T (det 4 M) 0) as [E|_]; [contradiction|].
  eexists; split; [reflexivity|].
  split; [split; [reflexivity | repeat constructor]|].
  set (d := det 4 M) in *.
  unfold matmul, transpose, column, ncols, dot, rsum, eye4.
  cbn [map seq nth hd length zip_with fold_right M].
  split.
  - rewrite !(dot4_div _ _ _ _ _ _ _ _ Hdet).
    list_eq;
      first [ apply (div_eq_1 Hdet); unfold d, M; cofactor_ring
            | apply (div_eq_0 Hdet); unfold d, M; cofactor_ring ].
  - rewrite !(dot4_div_l _ _ _ _ _ _ _ _ Hdet).
    list_eq;
      first [ apply (div_eq_1 Hdet); unfold d, M; cofactor_ring
            | apply (div_eq_0 Hdet); unfold d, M; cofactor_ring ].
Qed.

(** ** Products of 4x4 matrices *)

Lemma matmul_4x4
  (a00 a01 a02 a03 a10 a11 a12 a13 a20 a21 a22 a23 a30 a31 a32 a33
   b00 b01 b02 b03 b10 b11 b12 b13 b20 b21 b22 b23 b30 b31 b32 b33 : R) :
  [[a00; a01; a02; a03]; [a10; a11; a12; a13];
   [a20; a21; a22; a23]; [a30; a31; a32; a33]]
  @@ [[b00; b01; b02; b03]; [b10; b11; b12; b13];
      [b20; b21; b22; b23]; [b30; b31; b32; b33]]
  = [[a00 * b00 + a01 * b10 + a02 * b20 + a03 * b30;
      a00 * b01 + a01 * b11 + a02 * b21 + a03 * b31;
      a00 * b02 + a01 * b12 + a02 * b22 + a03 * b32;
      a00 * b03 + a01 * b13 + a02 * b23 + a03 * b33];
     [a10 * b00 + a11 * b10 + a12 * b20 + a13 * b30;
      a10 * b01 + a11 * b11 + a12 * b21 + a13 * b31;
      a10 * b02 + a11 * b12 + a12 * b22 + a13 * b32;
      a10 * b03 + a11 * b13 + a12 * b23 + a13 * b33];
     [a20 * b00 + a21 * b10 + a22 * b20 + a23 * b30;
      a20 * b01 + a21 * b11 + a22 * b21 + a23 * b31;
      a20 * b02 + a21 * b12 + a22 * b22 + a23 * b32;
      a20 * b03 + a21 * b13 + a22 * b23 + a23 * b33];
     [a30 * b00 + a31 * b10 + a32 * b20 + a33 * b30;
      a30 * b01 + a31 * b11 + a32 * b21 + a33 * b31;
      a30 * b02 + a31 * b12 + a32 * b22 + a33 * b32;
      a30 * b03 + a31 * b13 + a32 * b23 + a33 * b33]].
Proof. matrix_ring. Qed.

Lemma is4x4_matmul (A B : matrix) : is4x4 A -> is4x4 B -> is4x4 (A @@ B).
Proof.
  intros HA HB.
  destruct (is4x4_inv HA)
    as (a00 & a01 & a02 & a03 & a10 & a11 & a12 & a13
        & a20 & a21 & a22 & a23 & a30 & a31 & a32 & a33 & ->).
  destruct (is4x4_inv HB)
    as (b00 & b01 & b02 & b03 & b10 & b11 & b12 & b13
        & b20 & b21 & b22 & b23 & b30 & b31 & b32 & b33 & ->).
  rewrite matmul_4x4. split; [reflexivity | repeat constructor].
Qed.

Lemma matmul_assoc_4x4 (A B C : matrix) :
  is4x4 A -> is4x4 B -> is4x4 C -> A @@ B @@ C = A @@ (B @@ C).
Proof.
  intros HA HB HC.
  destruct (is4x4_inv HA)
    as (a00 & a01 & a02 & a03 & a10 & a11 & a12 & a13
        & a20 & a21 & a22 & a23 & a30 & a31 & a32 & a33 & ->).
  destruct (is4x4_inv HB)
    as (b00 & b01 & b02 & b03 & b10 & b11 & b12 & b13
        & b20 & b21 & b22 & b23 & b30 & b31 & b32 & b33 & ->).
  destruct (is4x4_inv HC)
    as (c00 & c01 & c02 & c03 & c10 & c11 & c12 & c13
        & c20 & c21 & c22 & c23 & c30 & c31 & c32 & c33 & ->).
  rewrite !matmul_4x4. list_eq; ring.
Qed.

Lemma matmul_eye4_r (A : matrix) : is4x4 A -> A @@ eye4 = A.
Proof.
  intros HA.
  destruct (is4x4_inv HA)
    as (a00 & a01 & a02 & a03 & a10 & a11 & a12 & a13
        & a20 & a21 & a22 & a23 & a30 & a31 & a32 & a33 & ->).
  unfold eye4. rewrite matmul_4x4. list_eq; ring.
Qed.

Lemma is4x4_LPS : is4x4 LPS.
Proof. split; [reflexivity | repeat constructor]. Qed.

Lemma inv_singular (M : matrix) :
  is4x4 M -> det 4 M = 0 -> inv M = Raise LinAlgError.
Proof.
  intros [Hlen _] Hd. unfold inv. rewrite Hlen.
  destruct (Req_dec_T (det 4 M) 0); [reflexivity | contradiction].
Qed.

(** ** The plumb affine *)

Lemma plumb_item_minor (a m v : R) : Rabs a < m -> plumb_item a m v = 0.
Proof.
  intros Ham. unfold plumb_item.
  assert (0 < m) as Hm by (pose proof (Rabs_pos a); lra).
  destruct (Rlt_dec (Rabs (a / m)) 1) as [_|Hn]; [ring|].
  exfalso. apply Hn. unfold Rdiv.
  rewrite Rabs_mult, (Rabs_pos_eq (/ m)).
  - apply (Rmult_lt_reg_r m); [exact Hm|]. field_simplify; lra.
  - left. now apply Rinv_0_lt_compat.
Qed.

Lemma plumb_item_dominant (a m v : R) :
  Rabs a = m -> 0 <= v -> (m = 0 -> v = 0) ->
  Rabs (plumb_item a m v) = v.
Proof.
  intros Ham Hv Hmv. unfold plumb_item.
  destruct (Req_dec_T m 0) as [Hm0|Hm0].
  - rewrite (Hmv Hm0).
    destruct (Rlt_dec (Rabs (a / m)) 1); rewrite Rmult_0_r; apply Rabs_R0.
  - assert (0 < m) as Hm by (pose proof (Rabs_pos a); lra).
    assert (Rabs (a / m) = 1) as H1.
    { unfold Rdiv. rewrite Rabs_mult, (Rabs_pos_eq (/ m)), Ham.
      - now field.
      - left. now apply Rinv_0_lt_compat. }
    destruct (Rlt_dec (Rabs (a / m)) 1) as [Hlt|_]; [lra|].
    rewrite Rabs_mult, H1, (Rabs_pos_eq v Hv). ring.
Qed.

Lemma max3_zero (a b c : R) : max3 a b c = 0 -> norm3 a b c = 0.
Proof.
  unfold max3, norm3. intros Hm.
  pose proof (Rabs_pos a). pose proof (Rabs_pos b). pose proof (Rabs_pos c).
  pose proof (Rmax_l (Rmax (Rabs a) (Rabs b)) (Rabs c)).
  pose proof (Rmax_r (Rmax (Rabs a) (Rabs b)) (Rabs c)).
  pose proof (Rmax_l (Rabs a) (Rabs b)).
  pose proof (Rmax_r (Rabs a) (Rabs b)).
  assert (a = 0) as -> by (destruct (Req_dec_T a 0); auto;
                           pose proof (Rabs_pos_lt a); lra).
  assert (b = 0) as -> by (destruct (Req_dec_T b 0); auto;
                           pose proof (Rabs_pos_lt b); lra).
  assert (c = 0) as -> by (destruct (Req_dec_T c 0); auto;
                           pose proof (Rabs_pos_lt c); lra).
  replace (0 * 0 + (0 * 0 + (0 * 0 + 0))) with 0 by ring. apply sqrt_0.
Qed.

(** The plumb affine of a 4x4 affine, item by item. *)
Lemma plumb_affine_4x4
  (a00 a01 a02 a03 a10 a11 a12 a13 a20 a21 a22 a23 a30 a31 a32 a33 : R)
  (s0 s1 s2 : nat) (more : list nat) :
  let A := [[a00; a01; a02; a03]; [a10; a11; a12; a13];
            [a20; a21; a22; a23]; [a30; a31; a32; a33]] in
  let m0 := max3 a00 a10 a20 in
  let m1 := max3 a01 a11 a21 in
  let m2 := max3 a02 a12 a22 in
  let v0 := norm3 a00 a10 a20 in
  let v1 := norm3 a01 a11 a21 in
  let v2 := norm3 a02 a12 a22 in
  exists t0 t1 t2,
    plumb_affine A (s0 :: s1 :: s2 :: more)
    = [[plumb_item a00 m0 v0; plumb_item a01 m1 v1; plumb_item a02 m2 v2; t0];
       [plumb_item a10 m0 v0; plumb_item a11 m1 v1; plumb_item a12 m2 v2; t1];
       [plumb_item a20 m0 v0; plumb_item a21 m1 v1; plumb_item a22 m2 v2; t2];
       [0; 0; 0; 1]]
    /\ voxel_sizes A = [v0; v1; v2]
    /\ (a30 = 0 -> a31 = 0 -> a32 = 0 -> a33 = 1 ->
        matvec (plumb_affine A (s0 :: s1 :: s2 :: more))
          (grid_center (s0 :: s1 :: s2 :: more))
        = matvec A (grid_center (s0 :: s1 :: s2 :: more))).
Proof.
  intros A m0 m1 m2 v0 v1 v2.
  do 3 eexists. split; [reflexivity|]. split; [reflexivity|].
  intros -> -> -> ->.
  unfold plumb_affine, plumb_rotation, set_translation, set_top_left,
    grid_center, voxel_sizes, matvec, transpose, column, ncols, dot, rsum,
    eye4, A.
  simpl. list_eq; ring.
Qed.
Lemma det_4x4
  (a00 a01 a02 a03 a10 a11 a12 a13 a20 a21 a22 a23 a30 a31 a32 a33 : R) :
  det 4 [[a00; a01; a02; a03]; [a10; a11; a12; a13];
         [a20; a21; a22; a23]; [a30; a31; a32; a33]]
  = a00 * (a11 * (a22 * a33 - a23 * a32) - a12 * (a21 * a33 - a23 * a31)
           + a13 * (a21 * a32 - a22 * a31))
    - a01 * (a10 * (a22 * a33 - a23 * a32) - a12 * (a20 * a33 - a23 * a30)
             + a13 * (a20 * a32 - a22 * a30))
    + a02 * (a10 * (a21 * a33 - a23 * a31) - a11 * (a20 * a33 - a23 * a30)
             + a13 * (a20 * a31 - a21 * a30))
    - a03 * (a10 * (a21 * a32 - a22 * a31) - a11 * (a20 * a32 - a22 * a30)
             + a12 * (a20 * a31 - a21 * a30)).
Proof. unfold det, minor, drop_nth, rsum. simpl. ring. Qed.

Lemma det_matmul_4x4 (A B : matrix) :
  is4x4 A -> is4x4 B -> det 4 (A @@ B) = det 4 A * det 4 B.
Proof.
  intros HA HB.
  destruct (is4x4_inv HA)
    as (a00 & a01 & a02 & a03 & a10 & a11 & a12 & a13
        & a20 & a21 & a22 & a23 & a30 & a31 & a32 & a33 & ->).
  destruct (is4x4_inv HB)
    as (b00 & b01 & b02 & b03 & b10 & b11 & b12 & b13
        & b20 & b21 & b22 & b23 & b30 & b31 & b32 & b33 & ->).
  rewrite matmul_4x4, !det_4x4. ring.
Qed.

Lemma det_eye4 : det 4 eye4 = 1.
Proof. unfold eye4. rewrite det_4x4. ring. Qed.

Lemma det_LPS : det 4 LPS = 1.
Proof. unfold LPS. rewrite det_4x4. ring. Qed.

Lemma det_lps_conjugation (M : matrix) :
  is4x4 M -> det 4 (LPS @@ M @@ LPS) = det 4 M.
Proof.
  intros HM.
  rewrite !det_matmul_4x4, det_LPS; auto using is4x4_LPS, is4x4_matmul.
  ring.
Qed.

(** [forward=False]: the inverse of the forward matrix when the plumb affine
    can be inverted, [LinAlgError] when it cannot. *)
Lemma afni_warpdrive_backward (oblique : matrix) (shape : list nat)
  (ras : bool) :
  is4x4 oblique -> det 4 oblique <> 0 -> is4x4 (plumb_affine oblique shape) ->
  (det 4 (plumb_affine oblique shape) <> 0 ->
   exists Rf Ri,
     _afni_warpdrive oblique shape true ras = Ok Rf
     /\ _afni_warpdrive oblique shape false ras = Ok Ri
     /\ Rf @@ Ri = eye4 /\ Ri @@ Rf = eye4)
  /\ (det 4 (plumb_affine oblique shape) = 0 ->
      _afni_warpdrive oblique shape false ras = Raise LinAlgError).
Proof.
  intros H4 Hdet H4p.
  destruct (inv_4x4 H4 Hdet) as (A' & HinvA & H4A' & HAA' & HA'A).
  set (plumb := plumb_affine oblique shape) in *.
  set (R0 := plumb @@ A').
  set (Rf := if negb ras then LPS @@ R0 @@ LPS else R0).
  assert (is4x4 R0) as H4R0 by now apply is4x4_matmul.
  assert (is4x4 Rf) as H4Rf.
  { unfold Rf. destruct ras; cbn [negb];
      auto using is4x4_matmul, is4x4_LPS. }
  assert (det 4 Rf = det 4 plumb * det 4 A') as HdetRf.
  { unfold Rf. destruct ras; cbn [negb].
    - unfold R0. now apply det_matmul_4x4.
    - rewrite det_lps_conjugation by assumption.
      unfold R0. now apply det_matmul_4x4. }
  assert (det 4 A' <> 0) as HdetA'.
  { intros E. pose proof (det_matmul_4x4 H4 H4A') as Hm.
    rewrite HAA', det_eye4, E in Hm. lra. }
  assert (forall forward,
             _afni_warpdrive oblique shape forward ras
             = if forward then Ok Rf else inv Rf) as Hw.
  { intros forward. unfold _afni_warpdrive. fold plumb.
    rewrite HinvA. reflexivity. }
  split.
  - intros Hpl.
    assert (det 4 Rf <> 0) as HRf.
    { rewrite HdetRf. now apply Rmult_integral_contrapositive_currified. }
    destruct (inv_4x4 H4Rf HRf) as (Ri & Hinv & _ & Hl & Hr).
    exists Rf, Ri. rewrite !Hw. auto.
  - intros Hpl. rewrite Hw. apply inv_singular; [exact H4Rf|].
    rewrite HdetRf, Hpl. ring.
Qed.

(** An item that is the largest of its column, in absolute value, is
    kept with its sign: it becomes its sign times the voxel size. *)
Lemma plumb_item_kept (a m v : R) :
  Rabs a = m -> m <> 0 -> plumb_item a m v = a / Rabs a * v.
Proof.
  intros Hm Hm0. unfold plumb_item. rewrite <- Hm in *.
  assert (Rabs (a / Rabs a) = 1) as ->.
  { unfold Rdiv. rewrite Rabs_mult, Rabs_inv, Rabs_Rabsolu.
    now apply Rinv_r. }
  destruct (Rlt_dec 1 1) as [Hlt|_]; [lra | reflexivity].
Qed.

(** No column of the rotation part of an invertible affine is zero. *)
Lemma column_max_pos
  (a00 a01 a02 a03 a10 a11 a12 a13 a20 a21 a22 a23 : R) :
  det 4 [[a00; a01; a02; a03]; [a10; a11; a12; a13];
         [a20; a21; a22; a23]; [0; 0; 0; 1]] <> 0 ->
  0 < max3 a00 a10 a20 /\ 0 < max3 a01 a11 a21 /\ 0 < max3 a02 a12 a22.
Proof.
  intros Hdet. rewrite det_4x4 in Hdet.
  assert (forall a b c, max3 a b c <= 0 -> a = 0 /\ b = 0 /\ c = 0) as Hz.
  { intros a b c Hle. unfold max3 in Hle.
    pose proof (Rabs_pos a). pose proof (Rabs_pos b). pose proof (Rabs_pos c).
    pose proof (Rmax_l (Rmax (Rabs a) (Rabs b)) (Rabs c)).
    pose proof (Rmax_r (Rmax (Rabs a) (Rabs b)) (Rabs c)).
    pose proof (Rmax_l (Rabs a) (Rabs b)).
    pose proof (Rmax_r (Rabs a) (Rabs b)).
    repeat split;
      match goal with
      | |- ?x = 0 =>
          destruct (Req_dec_T x 0) as [E|E]; [exact E|];
          pose proof (Rabs_pos_lt x E); lra
      end. }
  repeat split;
    match goal with
    | |- 0 < max3 ?a ?b ?c =>
        destruct (Rlt_dec 0 (max3 a b c)) as [Hp|Hn]; [exact Hp|];
        exfalso; destruct (Hz a b c) as (-> & -> & ->); [lra|];
        apply Hdet; ring
    end.
Qed.

(** A singular matrix has no inverse. *)
Lemma singular_no_inverse (M N : matrix) :
  is4x4 M -> is4x4 N -> det 4 M = 0 -> M @@ N <> eye4.
Proof.
  intros HM HN Hd E.
  pose proof (det_matmul_4x4 HM HN) as Hp.
  rewrite E, det_eye4, Hd in Hp. lra.
Qed.

(** A row of the rotation part that holds no largest item of a column is
    zeroed in the plumb affine, which is then singular: that row and the
    bottom row are both zero outside the last column. *)
Lemma plumb_affine_zeroed_row (oblique : matrix) (shape : list nat)
  (i : nat) :
  is4x4 oblique -> (3 <= length shape)%nat -> (i < 3)%nat ->
  (forall j, (j < 3)%nat ->
     Rabs (nth j (nth i oblique []) 0)
     < list_max (map Rabs (column j (firstn 3 oblique)))) ->
  (forall j, (j < 3)%nat ->
     nth j (nth i (plumb_affine oblique shape) []) 0 = 0)
  /\ det 4 (plumb_affine oblique shape) = 0.
Proof.
  intros H4 Hshape Hi Hrow.
  destruct shape as [|s0 [|s1 [|s2 more]]]; try (simpl in Hshape; lia).
  destruct (is4x4_inv H4)
    as (a00 & a01 & a02 & a03 & a10 & a11 & a12 & a13
        & a20 & a21 & a22 & a23 & a30 & a31 & a32 & a33 & ->).
  destruct (plumb_affine_4x4 a00 a01 a02 a03 a10 a11 a12 a13
              a20 a21 a22 a23 a30 a31 a32 a33 s0 s1 s2 more)
    as (t0 & t1 & t2 & -> & _ & _).
  pose proof (Hrow 0%nat ltac:(lia)) as R0.
  pose proof (Hrow 1%nat ltac:(lia)) as R1.
  pose proof (Hrow 2%nat ltac:(lia)) as R2.
  unfold column, list_max in R0, R1, R2.
  cbn [nth map firstn fold_left] in R0, R1, R2.
  fold (max3 a00 a10 a20) in R0. fold (max3 a01 a11 a21) in R1.
  fold (max3 a02 a12 a22) in R2.
  destruct i as [|[|[|i]]]; try lia; cbn [nth] in R0, R1, R2;
    rewrite (fun v => @plumb_item_minor _ _ v R0),
      (fun v => @plumb_item_minor _ _ v R1),
      (fun v => @plumb_item_minor _ _ v R2);
    (split;
     [ intros j Hj; destruct j as [|[|[|j]]]; try lia; reflexivity
     | rewrite det_4x4; ring ]).
Qed.

(** C8 (amended).  For every 4x4 affine [oblique] with bottom row
    [0, 0, 0, 1] and non-zero determinant, and every grid shape, the plumb
    affine that [_afni_warpdrive] builds is an affine; in each of its three
    columns the items of [oblique] that are smaller, in absolute value, than
    the largest of the column are zeroed, and the others are kept with
    their sign and given the voxel size of the column as absolute value:
    such an item [a] becomes [a / |a|] times the voxel size; it sends the
    center of the grid where [oblique] sends it.  With [forward=True] and
    [ras=True] the matrix returned is the one that, multiplied by [oblique]
    on the right, gives the plumb affine; with [ras=False] it is that
    matrix conjugated by [LPS].  With [forward=False] the inverse of the
    forward matrix is returned when the plumb affine has non-zero
    determinant.  When it has not, the forward matrix has no inverse; and
    [LinAlgError] is raised when a row of the rotation part of [oblique]
    holds no largest item of a column, which is then a row of zeros of the
    plumb affine. *)
Theorem afni_warpdrive_plumb (oblique : matrix) (shape : list nat) :
  is4x4 oblique -> affine_bottom_row oblique -> det 4 oblique <> 0 ->
  (3 <= length shape)%nat ->
  let plumb := plumb_affine oblique shape in
  is4x4 plumb /\ affine_bottom_row plumb
  /\ (forall i j, (i < 3)%nat -> (j < 3)%nat ->
        let a := nth j (nth i oblique []) 0 in
        let m := list_max (map Rabs (column j (firstn 3 oblique))) in
        let v := nth j (voxel_sizes oblique) 0 in
        0 < m
        /\ (Rabs a < m -> nth j (nth i plumb []) 0 = 0)
        /\ (Rabs a = m ->
            nth j (nth i plumb []) 0 = a / Rabs a * v
            /\ Rabs (nth j (nth i plumb []) 0) = v))
  /\ matvec plumb (grid_center shape) = matvec oblique (grid_center shape)
  /\ (exists R0,
        _afni_warpdrive oblique shape true true = Ok R0
        /\ R0 @@ oblique = plumb
        /\ _afni_warpdrive oblique shape true false = Ok (LPS @@ R0 @@ LPS))
  /\ (forall ras,
        (det 4 plumb <> 0 ->
         exists Rf Ri,
           _afni_warpdrive oblique shape true ras = Ok Rf
           /\ _afni_warpdrive oblique shape false ras = Ok Ri
           /\ Rf @@ Ri = eye4 /\ Ri @@ Rf = eye4)
        /\ (det 4 plumb = 0 ->
            exists Rf,
              _afni_warpdrive oblique shape true ras = Ok Rf
              /\ forall Ri, is4x4 Ri -> Rf @@ Ri <> eye4)
        /\ (forall i, (i < 3)%nat ->
              (forall j, (j < 3)%nat ->
                 Rabs (nth j (nth i oblique []) 0)
                 < list_max (map Rabs (column j (firstn 3 oblique)))) ->
              (forall j, (j < 3)%nat -> nth j (nth i plumb []) 0 = 0)
              /\ det 4 plumb = 0
              /\ _afni_warpdrive oblique shape false ras
                 = Raise LinAlgError)).
Proof.
  intros H4 Hbottom Hdet Hshape plumb.
  destruct (inv_4x4 H4 Hdet) as (A' & HinvA & H4A' & HAA' & HA'A).
  assert (forall i, (i < 3)%nat ->
            (forall j, (j < 3)%nat ->
               Rabs (nth j (nth i oblique []) 0)
               < list_max (map Rabs (column j (firstn 3 oblique)))) ->
            (forall j, (j < 3)%nat -> nth j (nth i plumb []) 0 = 0)
            /\ det 4 plumb = 0) as Hzeroed.
  { intros i Hi Hrow. now apply plumb_affine_zeroed_row. }
  destruct shape as [|s0 [|s1 [|s2 more]]]; try (simpl in Hshape; lia).
  destruct (is4x4_inv H4)
    as (a00 & a01 & a02 & a03 & a10 & a11 & a12 & a13
        & a20 & a21 & a22 & a23 & a30 & a31 & a32 & a33 & HA).
  destruct (plumb_affine_4x4 a00 a01 a02 a03 a10 a11 a12 a13
              a20 a21 a22 a23 a30 a31 a32 a33 s0 s1 s2 more)
    as (t0 & t1 & t2 & Hp & Hvs & Hcenter).
  rewrite <- HA in Hp, Hvs, Hcenter. fold plumb in Hp, Hcenter.
  assert (a30 = 0 /\ a31 = 0 /\ a32 = 0 /\ a33 = 1) as (E0 & E1 & E2 & E3).
  { unfold affine_bottom_row in Hbottom. rewrite HA in Hbottom.
    simpl in Hbottom. now injection Hbottom as -> -> -> ->. }
  assert (0 < max3 a00 a10 a20 /\ 0 < max3 a01 a11 a21
          /\ 0 < max3 a02 a12 a22) as (Hm0 & Hm1 & Hm2).
  { apply (@column_max_pos a00 a01 a02 a03 a10 a11 a12 a13 a20 a21 a22 a23).
    rewrite HA, E0, E1, E2, E3 in Hdet. exact Hdet. }
  assert (is4x4 plumb) as H4p.
  { rewrite Hp. split; [reflexivity | repeat constructor]. }
  split; [exact H4p|]. split; [rewrite Hp; reflexivity|].
  split; [|split; [|split]].
  - intros i j Hi Hj a m v. subst a m v.
    rewrite Hp, Hvs, HA.
    destruct i as [|[|[|i]]]; try lia;
      destruct j as [|[|[|j]]]; try lia;
      unfold column, list_max; cbn [nth map firstn fold_left];
      fold (max3 a00 a10 a20); fold (max3 a01 a11 a21);
      fold (max3 a02 a12 a22);
      (split; [assumption|]);
      (split;
       [ apply plumb_item_minor
       | intros Hm; split;
         [ apply plumb_item_kept; [exact Hm | lra]
         | apply plumb_item_dominant;
           [ exact Hm | apply sqrt_pos | apply max3_zero ] ] ]).
  - now apply Hcenter.
  - exists (plumb @@ A'). unfold _afni_warpdrive. fold plumb.
    rewrite HinvA. simpl. repeat split.
    rewrite matmul_assoc_4x4, HA'A by assumption.
    now apply matmul_eye4_r.
  - intros ras.
    destruct (@afni_warpdrive_backward oblique (s0 :: s1 :: s2 :: more) ras
                H4 Hdet H4p) as [Hinv Hsing].
    split; [exact Hinv|]. split.
    + intros Hd.
      set (R0 := plumb @@ A').
      assert (is4x4 R0) as H4R0 by now apply is4x4_matmul.
      assert (det 4 R0 = 0) as HdR0.
      { unfold R0. rewrite det_matmul_4x4 by assumption.
        fold plumb in Hd. rewrite Hd. ring. }
      exists (if ras then R0 else LPS @@ R0 @@ LPS). split.
      * unfold _afni_warpdrive. fold plumb. rewrite HinvA.
        destruct ras; reflexivity.
      * intros Ri HRi. apply singular_no_inverse; [|exact HRi|].
        -- destruct ras; auto using is4x4_matmul, is4x4_LPS.
        -- destruct ras; [exact HdR0|].
           now rewrite det_lps_conjugation.
    + intros i Hi Hrow. destruct (Hzeroed i Hi Hrow) as [Hz Hd].
      split; [exact Hz|]. split; [exact Hd|]. now apply Hsing.
Qed.

(** ** A sheared affine *)

(** Below four fifths, the angle of a cosine is above the threshold. *)
Lemma acos_above_threshold (x : R) :
  -1 <= x <= 4 / 5 -> 1 / 100 < acos x * 180 / PI.
Proof.
  intros Hx.
  pose proof PI_RGT_0 as Hpi0. pose proof PI_4 as Hpi4.
  destruct (acos_bound x) as [Hy0 HyPI].
  destruct (Rlt_dec (1 / 100) (acos x * 180 / PI)) as [H|H]; [exact H|].
  exfalso.
  set (t := PI / 18000).
  assert (acos x <= t) as Hyt.
  { unfold t. apply Rnot_lt_le in H.
    apply (Rmult_le_reg_r (180 / PI)).
    - apply Rdiv_lt_0_compat; lra.
    - replace (PI / 18000 * (180 / PI)) with (1 / 100) by (field; lra).
      replace (acos x * (180 / PI)) with (acos x * 180 / PI) by (field; lra).
      exact H. }
  assert (0 <= t <= 4 / 18000) as Ht.
  { unfold t. split; lra. }
  assert (t <= PI) as HtPI by (unfold t; lra).
  clearbody t.
  assert (cos t <= cos (acos x)) as Hcos.
  { apply cos_decr_1; lra. }
  rewrite cos_acos in Hcos by lra.
  destruct (pre_cos_bound t 0) as [Hlow _]; [lra | lra |].
  unfold cos_approx, cos_term in Hlow. simpl in Hlow.
  assert (t * t <= 1 / 100) as Htt by nra.
  lra.
Qed.

Lemma sqrt_25 : sqrt 25 = 5.
Proof. replace 25 with (5 * 5) by ring. apply sqrt_square. lra. Qed.

Lemma voxel_sizes_sheared : voxel_sizes AffineSamples.sheared = [5; 5; 5].
Proof.
  unfold voxel_sizes, AffineSamples.sheared, transpose, column, ncols, rsum.
  simpl.
  replace (4 * 4 + (3 * 3 + (0 * 0 + 0))) with 25 by ring.
  replace (4 * 4 + (0 * 0 + (3 * 3 + 0))) with 25 by ring.
  replace (0 * 0 + (3 * 3 + (4 * 4 + 0))) with 25 by ring.
  now rewrite sqrt_25.
Qed.

Lemma Rabs_quotient_le (a : R) : 0 <= a <= 4 -> -1 <= Rabs (a / 5) <= 4 / 5.
Proof.
  intros Ha. rewrite Rabs_pos_eq; lra.
Qed.

Lemma is_oblique_sheared : _is_oblique_default AffineSamples.sheared = true.
Proof.
  unfold _is_oblique_default, _is_oblique, OBLIQUITY_THRESHOLD_DEG.
  destruct (Rlt_dec _ _) as [_|Hn]; [reflexivity|].
  exfalso. apply Hn. clear Hn.
  unfold obliquity. rewrite voxel_sizes_sheared.
  unfold AffineSamples.sheared, list_max, list_min. simpl.
  assert (forall a b c,
             0 <= a <= 4 -> 0 <= b <= 4 -> 0 <= c <= 4 ->
             -1 <= Rmax (Rmax (Rabs (a / 5)) (Rabs (b / 5))) (Rabs (c / 5))
             <= 4 / 5) as Hmax.
  { intros a b c Ha Hb Hc.
    pose proof (Rabs_quotient_le Ha). pose proof (Rabs_quotient_le Hb).
    pose proof (Rabs_quotient_le Hc).
    split.
    - apply Rle_trans with (Rabs (c / 5)); [lra | apply Rmax_r].
    - repeat apply Rmax_lub; lra. }
  repeat apply Rmin_case; apply acos_above_threshold; apply Hmax; lra.
Qed.

Lemma max3_sheared :
  max3 4 3 0 = 4 /\ max3 4 0 3 = 4 /\ max3 0 3 4 = 4.
Proof.
  unfold max3.
  rewrite Rabs_R0, (Rabs_pos_eq 4), (Rabs_pos_eq 3) by lra.
  repeat split;
    repeat first [ rewrite (Rmax_left 4 3) by lra
                 | rewrite (Rmax_left 4 0) by lra
                 | rewrite (Rmax_right 0 3) by lra
                 | rewrite (Rmax_right 3 4) by lra ];
    reflexivity.
Qed.

(** The plumb affine of the sheared sample has no item in its second row
    but the translation. *)
Lemma plumb_affine_sheared :
  is4x4 (plumb_affine AffineSamples.sheared AffineSamples.grid)
  /\ det 4 (plumb_affine AffineSamples.sheared AffineSamples.grid) = 0.
Proof.
  destruct (plumb_affine_4x4 4 4 0 0 3 0 3 0 0 3 4 0 0 0 0 1 2 2 2 [])
    as (t0 & t1 & t2 & Hp & _ & _).
  unfold AffineSamples.sheared, AffineSamples.grid. rewrite Hp.
  split; [split; [reflexivity | repeat constructor]|].
  destruct max3_sheared as (-> & -> & ->).
  rewrite (plumb_item_minor 3 (norm3 4 3 0)) by (rewrite Rabs_pos_eq; lra).
  rewrite (plumb_item_minor 0 (norm3 4 0 3)) by (rewrite Rabs_R0; lra).
  rewrite (plumb_item_minor 3 (norm3 0 3 4)) by (rewrite Rabs_pos_eq; lra).
  rewrite det_4x4. ring.
Qed.

Lemma is4x4_sheared : is4x4 AffineSamples.sheared.
Proof. split; [reflexivity | repeat constructor]. Qed.

Lemma det_sheared : det 4 AffineSamples.sheared <> 0.
Proof. unfold AffineSamples.sheared. rewrite det_4x4. lra. Qed.

(** C8: the sheared sample is an invertible oblique affine, the forward
    matrix exists, and [forward=False] raises [LinAlgError] in either sign
    convention: no inverse of the forward matrix is returned. *)
Lemma sheared_affine_backward_raises :
  is4x4 AffineSamples.sheared
  /\ affine_bottom_row AffineSamples.sheared
  /\ det 4 AffineSamples.sheared <> 0
  /\ _is_oblique_default AffineSamples.sheared = true
  /\ (forall ras,
        succeeds
          (_afni_warpdrive AffineSamples.sheared AffineSamples.grid true ras)
        /\ _afni_warpdrive AffineSamples.sheared AffineSamples.grid false ras
           = Raise LinAlgError).
Proof.
  split; [exact is4x4_sheared|]. split; [reflexivity|].
  split; [exact det_sheared|]. split; [exact is_oblique_sheared|].
  intros ras. destruct plumb_affine_sheared as [H4p Hdp].
  split.
  - destruct (inv_4x4 is4x4_sheared det_sheared) as (A' & HinvA & _).
    unfold _afni_warpdrive. rewrite HinvA. simpl. eexists; reflexivity.
  - now apply afni_warpdrive_backward;
      auto using is4x4_sheared, det_sheared.
Qed.

Lemma is4x4_rotated : is4x4 AffineSamples.rotated.
Proof. split; [reflexivity | repeat constructor]. Qed.

Lemma det_rotated : det 4 AffineSamples.rotated <> 0.
Proof. unfold AffineSamples.rotated. rewrite det_4x4. lra. Qed.

(** C8, at the rotated sample: the plumb affine sends the center of the
    grid where the sample sends it. *)
Lemma afni_warpdrive_plumb_witness :
  matvec (plumb_affine AffineSamples.rotated AffineSamples.grid)
    (grid_center AffineSamples.grid)
  = matvec AffineSamples.rotated (grid_center AffineSamples.grid).
Proof.
  refine (proj1 (proj2 (proj2 (proj2
            (@afni_warpdrive_plumb AffineSamples.rotated AffineSamples.grid
               is4x4_rotated _ det_rotated _))))).
  - reflexivity.
  - simpl. lia.
Defined.

(** ** Tokens and lines *)

Lemma islinebreak_isspace (c : ascii) :
  islinebreak c = true -> isspace c = true.
Proof.
  unfold islinebreak, isspace.
  rewrite !orb_true_iff, !andb_true_iff, !N.leb_le, !N.eqb_eq. lia.
Qed.

Lemma token_char_facts (c : ascii) :
  token_char c = true ->
  isspace c = false /\ islinebreak c = false /\ c <> "#"%char
  /\ (code c < 128)%N.
Proof.
  unfold token_char. rewrite !andb_true_iff, !negb_true_iff, N.ltb_lt.
  intros [[Hs Hh] Hc]. repeat split; auto.
  - destruct (islinebreak c) eqn:E; auto.
    apply islinebreak_isspace in E. congruence.
  - intros ->. discriminate Hh.
Qed.

Lemma line_char_facts (c : ascii) :
  line_char c = true ->
  islinebreak c = false /\ c <> "#"%char /\ (code c < 128)%N
  /\ c <> " "%char.
Proof.
  unfold line_char. rewrite orb_true_iff. intros [Ht|Ht].
  - apply Ascii.eqb_eq in Ht. subst c. repeat split; discriminate.
  - destruct (token_char_facts _ Ht) as (Hs & Hl & Hh & Hc).
    repeat split; auto. intros ->. discriminate Hs.
Qed.

Lemma Forall_join_line (toks : list str) :
  Forall clean_token toks ->
  Forall (fun c => line_char c = true) (join [TAB] toks).
Proof.
  induction 1 as [|tok toks [_ Htok] _ IH]; simpl; [constructor|].
  assert (Forall (fun c => line_char c = true) tok) as Hl.
  { eapply Forall_impl; [|exact Htok]. intros c Hc. unfold line_char.
    now rewrite Hc, orb_true_r. }
  destruct toks as [|tok' toks]; [exact Hl|].
  apply Forall_app; split; [exact Hl|].
  constructor; [reflexivity | exact IH].
Qed.

Lemma join_cons_app (sep : str) (tok : str) (toks : list str) :
  toks <> [] -> join sep (tok :: toks) = tok ++ sep ++ join sep toks.
Proof. destruct toks; [congruence | reflexivity]. Qed.

(** A line of clean tokens starts and ends with a token character. *)
Lemma join_first_last (toks : list str) :
  Forall clean_token toks -> toks <> [] ->
  exists c t pre c',
    join [TAB] toks = c :: t /\ join [TAB] toks = pre ++ [c']
    /\ token_char c = true /\ token_char c' = true.
Proof.
  induction 1 as [|tok toks [Hne Htok] Htoks IH]; intros Hnil; [congruence|].
  destruct tok as [|c t]; [congruence|].
  assert (token_char c = true) as Hc by now inversion Htok.
  destruct toks as [|tok' toks].
  - simpl. destruct (exists_last Hne) as (pre & c' & Hlast).
    exists c, t, pre, c'. repeat split; auto.
    rewrite Hlast in Htok. apply Forall_app in Htok.
    destruct Htok as [_ Hc']. now inversion Hc'.
  - destruct IH as (c2 & t2 & pre & c' & _ & Hlast & _ & Hc');
      [discriminate|].
    rewrite join_cons_app by discriminate.
    exists c, (t ++ [TAB] ++ join [TAB] (tok' :: toks)),
      ((c :: t) ++ [TAB] ++ pre), c'.
    repeat split; auto.
    rewrite Hlast. now rewrite <- !app_assoc.
Qed.

Lemma strip_by_trimmed (p : ascii -> bool) (s : str) c t pre c' :
  s = c :: t -> s = pre ++ [c'] -> p c = false -> p c' = false ->
  strip_by p s = s.
Proof.
  intros Hhd Hlast Hc Hc'. unfold strip_by, lstrip_by, rstrip_by.
  rewrite Hhd at 1. simpl. rewrite Hc, <- Hhd.
  rewrite Hlast at 1. rewrite rev_app_distr. simpl. rewrite Hc'.
  change (c' :: rev pre) with (rev [c'] ++ rev pre).
  now rewrite <- rev_app_distr, rev_involutive.
Qed.

Lemma before_first_absent (sep : ascii) (s : str) :
  Forall (fun c => c <> sep) s -> before_first sep s = s.
Proof.
  induction 1 as [|c s Hc _ IH]; simpl; [reflexivity|].
  destruct (Ascii.eqb c sep) eqn:E.
  - apply Ascii.eqb_eq in E. contradiction.
  - now rewrite IH.
Qed.

Lemma encode_ascii (s : str) :
  Forall (fun c => (code c < 128)%N) s -> encode s = s.
Proof.
  unfold encode. induction 1 as [|c s Hc _ IH]; [reflexivity|].
  apply N.ltb_lt in Hc. cbn [flat_map]. cbv zeta. rewrite Hc.
  cbn [app]. f_equal. exact IH.
Qed.

Lemma split_whitespace_token (tok rest : str) :
  clean_token tok ->
  split_whitespace (tok ++ TAB :: rest) = tok :: split_whitespace rest
  /\ split_whitespace tok = [tok].
Proof.
  intros [Hne Htok]. induction Htok as [|c tok Hc Htok IH]; [congruence|].
  destruct (token_char_facts _ Hc) as (Hs & _).
  destruct tok as [|c2 tok].
  - simpl. rewrite Hs. split; reflexivity.
  - destruct IH as [IH1 IH2]; [discriminate|].
    assert (isspace c2 = false) as Hs2.
    { inversion Htok as [|? ? Hc2 _]; subst.
      now destruct (token_char_facts _ Hc2). }
    split.
    + change ((c :: c2 :: tok) ++ TAB :: rest)
        with (c :: ((c2 :: tok) ++ TAB :: rest)).
      change (split_whitespace (c :: (c2 :: tok) ++ TAB :: rest))
        with (if isspace c then split_whitespace ((c2 :: tok) ++ TAB :: rest)
              else if isspace c2
                   then [c] :: split_whitespace ((c2 :: tok) ++ TAB :: rest)
                   else match split_whitespace
                                ((c2 :: tok) ++ TAB :: rest) with
                        | [] => [[c]]
                        | w :: ws => (c :: w) :: ws
                        end).
      now rewrite Hs, Hs2, IH1.
    + change (split_whitespace (c :: c2 :: tok))
        with (if isspace c then split_whitespace (c2 :: tok)
              else if isspace c2 then [c] :: split_whitespace (c2 :: tok)
                   else match split_whitespace (c2 :: tok) with
                        | [] => [[c]]
                        | w :: ws => (c :: w) :: ws
                        end).
      now rewrite Hs, Hs2, IH2.
Qed.

Lemma split_whitespace_join (toks : list str) :
  Forall clean_token toks -> split_whitespace (join [TAB] toks) = toks.
Proof.
  induction 1 as [|tok toks Htok _ IH]; [reflexivity|].
  destruct toks as [|tok' toks].
  - simpl. now apply split_whitespace_token.
  - rewrite join_cons_app by discriminate.
    change ([TAB] ++ join [TAB] (tok' :: toks))
      with (TAB :: join [TAB] (tok' :: toks)).
    rewrite (proj1 (split_whitespace_token _ Htok)). now rewrite IH.
Qed.

Lemma startswith_prefix (p s : str) :
  startswith p s = true -> exists r, s = p ++ r.
Proof.
  revert s; induction p as [|c p IH]; intros s Hs.
  - now exists s.
  - destruct s as [|c' s]; [discriminate|]. simpl in Hs.
    apply andb_true_iff in Hs. destruct Hs as [Hc Hp].
    apply Ascii.eqb_eq in Hc. subst c'.
    destruct (IH _ Hp) as [r ->]. now exists r.
Qed.

Lemma contains_In (needle s : str) (c : ascii) :
  contains needle s = true -> In c needle -> In c s.
Proof.
  intros Hc Hin. induction s as [|c' s IH].
  - simpl in Hc. rewrite orb_false_r in Hc.
    destruct needle; [contradiction | discriminate].
  - simpl in Hc. apply orb_true_iff in Hc. destruct Hc as [Hp|Ht].
    + destruct (startswith_prefix _ _ Hp) as [r ->].
      apply in_or_app. now left.
    + right. now apply IH.
Qed.

Lemma splitlines_join (ls : list str) :
  Forall (fun l => l <> []
                   /\ Forall (fun c => islinebreak c = false) l) ls ->
  splitlines (join [LF] ls) = ls.
Proof.
  induction 1 as [|l ls [Hne Hl] _ IH]; [reflexivity|].
  destruct ls as [|l' ls].
  - simpl. now apply splitlines_one.
  - rewrite join_cons_app by discriminate.
    change ([LF] ++ join [LF] (l' :: ls)) with (LF :: join [LF] (l' :: ls)).
    rewrite (splitlines_app_LF _ Hl). now rewrite IH.
Qed.

(** ** Serialising and parsing again *)

Lemma isspace_strip_chars (c : ascii) :
  isspace c = false -> existsb (Ascii.eqb c) (py " " ++ [CR; LF]) = false.
Proof.
  intros Hs. change (py " " ++ [CR; LF]) with [" "%char; CR; LF].
  cbn [existsb]. rewrite !orb_false_iff. repeat split; auto;
    apply Ascii.eqb_neq; intros ->; discriminate Hs.
Qed.

Lemma BANNER_no_linebreak : Forall (fun c => islinebreak c = false) BANNER.
Proof. apply Forall_forallb_false. vm_compute. reflexivity. Qed.

(** What is needed of a line of tab-separated clean tokens. *)
Lemma token_line_facts {F : Type} `{PyFloat F} (toks : list str) :
  Forall clean_token toks -> toks <> [] ->
  let line := join [TAB] toks in
  line <> []
  /\ Forall (fun c => islinebreak c = false) line
  /\ strip line = line
  /\ AFNILinearTransform.keep_line line = true
  /\ AFNILinearTransformArray.keep_line line = true
  /\ delimited_splitter (decode_latin1 (encode line)) = toks.
Proof.
  intros Htoks Hne line.
  destruct (join_first_last Htoks Hne) as (c & t & pre & c' & Hhd & Hlast & Hc & Hc').
  fold line in Hhd, Hlast.
  pose proof (Forall_join_line Htoks) as Hline. fold line in Hline.
  destruct (token_char_facts _ Hc) as (Hcs & _ & Hch & _).
  destruct (token_char_facts _ Hc') as (Hcs' & _).
  assert (line <> []) as Hnil by (rewrite Hhd; discriminate).
  assert (strip line = line) as Hstrip.
  { unfold strip. eapply strip_by_trimmed; eauto. }
  assert (startswith (py "#") line = false) as Hhash.
  { rewrite Hhd. change (py "#") with ["#"%char]. cbn [startswith].
    rewrite andb_true_r. apply Ascii.eqb_neq. congruence. }
  assert (contains (py "3dvolreg matrices") line = false) as Hban.
  { destruct (contains (py "3dvolreg matrices") line) eqn:E; [|reflexivity].
    exfalso.
    assert (In " "%char line) as Hin.
    { apply (contains_In _ _ _ E). vm_compute. tauto. }
    rewrite Forall_forall in Hline.
    now destruct (line_char_facts _ (Hline _ Hin)) as (_ & _ & _ & Hsp). }
  split; [exact Hnil|]. split.
  { eapply Forall_impl; [|exact Hline]. intros a Ha.
    now destruct (line_char_facts _ Ha). }
  split; [exact Hstrip|]. split.
  { unfold AFNILinearTransform.keep_line.
    rewrite Hstrip, Hhash, Hban. rewrite Hhd. reflexivity. }
  split.
  { unfold AFNILinearTransformArray.keep_line,
      AFNILinearTransformArray.nonblank.
    rewrite Hstrip, Hhash. rewrite Hhd. reflexivity. }
  unfold delimited_splitter, decode_latin1.
  rewrite encode_ascii.
  2:{ eapply Forall_impl; [|exact Hline]. intros a Ha.
      now destruct (line_char_facts _ Ha) as (_ & _ & ? & _). }
  rewrite before_first_absent.
  2:{ eapply Forall_impl; [|exact Hline]. intros a Ha.
      now destruct (line_char_facts _ Ha) as (_ & ? & _ & _). }
  unfold strip_chars.
  rewrite (@strip_by_trimmed _ _ _ _ _ _ Hhd Hlast)
    by (apply isspace_strip_chars; assumption).
  rewrite Hhd. rewrite <- Hhd. now apply split_whitespace_join.
Qed.

Section RoundTrip.
Context {F : Type} `{PyFloat F}.

(** ["%g"] writes a clean token, whatever the value. *)
Hypothesis format_g_clean : forall x : F, clean_token (format_g x).

Lemma from_string_parsed (string : str) (xfm : AFNILinearTransform.t F) :
  AFNILinearTransform.from_string string = Ok xfm -> parsed xfm.
Proof.
  unfold AFNILinearTransform.from_string.
  destruct (AFNILinearTransform.data_lines string) as [|line0 rest];
    [discriminate|].
  destruct (Nat.eq_dec (length (genfromtxt (F:=F) line0)) 12) as [E|E].
  - destruct (reshape_3_4_length _ E)
      as (a0 & a1 & a2 & a3 & a4 & a5 & a6 & a7 & a8 & a9 & a10 & a11
          & _ & Hre).
    rewrite Hre. simpl. intros Hok. injection Hok as <-.
    now exists a0, a1, a2, a3, a4, a5, a6, a7, a8, a9, a10, a11.
  - rewrite (reshape_3_4_other _ E). discriminate.
Qed.

Lemma written_tokens (xfm : AFNILinearTransform.t F) :
  parsed xfm ->
  Forall clean_token (map format_g (written xfm))
  /\ map format_g (written xfm) <> [].
Proof.
  intros (a0 & a1 & a2 & a3 & a4 & a5 & a6 & a7 & a8 & a9 & a10 & a11 & Hp).
  unfold written. rewrite Hp. simpl. split; [|discriminate].
  repeat constructor; apply format_g_clean.
Qed.

(** The lines of one transform: the banner when asked for, and the
    numbers. *)
Lemma xfm_lines_parsed (banner : bool) (xfm : AFNILinearTransform.t F) :
  parsed xfm ->
  AFNILinearTransformArray.xfm_lines banner xfm
  = if banner then [BANNER; AFNILinearTransform.__str__ xfm]
    else [AFNILinearTransform.__str__ xfm].
Proof.
  intros Hp. destruct (written_tokens Hp) as [Htoks Hne].
  destruct (token_line_facts Htoks Hne)
    as (Hnil & Hnb & Hstrip & _ & _ & _).
  unfold AFNILinearTransformArray.xfm_lines, AFNILinearTransform.to_string.
  fold (written xfm) in *.
  change (join [TAB] (map format_g (written xfm)))
    with (AFNILinearTransform.__str__ xfm) in *.
  set (line := AFNILinearTransform.__str__ xfm) in *.
  assert (splitlines (line ++ [LF]) = [line]) as Hsl.
  { change (line ++ [LF]) with (line ++ LF :: []).
    now rewrite (splitlines_app_LF [] Hnb). }
  assert (AFNILinearTransformArray.nonblank line = true) as Hnbl.
  { unfold AFNILinearTransformArray.nonblank. rewrite Hstrip.
    destruct line; [congruence | reflexivity]. }
  destruct banner.
  - change (join [LF] [BANNER; line ++ [LF]])
      with (BANNER ++ LF :: (line ++ [LF])).
    rewrite (splitlines_app_LF _ BANNER_no_linebreak), Hsl.
    cbn [filter].
    replace (AFNILinearTransformArray.nonblank BANNER) with true
      by (vm_compute; reflexivity).
    rewrite Hnbl. cbn [map]. rewrite Hstrip.
    replace (strip BANNER) with BANNER by (vm_compute; reflexivity).
    reflexivity.
  - rewrite Hsl. cbn [filter]. rewrite Hnbl. cbn [map].
    now rewrite Hstrip.
Qed.

Lemma collect_lines_false (xs : list (AFNILinearTransform.t F)) :
  Forall parsed xs ->
  AFNILinearTransformArray.collect_lines false xs
  = map AFNILinearTransform.__str__ xs.
Proof.
  induction 1 as [|x xs Hx _ IH]; [reflexivity|].
  cbn [AFNILinearTransformArray.collect_lines map].
  now rewrite (xfm_lines_parsed false Hx), IH.
Qed.

Lemma collect_lines_true (xs : list (AFNILinearTransform.t F)) :
  Forall parsed xs -> xs <> [] ->
  AFNILinearTransformArray.collect_lines true xs
  = BANNER :: map AFNILinearTransform.__str__ xs.
Proof.
  intros Hall Hne. destruct Hall as [|x xs Hx Hxs]; [congruence|].
  cbn [AFNILinearTransformArray.collect_lines map].
  now rewrite (xfm_lines_parsed true Hx), (collect_lines_false Hxs).
Qed.

(** Parsing the numbers line of a transform whose values are read back
    as they were written gives the transform. *)
Lemma from_string_str (xfm : AFNILinearTransform.t F) :
  parsed xfm -> Forall reread (written xfm) ->
  AFNILinearTransform.from_string (AFNILinearTransform.__str__ xfm)
  = Ok xfm.
Proof.
  intros Hp Hre. destruct (written_tokens Hp) as [Htoks Hne].
  destruct (token_line_facts Htoks Hne)
    as (Hnil & Hnb & _ & Hkeep & _ & Hsplit).
  fold (written xfm) in *.
  change (join [TAB] (map format_g (written xfm)))
    with (AFNILinearTransform.__str__ xfm) in *.
  set (line := AFNILinearTransform.__str__ xfm) in *.
  assert (AFNILinearTransform.data_lines line = [line]) as Hd.
  { unfold AFNILinearTransform.data_lines.
    rewrite (splitlines_one Hnb Hnil). simpl. now rewrite Hkeep. }
  rewrite (from_string_first_line _ Hd).
  unfold genfromtxt. rewrite Hsplit, map_map.
  assert (map (fun x => loose_call (format_g x)) (written xfm)
          = written xfm) as ->.
  { clear -Hre. induction Hre as [|x l Hx _ IH]; [reflexivity|].
    simpl. unfold loose_call at 1. unfold reread in Hx.
    now rewrite Hx, IH. }
  destruct Hp
    as (a0 & a1 & a2 & a3 & a4 & a5 & a6 & a7 & a8 & a9 & a10 & a11 & Hp).
  unfold written. rewrite Hp. simpl.
  destruct xfm as [ps]. simpl in Hp. now rewrite Hp.
Qed.

(** The text of an array of parsed transforms, and what parsing it
    gives. *)
Lemma array_round_trip (string : str) (a : AFNILinearTransformArray.t F) :
  AFNILinearTransformArray.from_string string = Ok a ->
  AFNILinearTransformArray.to_string a
  = join [LF]
      (BANNER :: map AFNILinearTransform.__str__
                   (AFNILinearTransformArray.xforms a))
  /\ Forall (fun xfm => length (written xfm) = 12%nat)
       (AFNILinearTransformArray.xforms a)
  /\ ((forall xfm, In xfm (AFNILinearTransformArray.xforms a) ->
                   Forall reread (written xfm)) ->
      AFNILinearTransformArray.from_string
        (AFNILinearTransformArray.to_string a) = Ok a).
Proof.
  intros Hfrom.
  assert (AFNILinearTransformArray.xforms a <> []
          /\ Forall parsed (AFNILinearTransformArray.xforms a))
    as [Hne Hall].
  { unfold AFNILinearTransformArray.from_string in Hfrom.
    destruct (AFNILinearTransformArray.data_lines string) as [|l ls];
      [discriminate|].
    destruct (mapM AFNILinearTransform.from_string (l :: ls))
      as [xs|e] eqn:Hm; simpl in Hfrom; [|discriminate].
    injection Hfrom as <-. simpl.
    apply mapM_ok_inv in Hm. split.
    - inversion Hm; discriminate.
    - clear -Hm. induction Hm as [|x y l' ys Hxy _ IH]; constructor; auto.
      eapply from_string_parsed; eauto. }
  destruct a as [xs]. simpl in *.
  assert (AFNILinearTransformArray.to_string (AFNILinearTransformArray.mk xs)
          = join [LF] (BANNER :: map AFNILinearTransform.__str__ xs))
    as Hto.
  { unfold AFNILinearTransformArray.to_string. simpl.
    now rewrite (collect_lines_true Hall Hne). }
  split; [exact Hto|]. split.
  { eapply Forall_impl; [|exact Hall].
    intros x (a0 & a1 & a2 & a3 & a4 & a5 & a6 & a7 & a8 & a9 & a10 & a11
              & Hp).
    unfold written. now rewrite Hp. }
  intros Hre. rewrite Hto.
  set (lines := map AFNILinearTransform.__str__ xs).
  assert (Forall (fun l => l <> []
                           /\ Forall (fun c => islinebreak c = false) l
                           /\ strip l = l
                           /\ AFNILinearTransformArray.keep_line l = true)
            lines) as Hlines.
  { unfold lines. apply Forall_map.
    eapply Forall_impl; [|exact Hall]. intros x Hx.
    destruct (written_tokens Hx) as [Htoks Hnil].
    destruct (token_line_facts Htoks Hnil) as (? & ? & ? & _ & ? & _).
    auto. }
  assert (AFNILinearTransformArray.data_lines
            (join [LF] (BANNER :: lines)) = lines) as Hd.
  { unfold AFNILinearTransformArray.data_lines.
    rewrite splitlines_join.
    2:{ constructor.
        - split; [discriminate | exact BANNER_no_linebreak].
        - eapply Forall_impl; [|exact Hlines]. intros l (? & ? & _). auto. }
    cbn [filter].
    replace (AFNILinearTransformArray.keep_line BANNER) with false
      by (vm_compute; reflexivity).
    clear -Hlines. induction Hlines as [|l ls (_ & _ & Hs & Hk) _ IH];
      [reflexivity|].
    simpl. rewrite Hk. simpl. now rewrite Hs, IH. }
  unfold AFNILinearTransformArray.from_string. rewrite Hd.
  assert (mapM AFNILinearTransform.from_string lines = Ok xs) as Hm.
  { apply mapM_ok_intro. unfold lines.
    clear -Hall Hre format_g_clean.
    induction Hall as [|x xs Hx _ IH]; simpl; constructor.
    - apply from_string_str; [exact Hx|]. apply Hre. now left.
    - apply IH. intros y Hy. apply Hre. now right. }
  destruct lines as [|l ls] eqn:El.
  - destruct xs; [congruence | discriminate El].
  - rewrite Hm. reflexivity.
Qed.
End RoundTrip.

(** ** What ["%g"] writes *)

Lemma number_char_token (c : ascii) :
  number_char c = true -> token_char c = true.
Proof.
  destruct c as [[] [] [] [] [] [] [] []]; vm_compute; intros Hc;
    first [reflexivity | discriminate Hc].
Qed.

Lemma isdigit_number_char (c : ascii) :
  isdigit c = true -> number_char c = true.
Proof. intros Hc. unfold number_char. now rewrite Hc. Qed.

Lemma number_str_app (s t : str) :
  number_str s -> number_str t -> number_str (s ++ t).
Proof. intros Hs Ht. apply Forall_app. now split. Qed.

Lemma number_str_literal (s : str) :
  forallb number_char s = true -> number_str s.
Proof.
  intros Hf. apply Forall_forall. intros c Hc.
  rewrite forallb_forall in Hf. now apply Hf.
Qed.

Lemma number_str_uint (d : Decimal.uint) :
  number_str (list_ascii_of_string (NilEmpty.string_of_uint d)).
Proof.
  unfold number_str. induction d; simpl; constructor; auto.
Qed.

Lemma number_str_digits_of (n : N) : number_str (digits_of n).
Proof. apply number_str_uint. Qed.

Lemma Forall_dropwhile {P : ascii -> Prop} (p : ascii -> bool) (s : str) :
  Forall P s -> Forall P (dropwhile p s).
Proof.
  induction 1 as [|c s Hc Hs IH]; simpl; [constructor|].
  destruct (p c); auto.
Qed.

Lemma number_str_rstrip (p : ascii -> bool) (s : str) :
  number_str s -> number_str (rstrip_by p s).
Proof.
  intros Hs. unfold rstrip_by, number_str.
  apply Forall_rev, Forall_dropwhile. now apply Forall_rev.
Qed.

Lemma number_str_zeros (n : nat) : number_str (zeros n).
Proof. unfold number_str. induction n; simpl; constructor; auto. Qed.

Lemma number_str_firstn (n : nat) (s : str) :
  number_str s -> number_str (firstn n s).
Proof.
  unfold number_str. intros Hs. revert n.
  induction Hs as [|c s Hc _ IH]; intros [|n]; simpl; constructor; auto.
Qed.

Lemma number_str_skipn (n : nat) (s : str) :
  number_str s -> number_str (skipn n s).
Proof.
  unfold number_str. intros Hs. revert n.
  induction Hs as [|c s Hc Hs IH]; intros [|n]; simpl; auto.
Qed.

Lemma number_str_with_point (ip fp : str) :
  number_str ip -> number_str fp -> number_str (with_point ip fp).
Proof.
  intros Hi Hf. unfold with_point. destruct fp as [|c fp]; [exact Hi|].
  apply number_str_app; [exact Hi|].
  apply number_str_app; [|exact Hf].
  apply number_str_literal. reflexivity.
Qed.

Lemma number_str_exponent_field (x : Z) : number_str (exponent_field x).
Proof.
  unfold exponent_field. apply number_str_app.
  - destruct (x <? 0)%Z; apply number_str_literal; reflexivity.
  - apply number_str_app;
      [apply number_str_zeros | apply number_str_digits_of].
Qed.

Lemma number_str_format_magnitude (a : N) (e : Z) :
  number_str (format_magnitude a e) /\ format_magnitude a e <> [].
Proof.
  unfold format_magnitude, significand6.
  set (sig := strip_trailing_zeros _).
  set (x := (_ + _ + _ - 1)%Z).
  assert (number_str sig) as Hsig.
  { apply number_str_rstrip, number_str_digits_of. }
  destruct ((x <? -4)%Z || (6 <=? x)%Z).
  - split.
    + apply number_str_app.
      * apply number_str_with_point;
          [now apply number_str_firstn | now apply number_str_skipn].
      * apply number_str_app;
          [apply number_str_literal; reflexivity
          | apply number_str_exponent_field].
    + intros E. apply app_eq_nil in E. destruct E as [_ E].
      discriminate E.
  - destruct (0 <=? x)%Z.
    + split.
      * apply number_str_with_point;
          [|now apply number_str_skipn].
        apply number_str_firstn, number_str_app;
          [exact Hsig | apply number_str_zeros].
      * unfold with_point.
        assert (firstn (S (Z.to_nat x))
                  (sig ++ zeros (S (Z.to_nat x) - length sig)) <> [])
          as Hip.
        { destruct sig as [|c sig']; simpl; discriminate. }
        destruct (skipn (S (Z.to_nat x)) sig); [exact Hip|].
        intros E. apply app_eq_nil in E. now destruct E.
    + split; [|discriminate].
      apply number_str_app; [apply number_str_literal; reflexivity|].
      apply number_str_app; [apply number_str_zeros | exact Hsig].
Qed.

(** Every number is written as a clean token. *)
Lemma pyfloat_format_g_clean (x : pyfloat) : clean_token (format_g x).
Proof.
  assert (forall s, s <> [] -> number_str s -> clean_token s) as Hclean.
  { intros s Hne Hs. split; [exact Hne|].
    eapply Forall_impl; [|exact Hs]. apply number_char_token. }
  destruct x as [m e|neg|]; simpl.
  - destruct (m =? 0)%Z.
    + apply Hclean; [discriminate | apply number_str_literal; reflexivity].
    + destruct (number_str_format_magnitude (Z.to_N (Z.abs m)) e)
        as [Hs Hne].
      apply Hclean.
      * intros E. apply app_eq_nil in E. now destruct E.
      * apply number_str_app; [|exact Hs].
        destruct (m <? 0)%Z; [apply number_str_literal; reflexivity|].
        unfold number_str. constructor.
  - destruct neg; (apply Hclean;
                   [discriminate | apply number_str_literal; reflexivity]).
  - apply Hclean; [discriminate | apply number_str_literal; reflexivity].
Qed.

(** ** Reading back what ["%g"] writes *)

Lemma digits_value_fold (ds : str) :
  digits_value ds = fold_left digit_step ds 0%Z.
Proof. reflexivity. Qed.

Lemma fold_uint_acc (d : Decimal.uint) (acc : positive) :
  fold_left digit_step (uint_chars d) (Z.pos acc)
  = Z.pos (Pos.of_uint_acc d acc).
Proof.
  revert acc. unfold uint_chars.
  induction d; intros acc; cbn [NilEmpty.string_of_uint
                                  list_ascii_of_string fold_left Pos.of_uint_acc];
    [reflexivity | ..];
    (rewrite <- IHd; f_equal; rewrite ?Pos2Z.inj_add, ?Pos2Z.inj_mul;
     unfold digit_step; generalize (Z.pos acc); intros z;
     match goal with
     | |- context [digit_value ?c] =>
         let v := eval vm_compute in (digit_value c) in
         change (digit_value c) with v
     end; lia).
Qed.

Lemma fold_uint (d : Decimal.uint) :
  fold_left digit_step (uint_chars d) 0%Z = Z.of_N (Pos.of_uint d).
Proof.
  unfold uint_chars. induction d; simpl; [reflexivity | exact IHd | ..];
    apply fold_uint_acc.
Qed.

Lemma digits_value_digits_of (n : N) :
  digits_value (digits_of n) = Z.of_N n.
Proof.
  rewrite digits_value_fold. unfold digits_of.
  change (list_ascii_of_string (NilEmpty.string_of_uint (N.to_uint n)))
    with (uint_chars (N.to_uint n)).
  rewrite fold_uint. change Pos.of_uint with N.of_uint.
  now rewrite DecimalN.Unsigned.of_to.
Qed.

Lemma isdigit_uint_chars (d : Decimal.uint) :
  Forall (fun c => isdigit c = true) (uint_chars d).
Proof. unfold uint_chars. induction d; simpl; constructor; auto. Qed.

Lemma isdigit_digits_of (n : N) :
  Forall (fun c => isdigit c = true) (digits_of n).
Proof. apply isdigit_uint_chars. Qed.

Lemma digits_of_nonempty (n : N) : digits_of n <> [].
Proof.
  unfold digits_of. destruct n as [|p]; simpl; [discriminate|].
  pose proof (DecimalPos.Unsigned.to_uint_nonnil p) as Hp.
  destruct (Pos.to_uint p); simpl; congruence.
Qed.

Lemma isdigit_value (c : ascii) :
  isdigit c = true -> (0 <= digit_value c <= 9)%Z.
Proof.
  unfold isdigit, digit_value.
  rewrite andb_true_iff, !N.leb_le. lia.
Qed.

Lemma digit_value_zero (c : ascii) :
  isdigit c = true -> digit_value c = 0%Z -> c = "0"%char.
Proof.
  unfold isdigit, digit_value, code.
  rewrite andb_true_iff, !N.leb_le. intros _ Hv.
  assert (N_of_ascii c = 48%N) as Hc by lia.
  rewrite <- (ascii_N_embedding c), Hc. reflexivity.
Qed.

Lemma fold_digit_step_app (xs ys : str) (acc : Z) :
  fold_left digit_step (xs ++ ys) acc
  = fold_left digit_step ys (fold_left digit_step xs acc).
Proof. apply fold_left_app. Qed.

Lemma fold_digit_step_acc (ys : str) (acc : Z) :
  fold_left digit_step ys acc
  = (acc * 10 ^ Z.of_nat (length ys) + fold_left digit_step ys 0)%Z.
Proof.
  revert acc. induction ys as [|c ys IH]; intros acc.
  - simpl. lia.
  - cbn [fold_left length]. rewrite IH, (IH (digit_step 0 c)).
    rewrite Nat2Z.inj_succ, Z.pow_succ_r by lia.
    unfold digit_step. lia.
Qed.

Lemma digits_value_app (xs ys : str) :
  digits_value (xs ++ ys)
  = (digits_value xs * 10 ^ Z.of_nat (length ys) + digits_value ys)%Z.
Proof.
  rewrite !digits_value_fold, fold_digit_step_app.
  apply fold_digit_step_acc.
Qed.

Lemma digits_value_zeros (n : nat) : digits_value (zeros n) = 0%Z.
Proof.
  induction n as [|n IH]; [reflexivity|].
  change (zeros (S n)) with (["0"%char] ++ zeros n).
  rewrite digits_value_app, IH. reflexivity.
Qed.

Lemma length_zeros (n : nat) : length (zeros n) = n.
Proof. apply repeat_length. Qed.

Lemma isdigit_zeros (n : nat) : Forall (fun c => isdigit c = true) (zeros n).
Proof. induction n; simpl; constructor; auto. Qed.

(** The last digit of a number that 10 does not divide is not zero, and
    nothing is stripped from its digits. *)
Lemma strip_trailing_zeros_digits_of (n : N) :
  (Z.of_N n mod 10 <> 0)%Z -> strip_trailing_zeros (digits_of n) = digits_of n.
Proof.
  intros Hmod.
  destruct (exists_last (digits_of_nonempty n)) as (pre & c & Hds).
  pose proof (digits_value_digits_of n) as Hv.
  pose proof (isdigit_digits_of n) as Hd.
  rewrite Hds in Hv, Hd |- *.
  apply Forall_app in Hd. destruct Hd as [_ Hc].
  inversion Hc as [|? ? Hc' _]; subst.
  rewrite digits_value_app in Hv. simpl length in Hv.
  change (digits_value [c]) with (digit_step 0 c) in Hv.
  unfold digit_step in Hv.
  assert (c <> "0"%char) as Hnz.
  { intros ->. apply Hmod. rewrite <- Hv.
    change (10 * 0 + digit_value "0")%Z with 0%Z.
    change (10 ^ Z.of_nat 1)%Z with 10%Z.
    rewrite Z.add_0_r. apply Z.mod_mul. lia. }
  unfold strip_trailing_zeros, rstrip_by.
  rewrite rev_app_distr. simpl.
  destruct (Ascii.eqb c "0") eqn:E.
  - apply Ascii.eqb_eq in E. contradiction.
  - change (c :: rev pre) with (rev [c] ++ rev pre).
    now rewrite <- rev_app_distr, rev_involutive.
Qed.

(** *** Digit strings under [digitpart] *)

Lemma digitpart_digits (ds r : str) :
  Forall (fun c => isdigit c = true) ds -> stops_digits r ->
  digitpart (ds ++ r) = (ds, r).
Proof.
  intros Hds Hr. induction Hds as [|d ds Hd Hds IH].
  - destruct r as [|c r]; [reflexivity|]. destruct Hr as [Hc _].
    simpl. now rewrite Hc.
  - change ((d :: ds) ++ r) with (d :: (ds ++ r)).
    cbn [digitpart]. rewrite Hd.
    destruct (ds ++ r) as [|u t'] eqn:Et.
    + apply app_eq_nil in Et. destruct Et as [-> ->]. reflexivity.
    + assert (Ascii.eqb u "_" = false) as Hu.
      { apply Ascii.eqb_neq. intros ->.
        destruct ds as [|d' ds'].
        - simpl in Et. subst r. now destruct Hr.
        - simpl in Et. injection Et as -> _.
          inversion Hds as [|? ? Hd' _]; subst. discriminate Hd'. }
      rewrite Hu. cbn [andb]. now rewrite IH.
Qed.

Lemma digitpart_digits_end (ds : str) :
  Forall (fun c => isdigit c = true) ds -> digitpart ds = (ds, []).
Proof.
  intros Hds. rewrite <- (app_nil_r ds) at 1.
  now apply digitpart_digits.
Qed.

(** *** Lowest terms *)

Lemma strip10_stop (fuel : nat) (m e : Z) :
  (m mod 10 <> 0)%Z -> strip10 fuel m e = (m, e).
Proof.
  intros Hm. destruct fuel; [reflexivity|]. simpl.
  destruct (m mod 10 =? 0)%Z eqn:E; [|reflexivity].
  apply Z.eqb_eq in E. contradiction.
Qed.

Lemma strip10_pow (j fuel : nat) (m e : Z) :
  (m mod 10 <> 0)%Z -> (j < fuel)%nat ->
  strip10 fuel (m * 10 ^ Z.of_nat j)%Z e = (m, (e + Z.of_nat j)%Z).
Proof.
  intros Hm. revert fuel e. induction j as [|j IH]; intros fuel e Hj.
  - simpl. rewrite Z.mul_1_r, Z.add_0_r. now apply strip10_stop.
  - destruct fuel as [|fuel]; [lia|].
    rewrite Nat2Z.inj_succ, Z.pow_succ_r by lia.
    replace (m * (10 * 10 ^ Z.of_nat j))%Z
      with ((m * 10 ^ Z.of_nat j) * 10)%Z by ring.
    cbn [strip10]. rewrite Z.mod_mul by lia. cbn [Z.eqb].
    rewrite Z.div_mul by lia. rewrite IH by lia. f_equal. lia.
Qed.

Lemma normalize_pow (j : nat) (m e : Z) :
  (m mod 10 <> 0)%Z ->
  normalize (m * 10 ^ Z.of_nat j)%Z e = Finite m (e + Z.of_nat j)%Z.
Proof.
  intros Hm. unfold normalize.
  assert (m <> 0)%Z as Hm0 by (intros ->; apply Hm; reflexivity).
  assert (0 < 10 ^ Z.of_nat j)%Z as Hp by (apply Z.pow_pos_nonneg; lia).
  destruct (m * 10 ^ Z.of_nat j =? 0)%Z eqn:E.
  - apply Z.eqb_eq in E. nia.
  - rewrite strip10_pow; [reflexivity | exact Hm |].
    assert (Z.of_nat j <= Z.log2 (Z.abs (m * 10 ^ Z.of_nat j)))%Z as Hlog.
    { rewrite <- (Z.log2_pow2 (Z.of_nat j)) at 1 by lia.
      apply Z.log2_le_mono.
      assert (2 ^ Z.of_nat j <= 10 ^ Z.of_nat j)%Z
        by (apply Z.pow_le_mono_l; lia).
      rewrite Z.abs_mul, (Z.abs_eq (10 ^ Z.of_nat j)) by lia.
      nia. }
    lia.
Qed.

Lemma strip10_canonical (fuel : nat) (m e : Z) :
  (m <> 0)%Z -> (Z.abs m < 2 ^ Z.of_nat fuel)%Z ->
  (fst (strip10 fuel m e) mod 10 <> 0)%Z.
Proof.
  revert m e. induction fuel as [|fuel IH]; intros m e Hm Hlt.
  - simpl in Hlt. lia.
  - cbn [strip10]. destruct (m mod 10 =? 0)%Z eqn:E.
    + apply Z.eqb_eq in E. apply IH.
      * intros Hq. apply Hm.
        rewrite (Z.div_mod m 10), Hq, E by lia. reflexivity.
      * rewrite Nat2Z.inj_succ, Z.pow_succ_r in Hlt by lia.
        assert (m = 10 * (m / 10))%Z as Hdiv.
        { rewrite (Z.div_mod m 10) at 1 by lia. lia. }
        lia.
    + apply Z.eqb_neq in E. exact E.
Qed.

Lemma normalize_canonical (m e : Z) : canonical (normalize m e).
Proof.
  unfold normalize. destruct (m =? 0)%Z eqn:E; [left; split; reflexivity|].
  apply Z.eqb_neq in E.
  pose proof (strip10_canonical (S (Z.to_nat (Z.log2 (Z.abs m)))) e E) as Hc.
  destruct (strip10 _ m e) as [m' e']. right. apply Hc.
  assert (0 < Z.abs m)%Z as Hpos by lia.
  destruct (Z.log2_spec _ Hpos) as [_ Hup].
  rewrite Nat2Z.inj_succ, Z2Nat.id by apply Z.log2_nonneg.
  exact Hup.
Qed.

Lemma pyfloat_of_str_canonical (s : str) (x : pyfloat) :
  pyfloat_of_str s = Some x -> canonical x.
Proof.
  unfold pyfloat_of_str. destruct (parse_sign (strip s)) as [neg r].
  destruct (str_eqb _ _ || str_eqb _ _).
  - intros Hx. injection Hx as <-. exact I.
  - destruct (str_eqb _ _).
    + intros Hx. injection Hx as <-. exact I.
    + destruct (parse_floatnumber r) as [[m e]|]; [|discriminate].
      intros Hx. injection Hx as <-. apply normalize_canonical.
Qed.

Lemma loose_call_canonical (tok : str) :
  canonical (loose_call (F:=pyfloat) tok).
Proof.
  unfold loose_call.
  destruct (float_of_str (F:=pyfloat) tok) as [x|] eqn:E; [|exact I].
  now apply pyfloat_of_str_canonical in E.
Qed.

(** *** Parsing the layouts of ["%g"] *)

Lemma parse_exponent_field (x : Z) :
  parse_exponent (py "e" ++ exponent_field x) = Some x.
Proof.
  unfold exponent_field.
  set (ds := digits_of (Z.to_N (Z.abs x))).
  assert (Forall (fun c => isdigit c = true) (zeros (2 - length ds) ++ ds))
    as Hd.
  { apply Forall_app. split; [apply isdigit_zeros | apply isdigit_digits_of]. }
  assert (digits_value (zeros (2 - length ds) ++ ds) = Z.abs x) as Hv.
  { rewrite digits_value_app, digits_value_zeros. unfold ds.
    rewrite digits_value_digits_of, Z2N.id by lia. lia. }
  assert (zeros (2 - length ds) ++ ds <> []) as Hne.
  { intros E. apply app_eq_nil in E. destruct E as [_ E].
    now apply (digits_of_nonempty (Z.to_N (Z.abs x))). }
  destruct (zeros (2 - length ds) ++ ds) as [|d0 rest] eqn:Ez;
    [congruence|].
  destruct (x <? 0)%Z eqn:Ex.
  - change (py "e" ++ py "-" ++ d0 :: rest)
      with ("e"%char :: "-"%char :: d0 :: rest).
    cbn [parse_exponent]. change (lower "e") with "e"%char.
    cbn [Ascii.eqb Bool.eqb parse_sign].
    change (Ascii.eqb "-" "-") with true. cbv iota.
    rewrite (digitpart_digits_end Hd), Hv.
    apply Z.ltb_lt in Ex. f_equal. lia.
  - change (py "e" ++ py "+" ++ d0 :: rest)
      with ("e"%char :: "+"%char :: d0 :: rest).
    cbn [parse_exponent]. change (lower "e") with "e"%char.
    cbn [Ascii.eqb Bool.eqb parse_sign].
    change (Ascii.eqb "+" "-") with false.
    change (Ascii.eqb "+" "+") with true. cbv iota.
    rewrite (digitpart_digits_end Hd), Hv.
    apply Z.ltb_ge in Ex. f_equal. lia.
Qed.

Lemma number_tail_facts (tail : str) (x : Z) :
  number_tail tail x ->
  stops_digits tail /\ parse_exponent tail = Some x
  /\ match tail with
     | [] => x = 0%Z
     | c :: _ => Ascii.eqb c "." = false
     end.
Proof.
  intros [[-> ->] | ->].
  - repeat split.
  - split; [split; [reflexivity | discriminate]|].
    split; [apply parse_exponent_field | reflexivity].
Qed.

Lemma parse_floatnumber_with_point (ip fp tail : str) (x : Z) :
  Forall (fun c => isdigit c = true) ip ->
  Forall (fun c => isdigit c = true) fp ->
  ip <> [] -> number_tail tail x ->
  parse_floatnumber (with_point ip fp ++ tail)
  = Some (digits_value (ip ++ fp), (x - Z.of_nat (length fp))%Z).
Proof.
  intros Hip Hfp Hne Htail.
  destruct (number_tail_facts Htail) as (Hstop & Hexp & Hhd).
  unfold parse_floatnumber, with_point.
  destruct fp as [|f fp].
  - rewrite (digitpart_digits _ Hip Hstop), app_nil_r. simpl length.
    rewrite Z.sub_0_r.
    destruct tail as [|c tail].
    + subst x. destruct ip; [congruence | reflexivity].
    + rewrite Hhd, Hexp. destruct ip; [congruence | reflexivity].
  - change (py ".") with ["."%char]. rewrite <- app_assoc. cbn [app].
    rewrite (digitpart_digits ("."%char :: f :: fp ++ tail) Hip)
      by (split; [reflexivity | discriminate]).
    change (Ascii.eqb "." ".") with true. cbv iota.
    change (f :: fp ++ tail) with ((f :: fp) ++ tail).
    rewrite (digitpart_digits _ Hfp Hstop), Hexp.
    destruct ip; [congruence | reflexivity].
Qed.

Lemma round_half_even_0 (a : N) : round_half_even a 0 = a.
Proof.
  unfold round_half_even. change (10 ^ N.of_nat 0)%N with 1%N.
  rewrite N.div_1_r, N.mod_1_r. reflexivity.
Qed.

Lemma significand6_short (a : N) (e : Z) :
  (Z.of_N a mod 10 <> 0)%Z -> (length (digits_of a) <= 6)%nat ->
  significand6 a e
  = (digits_of a, (e + Z.of_nat (length (digits_of a)) - 1)%Z).
Proof.
  intros Hmod Hlen. unfold significand6.
  replace (length (digits_of a) - 6)%nat with 0%nat by lia.
  rewrite round_half_even_0, (@strip_trailing_zeros_digits_of a Hmod).
  f_equal. simpl. lia.
Qed.

Lemma with_point_cons (d : ascii) (ip fp : str) :
  exists rest, with_point (d :: ip) fp = d :: rest.
Proof. unfold with_point. destruct fp; eexists; reflexivity. Qed.

(** A number of at most six digits is read back from its ["%g"] form with
    the same digits, up to zeros moved between the digits and the
    exponent. *)
Lemma parse_format_magnitude (a : N) (e : Z) :
  (Z.of_N a mod 10 <> 0)%Z -> (length (digits_of a) <= 6)%nat ->
  (exists j : nat,
      parse_floatnumber (format_magnitude a e)
      = Some ((Z.of_N a * 10 ^ Z.of_nat j)%Z, (e - Z.of_nat j)%Z))
  /\ exists c rest, format_magnitude a e = c :: rest /\ isdigit c = true.
Proof.
  intros Hmod Hlen. unfold format_magnitude.
  rewrite (@significand6_short a e Hmod Hlen).
  pose proof (isdigit_digits_of a) as Hds.
  pose proof (digits_value_digits_of a) as Hval.
  pose proof (digits_of_nonempty a) as Hne.
  set (ds := digits_of a) in *. set (nd := length ds) in *.
  set (x := (e + Z.of_nat nd - 1)%Z).
  assert (exists d0 ds', ds = d0 :: ds') as (d0 & ds' & Eds).
  { destruct ds as [|d0 ds']; [congruence | eauto]. }
  assert (1 <= nd)%nat as Hnd by (unfold nd; rewrite Eds; simpl; lia).
  assert (isdigit d0 = true) as Hd0.
  { rewrite Eds in Hds. now inversion Hds. }
  destruct ((x <? -4)%Z || (6 <=? x)%Z) eqn:Esci.
  - (* scientific *)
    split.
    + exists 0%nat.
      rewrite (@parse_floatnumber_with_point (firstn 1 ds) (skipn 1 ds)
                 (py "e" ++ exponent_field x) x).
      * rewrite firstn_skipn, Hval. f_equal. f_equal; [cbn [Z.of_nat]; rewrite Z.pow_0_r; lia|].
        rewrite length_skipn. fold nd. unfold x. cbn [Z.of_nat]. lia.
      * rewrite Eds. cbn [firstn]. now constructor.
      * rewrite Eds. cbn [skipn]. 
        rewrite Eds in Hds. now inversion Hds.
      * rewrite Eds. discriminate.
      * now right.
    + rewrite Eds. cbn [firstn].
      destruct (with_point_cons d0 [] (skipn 1 (d0 :: ds'))) as [rest Hr].
      rewrite Hr. exists d0, (rest ++ py "e" ++ exponent_field x).
      now split.
  - destruct (0 <=? x)%Z eqn:Epos.
    + (* fixed, no leading zero *)
      apply Z.leb_le in Epos.
      set (n := S (Z.to_nat x)).
      destruct (le_lt_dec nd n) as [Hn|Hn].
      * (* the digits and zeros, no fraction *)
        assert (firstn n (ds ++ zeros (n - nd)) = ds ++ zeros (n - nd))
          as Hip.
        { apply firstn_all2. rewrite length_app, length_zeros.
          fold nd. lia. }
        assert (skipn n ds = []) as Hfp by (apply skipn_all2; fold nd; lia).
        rewrite Hip, Hfp. split.
        -- exists (n - nd)%nat.
           rewrite <- (app_nil_r (with_point _ _)).
           rewrite (@parse_floatnumber_with_point (ds ++ zeros (n - nd)) []
                      [] 0%Z).
           ++ rewrite app_nil_r, digits_value_app, digits_value_zeros,
                length_zeros, Hval.
              f_equal. f_equal; [lia|]. unfold x, n in *. cbn [length]. lia.
           ++ apply Forall_app. split; [exact Hds | apply isdigit_zeros].
           ++ constructor.
           ++ rewrite Eds. discriminate.
           ++ left. now split.
        -- rewrite Eds. exists d0, (ds' ++ zeros (n - nd)). now split.
      * (* a fraction *)
        assert (firstn n (ds ++ zeros (n - nd)) = firstn n ds) as Hip.
        { rewrite firstn_app. fold nd.
          replace (n - nd)%nat with 0%nat by lia.
          cbn [firstn zeros repeat]. now rewrite app_nil_r. }
        rewrite Hip. split.
        -- exists 0%nat.
           rewrite <- (app_nil_r (with_point _ _)).
           rewrite (@parse_floatnumber_with_point (firstn n ds) (skipn n ds)
                      [] 0%Z).
           ++ rewrite firstn_skipn, Hval. f_equal. f_equal; [cbn [Z.of_nat]; rewrite Z.pow_0_r; lia|].
              rewrite length_skipn. fold nd. unfold x, n in *. cbn [Z.of_nat]. lia.
           ++ rewrite <- (firstn_skipn n ds) in Hds.
              apply Forall_app in Hds. now destruct Hds.
           ++ rewrite <- (firstn_skipn n ds) in Hds.
              apply Forall_app in Hds. now destruct Hds.
           ++ rewrite Eds. unfold n. discriminate.
           ++ left. now split.
        -- rewrite Eds. unfold n. cbn [firstn].
           destruct (with_point_cons d0 (firstn (Z.to_nat x) ds')
                       (skipn (S (Z.to_nat x)) (d0 :: ds')))
             as [rest Hr].
           rewrite Hr. exists d0, rest. now split.
    + (* fixed, below one *)
      apply Z.leb_gt in Epos.
      set (z := Z.to_nat (- x - 1)).
      assert (py "0." ++ zeros z ++ ds
              = with_point ["0"%char] (zeros z ++ ds) ++ []) as Hform.
      { rewrite app_nil_r. unfold with_point.
        destruct (zeros z ++ ds) eqn:E; [|reflexivity].
        apply app_eq_nil in E. destruct E as [_ E]. congruence. }
      split.
      * exists 0%nat. rewrite Hform.
        rewrite (@parse_floatnumber_with_point ["0"%char] (zeros z ++ ds)
                   [] 0%Z).
        -- change (["0"%char] ++ zeros z ++ ds)
             with (zeros (S z) ++ ds).
           rewrite digits_value_app, digits_value_zeros, Hval.
           f_equal. f_equal; [cbn [Z.of_nat]; rewrite Z.pow_0_r; lia|].
           rewrite length_app, length_zeros. fold nd.
           unfold x, z in *. cbn [Z.of_nat]. lia.
        -- now constructor.
        -- apply Forall_app. split; [apply isdigit_zeros | exact Hds].
        -- discriminate.
        -- left. now split.
      * exists "0"%char, (py "." ++ zeros z ++ ds). now split.
Qed.

Lemma strip_clean_token (tok : str) : clean_token tok -> strip tok = tok.
Proof.
  intros [Hne Htok]. destruct tok as [|c t]; [congruence|].
  destruct (exists_last Hne) as (pre & c' & Hlast).
  assert (token_char c = true) as Hc by now inversion Htok.
  assert (token_char c' = true) as Hc'.
  { rewrite Hlast in Htok. apply Forall_app in Htok.
    destruct Htok as [_ Ht]. now inversion Ht. }
  unfold strip. eapply strip_by_trimmed; eauto.
  - now destruct (token_char_facts _ Hc).
  - now destruct (token_char_facts _ Hc').
Qed.

Lemma isdigit_head_facts (c : ascii) (rest : str) :
  isdigit c = true ->
  parse_sign (c :: rest) = (false, c :: rest)
  /\ str_eqb (map lower (c :: rest)) (py "inf") = false
  /\ str_eqb (map lower (c :: rest)) (py "infinity") = false
  /\ str_eqb (map lower (c :: rest)) (py "nan") = false.
Proof.
  intros Hc.
  assert (lower c = c /\ c <> "-"%char /\ c <> "+"%char
          /\ c <> "i"%char /\ c <> "n"%char) as (Hl & Hm & Hp & Hi & Hn).
  { destruct c as [[] [] [] [] [] [] [] []]; try discriminate Hc;
      repeat split; discriminate. }
  split.
  - cbn [parse_sign].
    destruct (Ascii.eqb c "-") eqn:E1;
      [apply Ascii.eqb_eq in E1; contradiction|].
    destruct (Ascii.eqb c "+") eqn:E2;
      [apply Ascii.eqb_eq in E2; contradiction|].
    reflexivity.
  - unfold str_eqb. cbn [map]. rewrite Hl.
    repeat split;
      match goal with
      | |- (if ?d then _ else _) = _ =>
          destruct d as [E|_]; [|reflexivity]
      end;
      injection E as E _; congruence.
Qed.

(** A value in lowest terms with at most six digits is read back from its
    ["%g"] form. *)
Lemma reread_six_digits (x : pyfloat) :
  canonical x -> six_digits x -> reread x.
Proof.
  unfold reread. pose proof (pyfloat_format_g_clean x) as Hclean.
  change (float_of_str (format_g x)) with (pyfloat_of_str (format_g x)).
  destruct x as [m e|neg|].
  2:{ intros _ _. destruct neg; vm_compute; reflexivity. }
  2:{ intros _ []. }
  intros Hcan Hsix. simpl in Hcan, Hsix.
  destruct (Z.eq_dec m 0) as [->|Hm0].
  { destruct Hcan as [[_ ->] | Hcan]; [vm_compute; reflexivity|].
    exfalso. apply Hcan. reflexivity. }
  destruct Hcan as [[Hm _] | Hmod]; [contradiction|].
  unfold pyfloat_of_str. rewrite (@strip_clean_token _ Hclean).
  change (format_g (Finite m e)) with (pyfloat_format_g (Finite m e)).
  unfold pyfloat_format_g.
  destruct (m =? 0)%Z eqn:E0; [apply Z.eqb_eq in E0; contradiction|].
  set (a := Z.to_N (Z.abs m)) in *.
  assert (Z.of_N a = Z.abs m) as Ha by (unfold a; rewrite Z2N.id; lia).
  assert (Z.of_N a mod 10 <> 0)%Z as Hamod.
  { rewrite Ha. intros Habs. apply Hmod.
    destruct (Z.abs_spec m) as [[_ Hp] | [_ Hn]].
    - now rewrite <- Hp.
    - rewrite Hn in Habs.
      apply Z.mod_divide in Habs; [|lia]. apply Z.mod_divide; [lia|].
      destruct Habs as [q Hq]. exists (- q)%Z. lia. }
  destruct (@parse_format_magnitude a e Hamod Hsix)
    as ((j & Hparse) & c & rest & Hhd & Hc).
  destruct (@isdigit_head_facts c rest Hc) as (Hsign & Hinf & Hinfinity & Hnan).
  destruct (m <? 0)%Z eqn:Eneg.
  - apply Z.ltb_lt in Eneg.
    change (py "-" ++ format_magnitude a e)
      with ("-"%char :: format_magnitude a e).
    cbn [parse_sign]. change (Ascii.eqb "-" "-") with true. cbv iota.
    rewrite Hhd, Hinf, Hinfinity, Hnan. cbn [orb]. rewrite <- Hhd, Hparse.
    f_equal.
    replace (- (Z.of_N a * 10 ^ Z.of_nat j))%Z
      with (m * 10 ^ Z.of_nat j)%Z by (rewrite Ha; lia).
    rewrite normalize_pow by exact Hmod. f_equal. lia.
  - apply Z.ltb_ge in Eneg. cbn [app].
    rewrite Hhd, Hsign, Hinf, Hinfinity, Hnan. cbn [orb].
    rewrite <- Hhd, Hparse. f_equal.
    replace (Z.of_N a * 10 ^ Z.of_nat j)%Z
      with (m * 10 ^ Z.of_nat j)%Z by (rewrite Ha; lia).
    rewrite normalize_pow by exact Hmod. f_equal. lia.
Qed.

(** The numbers that [from_string] stores are in lowest terms. *)
Lemma from_string_written_canonical
  (string : str) (xfm : AFNILinearTransform.t pyfloat) :
  AFNILinearTransform.from_string string = Ok xfm ->
  Forall canonical (written xfm).
Proof.
  unfold AFNILinearTransform.from_string.
  destruct (AFNILinearTransform.data_lines string) as [|line0 rest];
    [discriminate|].
  assert (Forall canonical (genfromtxt (F:=pyfloat) line0)) as Hcan.
  { unfold genfromtxt. apply Forall_map, Forall_forall.
    intros tok _. apply loose_call_canonical. }
  destruct (Nat.eq_dec (length (genfromtxt (F:=pyfloat) line0)) 12) as [E|E].
  - destruct (reshape_3_4_length _ E)
      as (a0 & a1 & a2 & a3 & a4 & a5 & a6 & a7 & a8 & a9 & a10 & a11
          & Ha & Hre).
    rewrite Hre. simpl. intros Hok. injection Hok as <-.
    unfold written. simpl. now rewrite <- Ha.
  - rewrite (reshape_3_4_other _ E). discriminate.
Qed.

Lemma array_from_string_written_canonical
  (string : str) (a : AFNILinearTransformArray.t pyfloat) :
  AFNILinearTransformArray.from_string string = Ok a ->
  Forall (fun xfm => Forall canonical (written xfm))
    (AFNILinearTransformArray.xforms a).
Proof.
  unfold AFNILinearTransformArray.from_string.
  destruct (AFNILinearTransformArray.data_lines string) as [|l ls];
    [discriminate|].
  destruct (mapM AFNILinearTransform.from_string (l :: ls)) as [xs|e] eqn:Hm;
    simpl; [|discriminate].
  intros Hok. injection Hok as <-. simpl.
  apply mapM_ok_inv in Hm. clear -Hm.
  induction Hm as [|x y l' ys Hxy _ IH]; constructor; auto.
  eapply from_string_written_canonical; eauto.
Qed.

(** C7 (amended).  For every text that [AFNILinearTransformArray.from_string]
    accepts, of one line or of several, [to_string] of the result is the
    banner line, once, followed by one line per transform, of 12 numbers
    separated by tabs; and when every one of these numbers has at most six
    significant digits, parsing that text gives the result again. *)
Theorem to_string_from_string_fixed_point
  (text : str) (a : AFNILinearTransformArray.t pyfloat) :
  AFNILinearTransformArray.from_string text = Ok a ->
  AFNILinearTransformArray.to_string a
  = join [LF]
      (BANNER
         :: map (fun xfm => join [TAB] (map format_g (written xfm)))
              (AFNILinearTransformArray.xforms a))
  /\ Forall (fun xfm => length (written xfm) = 12%nat)
       (AFNILinearTransformArray.xforms a)
  /\ ((forall xfm x,
         In xfm (AFNILinearTransformArray.xforms a) -> In x (written xfm) ->
         six_digits x) ->
      AFNILinearTransformArray.from_string
        (AFNILinearTransformArray.to_string a)
      = Ok a).
Proof.
  intros Hfrom.
  destruct (array_round_trip pyfloat_format_g_clean _ Hfrom)
    as (Hto & Hlen & Hback).
  split; [exact Hto|]. split; [exact Hlen|].
  intros Hsix.
  apply Hback. intros xfm Hin. apply Forall_forall. intros x Hx.
  apply reread_six_digits; [|now apply (Hsix xfm)].
  pose proof (array_from_string_written_canonical _ Hfrom) as Hcan.
  rewrite Forall_forall in Hcan. specialize (Hcan _ Hin).
  rewrite Forall_forall in Hcan. now apply Hcan.
Qed.

(** C7, at two transforms under a banner. *)
Lemma to_string_from_string_fixed_point_witness :
  AFNILinearTransformArray.from_string
    (AFNILinearTransformArray.to_string TextSamples.two_transforms_parsed)
  = Ok TextSamples.two_transforms_parsed.
Proof.
  refine (proj2 (proj2 (@to_string_from_string_fixed_point
                          TextSamples.two_transforms
                          TextSamples.two_transforms_parsed _)) _).
  - vm_compute. reflexivity.
  - intros xfm x Hxfm Hx.
    assert (In x (concat (map written
                            (AFNILinearTransformArray.xforms
                               TextSamples.two_transforms_parsed)))) as Hin.
    { apply in_concat. exists (written xfm). split; [|exact Hx].
      now apply in_map. }
    clear -Hin. vm_compute in Hin.
    repeat (destruct Hin as [<- | Hin]; [vm_compute; lia|]).
    contradiction.
Defined.

(** C7, at a text of several lines: 1234567 is written as 1.23457e+06,
    which reads as 1234570, so that the array read from the text written is
    not the array read from the text. *)
Lemma seven_digits_not_fixed_point :
  AFNILinearTransformArray.from_string TextSamples.seven_digits_two_lines
  = Ok TextSamples.seven_digits_two_lines_parsed
  /\ AFNILinearTransformArray.to_string
       TextSamples.seven_digits_two_lines_parsed
     = join [LF]
         [BANNER;
          join [TAB]
            (map py ["1.23457e+06"; "0"; "0"; "0"; "0"; "1"; "0"; "0"; "0";
                     "0"; "1"; "0"]%string);
          join [TAB]
            (map py ["1"; "0"; "0"; "0"; "0"; "1"; "0"; "0"; "0";
                     "0"; "1"; "0"]%string)]
  /\ AFNILinearTransformArray.from_string
       (AFNILinearTransformArray.to_string
          TextSamples.seven_digits_two_lines_parsed)
     = Ok TextSamples.seven_digits_two_lines_reparsed
  /\ TextSamples.seven_digits_two_lines_reparsed
     <> TextSamples.seven_digits_two_lines_parsed.
Proof.
  split; [vm_compute; reflexivity|]. split; [vm_compute; reflexivity|].
  split; [vm_compute; reflexivity|]. discriminate.
Qed.

(** ** Further properties of the conversion between RAS and LPS *)

Lemma matmul_eye4_l (A : matrix) : is4x4 A -> eye4 @@ A = A.
Proof.
  intros HA.
  destruct (is4x4_inv HA)
    as (a00 & a01 & a02 & a03 & a10 & a11 & a12 & a13
        & a20 & a21 & a22 & a23 & a30 & a31 & a32 & a33 & ->).
  unfold eye4. rewrite matmul_4x4. list_eq; ring.
Qed.

Lemma lps_conjugation_eye4 : LPS @@ eye4 @@ LPS = eye4.
Proof. unfold eye4. rewrite lps_conjugation. list_eq; ring. Qed.

(** Conjugation by [LPS] goes through a product. *)
Lemma lps_conjugation_matmul (A B : matrix) :
  is4x4 A -> is4x4 B ->
  LPS @@ (A @@ B) @@ LPS = (LPS @@ A @@ LPS) @@ (LPS @@ B @@ LPS).
Proof.
  intros HA HB.
  destruct (is4x4_inv HA)
    as (a00 & a01 & a02 & a03 & a10 & a11 & a12 & a13
        & a20 & a21 & a22 & a23 & a30 & a31 & a32 & a33 & ->).
  destruct (is4x4_inv HB)
    as (b00 & b01 & b02 & b03 & b10 & b11 & b12 & b13
        & b20 & b21 & b22 & b23 & b30 & b31 & b32 & b33 & ->).
  rewrite matmul_4x4, !lps_conjugation, matmul_4x4. list_eq; ring.
Qed.

(** Conjugating twice gives the matrix back. *)
Lemma lps_conjugation_involutive (A : matrix) :
  is4x4 A -> LPS @@ (LPS @@ A @@ LPS) @@ LPS = A.
Proof.
  intros HA.
  destruct (is4x4_inv HA)
    as (a00 & a01 & a02 & a03 & a10 & a11 & a12 & a13
        & a20 & a21 & a22 & a23 & a30 & a31 & a32 & a33 & ->).
  rewrite !lps_conjugation. list_eq; ring.
Qed.

(** On 4x4 arrays the transposition and the swap of the axes cancel:
    both conversions are the conjugation by [LPS]. *)
Lemma from_ras_conjugation {Mov Ref : Type} (moving : option Mov)
  (reference : option Ref) (M : matrix) :
  is4x4 M ->
  AFNILinearTransform.from_ras M moving reference
  = AFNILinearTransform.mk (LPS @@ M @@ LPS).
Proof.
  intros HM.
  destruct (is4x4_inv HM)
    as (a00 & a01 & a02 & a03 & a10 & a11 & a12 & a13
        & a20 & a21 & a22 & a23 & a30 & a31 & a32 & a33 & ->).
  unfold AFNILinearTransform.from_ras, swapaxes01.
  now rewrite lps_conjugation, !transpose_4x4.
Qed.

Lemma to_ras_conjugation {Mov Ref : Type} (moving : option Mov)
  (reference : option Ref) (self : AFNILinearTransform.t R) :
  is4x4 (AFNILinearTransform.parameters self) ->
  AFNILinearTransform.to_ras self moving reference
  = LPS @@ AFNILinearTransform.parameters self @@ LPS.
Proof.
  intros HM.
  destruct (is4x4_inv HM)
    as (a00 & a01 & a02 & a03 & a10 & a11 & a12 & a13
        & a20 & a21 & a22 & a23 & a30 & a31 & a32 & a33 & E).
  unfold AFNILinearTransform.to_ras, swapaxes01.
  now rewrite E, !transpose_4x4.
Qed.

Lemma is4x4_lps_conjugation (M : matrix) : is4x4 M -> is4x4 (LPS @@ M @@ LPS).
Proof. intros HM. auto using is4x4_matmul, is4x4_LPS. Qed.

Lemma is4x4_eye4 : is4x4 eye4.
Proof. split; [reflexivity | repeat constructor]. Qed.

(** The items of a conjugate. *)
Lemma lps_conjugation_entry (M : matrix) (i j : nat) :
  is4x4 M -> (i < 4)%nat -> (j < 4)%nat ->
  entry i j (LPS @@ M @@ LPS)
  = if lps_flips i j then - entry i j M else entry i j M.
Proof.
  intros HM Hi Hj.
  destruct (is4x4_inv HM)
    as (a00 & a01 & a02 & a03 & a10 & a11 & a12 & a13
        & a20 & a21 & a22 & a23 & a30 & a31 & a32 & a33 & ->).
  rewrite lps_conjugation.
  destruct i as [|[|[|[|i]]]]; try lia;
    destruct j as [|[|[|[|j]]]]; try lia; reflexivity.
Qed.

(** X1.  The transform that [from_ras] builds from what [to_ras] returned is
    the transform that [to_ras] was called on, for a single transform with
    4x4 parameters and for an array of at least one such transform. *)
Theorem from_ras_of_to_ras (Mov Ref : Type) (moving : option Mov)
  (reference : option Ref) (xfm : AFNILinearTransform.t R)
  (arr : AFNILinearTransformArray.t R) :
  is4x4 (AFNILinearTransform.parameters xfm) ->
  AFNILinearTransformArray.xforms arr <> [] ->
  Forall (fun x => is4x4 (AFNILinearTransform.parameters x))
    (AFNILinearTransformArray.xforms arr) ->
  AFNILinearTransform.from_ras
    (AFNILinearTransform.to_ras xfm moving reference) moving reference
  = xfm
  /\ exists ras,
       AFNILinearTransformArray.to_ras arr moving reference = Ok ras
       /\ length ras = length (AFNILinearTransformArray.xforms arr)
       /\ AFNILinearTransformArray.from_ras ras moving reference = arr.
Proof.
  assert (forall x : AFNILinearTransform.t R,
             is4x4 (AFNILinearTransform.parameters x) ->
             AFNILinearTransform.from_ras
               (AFNILinearTransform.to_ras x moving reference)
               moving reference = x) as Hone.
  { intros [ps] Hx. simpl in Hx.
    rewrite (to_ras_conjugation moving reference) by exact Hx.
    cbn [AFNILinearTransform.parameters].
    rewrite from_ras_conjugation by now apply is4x4_lps_conjugation.
    now rewrite lps_conjugation_involutive. }
  intros Hx Hne Hall. split; [now apply Hone|].
  destruct arr as [xs]. simpl in *.
  exists (map (fun x => AFNILinearTransform.to_ras x moving reference) xs).
  split; [|split].
  - unfold AFNILinearTransformArray.to_ras,
      AFNILinearTransformArray.stack. simpl.
    destruct xs; [congruence | reflexivity].
  - apply length_map.
  - unfold AFNILinearTransformArray.from_ras. f_equal.
    rewrite map_map. clear Hne.
    induction Hall as [|x l Hx' _ IH]; [reflexivity|].
    simpl. now rewrite Hone, IH.
Qed.

(** At the rotated sample as the parameters of one transform and of the
    only transform of an array. *)
Lemma from_ras_of_to_ras_witness :
  AFNILinearTransform.from_ras (Mov:=unit) (Ref:=unit)
    (AFNILinearTransform.to_ras (Mov:=unit) (Ref:=unit)
       (AFNILinearTransform.mk AffineSamples.rotated) None None)
    None None
  = AFNILinearTransform.mk AffineSamples.rotated.
Proof.
  refine (proj1 (@from_ras_of_to_ras unit unit None None
                   (AFNILinearTransform.mk AffineSamples.rotated)
                   (AFNILinearTransformArray.mk
                      [AFNILinearTransform.mk AffineSamples.rotated])
                   _ _ _)).
  - split; [reflexivity | repeat constructor].
  - discriminate.
  - repeat constructor.
Defined.

(** X2.  Both conversions change the sign of the item at row [i] and column
    [j] exactly when one of [i] and [j] is below 2 and the other is not: the
    first two items of the translation and the items that couple the third
    axis with the first two.  The bottom row [0, 0, 0, 1] of an affine is
    kept. *)
Theorem ras_conversion_signs (Mov Ref : Type) (moving : option Mov)
  (reference : option Ref) (M : matrix) :
  is4x4 M ->
  (forall i j, (i < 4)%nat -> (j < 4)%nat ->
     entry i j (AFNILinearTransform.parameters
                  (AFNILinearTransform.from_ras M moving reference))
     = (if lps_flips i j then - entry i j M else entry i j M)
     /\ entry i j (AFNILinearTransform.to_ras
                     (AFNILinearTransform.mk M) moving reference)
        = (if lps_flips i j then - entry i j M else entry i j M))
  /\ (affine_bottom_row M ->
      affine_bottom_row
        (AFNILinearTransform.parameters
           (AFNILinearTransform.from_ras M moving reference))
      /\ affine_bottom_row
           (AFNILinearTransform.to_ras
              (AFNILinearTransform.mk M) moving reference)).
Proof.
  intros HM.
  rewrite from_ras_conjugation by exact HM.
  rewrite (to_ras_conjugation moving reference) by exact HM.
  cbn [AFNILinearTransform.parameters].
  split.
  - intros i j Hi Hj. split; now apply lps_conjugation_entry.
  - intros Hb.
    destruct (is4x4_inv HM)
      as (a00 & a01 & a02 & a03 & a10 & a11 & a12 & a13
          & a20 & a21 & a22 & a23 & a30 & a31 & a32 & a33 & ->).
    unfold affine_bottom_row in *. simpl in Hb.
    injection Hb as -> -> -> ->.
    rewrite lps_conjugation. simpl. rewrite Ropp_0. auto.
Qed.

(** At the rotated sample: the first item of the translation changes
    sign. *)
Lemma ras_conversion_signs_witness :
  entry 0 3
    (AFNILinearTransform.parameters
       (AFNILinearTransform.from_ras (Mov:=unit) (Ref:=unit)
          AffineSamples.rotated None None))
  = - entry 0 3 AffineSamples.rotated.
Proof.
  refine (proj1 (proj1 (@ras_conversion_signs unit unit None None
                          AffineSamples.rotated _) 0%nat 3%nat _ _)).
  - split; [reflexivity | repeat constructor].
  - lia.
  - lia.
Defined.

(** X3.  The conversions go through composition: the parameters that
    [from_ras] gives for a product of 4x4 matrices are the product of the
    parameters of the factors, [to_ras] of a product of parameters is the
    product of the converted factors, and the identity is converted into the
    identity. *)
Theorem ras_conversion_of_product (Mov Ref : Type) (moving : option Mov)
  (reference : option Ref) (A B : matrix) :
  is4x4 A -> is4x4 B ->
  AFNILinearTransform.parameters
    (AFNILinearTransform.from_ras (A @@ B) moving reference)
  = AFNILinearTransform.parameters
      (AFNILinearTransform.from_ras A moving reference)
    @@ AFNILinearTransform.parameters
         (AFNILinearTransform.from_ras B moving reference)
  /\ AFNILinearTransform.to_ras
       (AFNILinearTransform.mk (A @@ B)) moving reference
     = AFNILinearTransform.to_ras (AFNILinearTransform.mk A) moving reference
       @@ AFNILinearTransform.to_ras (AFNILinearTransform.mk B)
            moving reference
  /\ AFNILinearTransform.from_ras eye4 moving reference
     = AFNILinearTransform.mk eye4
  /\ AFNILinearTransform.to_ras (AFNILinearTransform.mk eye4)
       moving reference
     = eye4.
Proof.
  intros HA HB.
  assert (is4x4 (A @@ B)) as HAB by now apply is4x4_matmul.
  rewrite !from_ras_conjugation by auto using is4x4_eye4.
  rewrite !(to_ras_conjugation moving reference)
    by (cbn [AFNILinearTransform.parameters]; auto using is4x4_eye4).
  cbn [AFNILinearTransform.parameters].
  rewrite lps_conjugation_eye4, lps_conjugation_matmul by assumption.
  auto.
Qed.

(** At the rotated sample and its zoom by 2, 3 and 4. *)
Lemma ras_conversion_of_product_witness :
  AFNILinearTransform.to_ras (Mov:=unit) (Ref:=unit)
    (AFNILinearTransform.mk (AffineSamples.rotated @@ zooms 2 3 4))
    None None
  = AFNILinearTransform.to_ras (Mov:=unit) (Ref:=unit)
      (AFNILinearTransform.mk AffineSamples.rotated) None None
    @@ AFNILinearTransform.to_ras (Mov:=unit) (Ref:=unit)
         (AFNILinearTransform.mk (zooms 2 3 4)) None None.
Proof.
  refine (proj1 (proj2 (@ras_conversion_of_product unit unit None None
                          AffineSamples.rotated (zooms 2 3 4) _ _)));
    (split; [reflexivity | repeat constructor]).
Defined.

(** ** The affine of the header *)

(** X5.  Once the values of the field are read, [_afni_header] raises
    nothing.  Twelve values come back as the 4x4 affine whose first three
    rows hold them in order and whose last row is [0, 0, 0, 1]; with
    [to_ras] set, that affine is converted as [AFNILinearTransform.to_ras]
    converts the parameters of a transform, and is still an affine.  Any
    other number of values (the sixteen of a whole 4x4 matrix as well) comes
    back flat and as read, whatever [to_ras] is. *)
Theorem afni_header_affine (Nii : Type)
  (attribute_values : Nii -> str -> list R) (nii : Nii) (field : str) :
  (length (attribute_values nii field) = 12%nat ->
   exists M,
     _afni_header attribute_values nii field false = Ok (Affine M)
     /\ is4x4 M /\ affine_bottom_row M
     /\ concat (firstn 3 M) = attribute_values nii field
     /\ _afni_header attribute_values nii field true
        = Ok (Affine (AFNILinearTransform.to_ras (Mov:=unit) (Ref:=unit)
                        (AFNILinearTransform.mk M) None None))
     /\ affine_bottom_row
          (AFNILinearTransform.to_ras (Mov:=unit) (Ref:=unit)
             (AFNILinearTransform.mk M) None None))
  /\ (length (attribute_values nii field) <> 12%nat ->
      forall to_ras,
        _afni_header attribute_values nii field to_ras
        = Ok (Flat (attribute_values nii field))).
Proof.
  unfold _afni_header. split.
  - intros Hlen. rewrite Hlen. cbn [Nat.eqb].
    destruct (reshape_3_4_length _ Hlen)
      as (a0 & a1 & a2 & a3 & a4 & a5 & a6 & a7 & a8 & a9 & a10 & a11
          & Hv & Hr).
    rewrite Hr. cbn [bind app].
    set (M := [[a0; a1; a2; a3]; [a4; a5; a6; a7]; [a8; a9; a10; a11];
               [0; 0; 0; 1]]).
    assert (is4x4 M) as HM by (split; [reflexivity | repeat constructor]).
    exists M. split; [reflexivity|]. split; [exact HM|].
    split; [reflexivity|]. split; [now rewrite Hv|].
    rewrite (to_ras_conjugation None None)
      by (cbn [AFNILinearTransform.parameters]; exact HM).
    cbn [AFNILinearTransform.parameters].
    split; [reflexivity|].
    unfold M, affine_bottom_row. rewrite lps_conjugation. simpl.
    now rewrite Ropp_0.
  - intros Hlen to_ras.
    apply Nat.eqb_neq in Hlen. now rewrite Hlen.
Qed.

(** At a header that holds the twelve values of a translation. *)
Lemma afni_header_affine_witness :
  exists M,
    _afni_header (fun (_ : unit) (_ : str) =>
                    [1; 0; 0; 10; 0; 1; 0; 20; 0; 0; 1; 30])
      tt WARPDRIVE_FIELD true
    = Ok (Affine M)
    /\ affine_bottom_row M.
Proof.
  destruct (proj1 (@afni_header_affine unit
                     (fun _ _ => [1; 0; 0; 10; 0; 1; 0; 20; 0; 0; 1; 30])
                     tt WARPDRIVE_FIELD) eq_refl)
    as (M & _ & _ & _ & _ & Hras & Hb).
  eexists. split; [exact Hras | exact Hb].
Defined.

(** ** Further properties of the displacements field *)

Section FieldProperties.
Import AFNIDisplacementsField.

Lemma mapi_from_map_Rabs (f : nat -> R -> R) (l : list R) (k : nat) :
  (forall i x, Rabs (f i x) = Rabs x) ->
  map Rabs (mapi_from k f l) = map Rabs l.
Proof.
  intros Hf. revert k. induction l as [|x t IH]; intros k; [reflexivity|].
  simpl. now rewrite Hf, IH.
Qed.

Lemma filter_length_le {A : Type} (p : A -> bool) (l : list A) :
  (length (filter p l) <= length l)%nat.
Proof.
  induction l as [|x t IH]; simpl; [lia|].
  destruct (p x); simpl; lia.
Qed.

(** A field that [from_image] accepts, and what it returns. *)
Lemma from_image_ok_inv (imgobj field : image) :
  from_image imgobj = Ok field ->
  afni_shape (get_data_shape imgobj)
  /\ dtype (dataobj imgobj) = floating
  /\ field
     = mk_image
         (mk_ndarray floating (shape (squeeze (dataobj imgobj)))
            (mapi_from 0
               (fun k x =>
                  if (Nat.modulo k
                        (from_end 1 (shape (squeeze (dataobj imgobj))))
                      <? 2)%nat
                  then x * -1 else x)
               (data (dataobj imgobj))))
         (affine imgobj) None.
Proof.
  unfold from_image. intros Hok.
  destruct (negb (length (get_data_shape imgobj) =? 5)%nat
            || negb (from_end 2 (get_data_shape imgobj) =? 1)%nat
            || negb ((from_end 1 (get_data_shape imgobj) =? 2)%nat
                     || (from_end 1 (get_data_shape imgobj) =? 3)%nat))
    eqn:E; [discriminate|].
  apply afni_shape_dec in E.
  unfold negate_first_two in Hok. cbn [squeeze dtype] in Hok.
  destruct (dtype (dataobj imgobj)); [|discriminate].
  cbn [bind] in Hok. injection Hok as <-. auto.
Qed.

(** The cube sample has two components, which are both negated. *)
Lemma from_image_cube_field :
  from_image FieldSamples.cube_field
  = Ok (mk_image
          (mk_ndarray floating [2; 2; 2; 2]%nat
             [-1; -2; -3; -4; -5; -6; -7; -8; -9; -10; -11; -12; -13; -14;
              -15; -16])
          eye4 None).
Proof.
  unfold from_image. simpl. unfold negate_first_two. simpl.
  do 3 f_equal. list_eq; ring.
Qed.

(** X6.  Whatever field [from_image] accepts, the image returned has the
    affine of the input and is not on disk, and its data are those of the
    input in the same order, each either kept or negated: the absolute
    values are unchanged. *)
Theorem from_image_changes_signs_only (imgobj field : image) :
  from_image imgobj = Ok field ->
  affine field = affine imgobj
  /\ filename field = None
  /\ map Rabs (data (dataobj field)) = map Rabs (data (dataobj imgobj)).
Proof.
  intros Hok. destruct (from_image_ok_inv imgobj Hok) as (_ & _ & ->).
  split; [reflexivity|]. split; [reflexivity|].
  cbn [dataobj data].
  apply mapi_from_map_Rabs. intros i x.
  destruct (_ <? 2)%nat; [|reflexivity].
  replace (x * -1) with (- x) by ring. apply Rabs_Ropp.
Qed.

Lemma from_image_changes_signs_only_witness :
  map Rabs
    [-1; -2; -3; -4; -5; -6; -7; -8; -9; -10; -11; -12; -13; -14; -15; -16]
  = map Rabs [1; 2; 3; 4; 5; 6; 7; 8; 9; 10; 11; 12; 13; 14; 15; 16].
Proof.
  exact (proj2 (proj2 (@from_image_changes_signs_only
                         FieldSamples.cube_field _ from_image_cube_field))).
Defined.

(** X7.  The image that [from_image] returns is never one that [from_image]
    accepts: its data have at most four axes, and a second call raises
    [TransformFileError], with the file name [None] in the message. *)
Theorem from_image_output_not_accepted (imgobj field : image) :
  from_image imgobj = Ok field ->
  (length (get_data_shape field) <= 4)%nat
  /\ from_image field
     = Raise (TransformFileError
                (py "Displacements field " ++ [QUOTE] ++ py "None"
                   ++ [QUOTE] ++ py " does not come from AFNI.")).
Proof.
  intros Hok. destruct (from_image_ok_inv imgobj Hok) as (Ha & _ & ->).
  destruct Ha as (X & Y & Z & C & Hs & HC).
  match goal with
  | |- (length (get_data_shape ?f) <= 4)%nat /\ _ =>
      assert (length (get_data_shape f) <= 4)%nat as Hlen
  end.
  { unfold get_data_shape in *.
    cbn [dataobj shape squeeze]. rewrite Hs.
    change [X; Y; Z; 1%nat; C] with ([X; Y; Z] ++ [1%nat] ++ [C]).
    rewrite !filter_app, !length_app.
    pose proof (filter_length_le (fun n => negb (n =? 1)%nat) [X; Y; Z]).
    pose proof (filter_length_le (fun n => negb (n =? 1)%nat) [C]).
    simpl in *. lia. }
  split; [exact Hlen|].
  unfold from_image at 1.
  replace (length _ =? 5)%nat with false
    by (symmetry; apply Nat.eqb_neq; lia).
  reflexivity.
Qed.

Lemma from_image_output_not_accepted_witness :
  from_image
    (mk_image
       (mk_ndarray floating [2; 2; 2; 2]%nat
          [-1; -2; -3; -4; -5; -6; -7; -8; -9; -10; -11; -12; -13; -14;
           -15; -16])
       eye4 None)
  = Raise (TransformFileError
             (py "Displacements field " ++ [QUOTE] ++ py "None"
                ++ [QUOTE] ++ py " does not come from AFNI.")).
Proof.
  exact (proj2 (@from_image_output_not_accepted
                  FieldSamples.cube_field _ from_image_cube_field)).
Defined.


End FieldProperties.

(** ** Further properties of the obliquity test *)

(** The obliquity of a 4x4 affine, row by row. *)
Lemma obliquity_4x4
  (a00 a01 a02 a03 a10 a11 a12 a13 a20 a21 a22 a23 a30 a31 a32 a33 : R) :
  let v0 := norm3 a00 a10 a20 in
  let v1 := norm3 a01 a11 a21 in
  let v2 := norm3 a02 a12 a22 in
  obliquity [[a00; a01; a02; a03]; [a10; a11; a12; a13];
             [a20; a21; a22; a23]; [a30; a31; a32; a33]]
  = [acos (max3 (a00 / v0) (a01 / v1) (a02 / v2));
     acos (max3 (a10 / v0) (a11 / v1) (a12 / v2));
     acos (max3 (a20 / v0) (a21 / v1) (a22 / v2))].
Proof. reflexivity. Qed.

Lemma voxel_sizes_4x4
  (a00 a01 a02 a03 a10 a11 a12 a13 a20 a21 a22 a23 a30 a31 a32 a33 : R) :
  voxel_sizes [[a00; a01; a02; a03]; [a10; a11; a12; a13];
               [a20; a21; a22; a23]; [a30; a31; a32; a33]]
  = [norm3 a00 a10 a20; norm3 a01 a11 a21; norm3 a02 a12 a22].
Proof. reflexivity. Qed.

Lemma is_oblique_false (affine : matrix) (thres : R) :
  0 <= thres -> list_min (obliquity affine) <= 0 ->
  _is_oblique affine thres = false.
Proof.
  intros Ht Hm. unfold _is_oblique.
  destruct (Rlt_dec _ _) as [Hlt|_]; [|reflexivity].
  exfalso. pose proof PI_RGT_0 as Hpi.
  assert (0 < / PI) as Hinv by now apply Rinv_0_lt_compat.
  unfold Rdiv in Hlt. nra.
Qed.

Lemma norm3_square (a b c : R) :
  norm3 a b c * norm3 a b c = a * a + (b * b + (c * c + 0)).
Proof.
  unfold norm3. apply sqrt_sqrt. nra.
Qed.

Lemma norm3_pos (a b c : R) : 0 <= norm3 a b c.
Proof. apply sqrt_pos. Qed.

Lemma norm3_axis (a : R) :
  norm3 a 0 0 = Rabs a /\ norm3 0 a 0 = Rabs a /\ norm3 0 0 a = Rabs a.
Proof.
  unfold norm3. repeat split.
  - replace (a * a + (0 * 0 + (0 * 0 + 0))) with (Rsqr a)
      by (unfold Rsqr; ring).
    apply sqrt_Rsqr_abs.
  - replace (0 * 0 + (a * a + (0 * 0 + 0))) with (Rsqr a)
      by (unfold Rsqr; ring).
    apply sqrt_Rsqr_abs.
  - replace (0 * 0 + (0 * 0 + (a * a + 0))) with (Rsqr a)
      by (unfold Rsqr; ring).
    apply sqrt_Rsqr_abs.
Qed.

Lemma Rabs_div_Rabs (a : R) : Rabs a <> 0 -> Rabs (a / Rabs a) = 1.
Proof.
  intros Ha. unfold Rdiv. rewrite Rabs_mult, Rabs_inv, Rabs_Rabsolu.
  now apply Rinv_r.
Qed.

Lemma Rabs_zero_div (v : R) : Rabs (0 / v) = 0.
Proof. unfold Rdiv. rewrite Rmult_0_l. apply Rabs_R0. Qed.

(** The cosine of an axis that lies along a cardinal direction. *)
Lemma max3_aligned (x y : R) :
  max3 x 0 0 = Rabs x /\ max3 0 x 0 = Rabs x /\ max3 0 0 x = Rabs x.
Proof.
  unfold max3. rewrite Rabs_R0. pose proof (Rabs_pos x).
  repeat split.
  - rewrite (Rmax_left (Rabs x) 0), Rmax_left; lra.
  - rewrite (Rmax_right 0 (Rabs x)), Rmax_left; lra.
  - rewrite (Rmax_left 0 0), Rmax_right; lra.
Qed.

(** X9.  An affine one of whose axes lies along a cardinal direction is
    never oblique, however the two other axes are turned: in row [k] and in
    column [k] of the rotation part only the item on the diagonal is not
    zero.  The test takes the smallest of the three angles, and the angle of
    that axis is zero.  The item on the diagonal is taken between 1e-150
    and 1e150 in absolute value, so that its square, which the voxel size
    is computed from, is within the range of float64. *)
Theorem is_oblique_aligned_axis (affine : matrix) (thres : R) (k : nat) :
  is4x4 affine -> (k < 3)%nat -> 0 <= thres ->
  / 10 ^ 150 <= Rabs (entry k k affine) <= 10 ^ 150 ->
  (forall j, (j < 3)%nat -> j <> k ->
     entry k j affine = 0 /\ entry j k affine = 0) ->
  _is_oblique affine thres = false.
Proof.
  intros H4 Hk Ht Hb Hz.
  assert (0 < / 10 ^ 150) as Hpos
      by (apply Rinv_0_lt_compat, pow_lt; lra).
  destruct (is4x4_inv H4)
    as (a00 & a01 & a02 & a03 & a10 & a11 & a12 & a13
        & a20 & a21 & a22 & a23 & a30 & a31 & a32 & a33 & ->).
  apply is_oblique_false; [exact Ht|].
  rewrite obliquity_4x4. unfold list_min. cbn [fold_left].
  unfold entry in Hz, Hb. cbn [nth] in Hz.
  destruct k as [|[|[|k]]]; try lia; cbn [nth] in Hb.
  - destruct (Hz 1%nat) as [E01 E10]; [lia | lia |].
    destruct (Hz 2%nat) as [E02 E20]; [lia | lia |].
    cbn [nth] in *. subst.
    destruct (norm3_axis a00) as (E & _ & _). rewrite E in *.
    unfold Rdiv at 2 3. rewrite !Rmult_0_l.
    destruct (max3_aligned (a00 / Rabs a00) 0) as (-> & _ & _).
    rewrite Rabs_div_Rabs by lra. rewrite acos_1.
    eapply Rle_trans; [apply Rmin_l|]. apply Rmin_l.
  - destruct (Hz 0%nat) as [E10 E01]; [lia | lia |].
    destruct (Hz 2%nat) as [E12 E21]; [lia | lia |].
    cbn [nth] in *. subst.
    destruct (norm3_axis a11) as (_ & E & _). rewrite E in *.
    unfold Rdiv at 4 6. rewrite !Rmult_0_l.
    destruct (max3_aligned (a11 / Rabs a11) 0) as (_ & -> & _).
    rewrite Rabs_div_Rabs by lra. rewrite acos_1.
    eapply Rle_trans; [apply Rmin_l|]. apply Rmin_r.
  - destruct (Hz 0%nat) as [E20 E02]; [lia | lia |].
    destruct (Hz 1%nat) as [E21 E12]; [lia | lia |].
    cbn [nth] in *. subst.
    destruct (norm3_axis a22) as (_ & _ & E). rewrite E in *.
    unfold Rdiv at 7 8. rewrite !Rmult_0_l.
    destruct (max3_aligned (a22 / Rabs a22) 0) as (_ & _ & ->).
    rewrite Rabs_div_Rabs by lra. rewrite acos_1.
    apply Rmin_r.
Qed.

Lemma norm3_nonzero (a b c : R) :
  0 < a * a + (b * b + (c * c + 0)) -> norm3 a b c <> 0.
Proof.
  intros Hpos. unfold norm3. pose proof (sqrt_lt_R0 _ Hpos). lra.
Qed.

Lemma float64_range (x : R) : 1 <= x <= 10 -> / 10 ^ 150 <= x <= 10 ^ 150.
Proof.
  intros [H1 H10].
  assert (1 <= 10 ^ 150) as Hp by (apply pow_R1_Rle; lra).
  assert (10 <= 10 ^ 150) as Hp10.
  { replace 10 with (10 ^ 1) at 1 by ring. apply Rle_pow; [lra | lia]. }
  assert (/ 10 ^ 150 <= 1) as Hi.
  { rewrite <- Rinv_1. apply Rinv_le_contravar; lra. }
  lra.
Qed.

(** The rotated sample turns about its third axis by more than 36
    degrees, and is not oblique by the default threshold. *)
Lemma is_oblique_aligned_axis_witness :
  _is_oblique_default AffineSamples.rotated = false.
Proof.
  refine (@is_oblique_aligned_axis AffineSamples.rotated
            OBLIQUITY_THRESHOLD_DEG 2 _ _ _ _ _).
  - split; [reflexivity | repeat constructor].
  - lia.
  - unfold OBLIQUITY_THRESHOLD_DEG. lra.
  - unfold entry, AffineSamples.rotated. cbn [nth].
    apply float64_range. rewrite Rabs_pos_eq; lra.
  - intros j Hj Hjk. unfold entry, AffineSamples.rotated.
    destruct j as [|[|j]]; [split; reflexivity | split; reflexivity | lia].
Defined.

(** *** Invariance *)

Lemma norm3_zoom (a b c s : R) :
  norm3 (a * s) (b * s) (c * s) = Rabs s * norm3 a b c.
Proof.
  unfold norm3.
  replace (a * s * (a * s) + (b * s * (b * s) + (c * s * (c * s) + 0)))
    with (Rsqr s * (a * a + (b * b + (c * c + 0))))
    by (unfold Rsqr; ring).
  rewrite sqrt_mult_alt by apply Rle_0_sqr.
  now rewrite sqrt_Rsqr_abs.
Qed.

Lemma cosine_zoom (x s v : R) :
  s <> 0 -> v <> 0 -> Rabs (x * s / (Rabs s * v)) = Rabs (x / v).
Proof.
  intros Hs Hv.
  assert (Rabs s <> 0) as Hs' by now apply Rabs_no_R0.
  assert (Rabs v <> 0) as Hv' by now apply Rabs_no_R0.
  unfold Rdiv. rewrite !Rabs_mult, !Rabs_inv, Rabs_mult, Rabs_Rabsolu.
  now field.
Qed.

Lemma norm3_opp (a b c : R) :
  norm3 (- a) b c = norm3 a b c /\ norm3 a (- b) c = norm3 a b c
  /\ norm3 a b (- c) = norm3 a b c.
Proof.
  unfold norm3. repeat split; f_equal; ring.
Qed.

Lemma Rabs_opp_div (x v : R) : Rabs (- x / v) = Rabs (x / v).
Proof.
  replace (- x / v) with (- (x / v)) by (unfold Rdiv; ring).
  apply Rabs_Ropp.
Qed.

Lemma zoomed_4x4
  (a00 a01 a02 a03 a10 a11 a12 a13 a20 a21 a22 a23 a30 a31 a32 a33
   s0 s1 s2 : R) :
  [[a00; a01; a02; a03]; [a10; a11; a12; a13];
   [a20; a21; a22; a23]; [a30; a31; a32; a33]] @@ zooms s0 s1 s2
  = [[a00 * s0; a01 * s1; a02 * s2; a03];
     [a10 * s0; a11 * s1; a12 * s2; a13];
     [a20 * s0; a21 * s1; a22 * s2; a23];
     [a30 * s0; a31 * s1; a32 * s2; a33]].
Proof. unfold zooms. rewrite matmul_4x4. list_eq; ring. Qed.

(** X10.  In exact arithmetic the obliquity does not depend on the voxel
    sizes or on the direction in which an axis runs: scaling the three axes
    of an affine by non-zero zooms, of either sign, leaves the three
    angles, and the angle in degrees that [_is_oblique] compares with the
    threshold, as they were. *)
Theorem obliquity_zoom_invariant (affine : matrix) (s0 s1 s2 : R) :
  is4x4 affine -> s0 <> 0 -> s1 <> 0 -> s2 <> 0 ->
  Forall (fun v => v <> 0) (voxel_sizes affine) ->
  obliquity (affine @@ zooms s0 s1 s2) = obliquity affine
  /\ list_min (obliquity (affine @@ zooms s0 s1 s2)) * 180 / PI
     = list_min (obliquity affine) * 180 / PI.
Proof.
  intros H4 Hs0 Hs1 Hs2 Hvs.
  assert (obliquity (affine @@ zooms s0 s1 s2) = obliquity affine) as Ho.
  { destruct (is4x4_inv H4)
      as (a00 & a01 & a02 & a03 & a10 & a11 & a12 & a13
          & a20 & a21 & a22 & a23 & a30 & a31 & a32 & a33 & ->).
    rewrite voxel_sizes_4x4 in Hvs.
    inversion Hvs as [|? ? Hv0 Hvs1]; subst.
    inversion Hvs1 as [|? ? Hv1 Hvs2]; subst.
    inversion Hvs2 as [|? ? Hv2 _]; subst. clear Hvs Hvs1 Hvs2.
    rewrite zoomed_4x4, !obliquity_4x4, !norm3_zoom.
    unfold max3. now rewrite !cosine_zoom by assumption. }
  split; [exact Ho | now rewrite Ho].
Qed.

Lemma obliquity_zoom_invariant_witness :
  obliquity (AffineSamples.sheared @@ zooms 2 (-3) 4)
  = obliquity AffineSamples.sheared.
Proof.
  refine (proj1 (@obliquity_zoom_invariant AffineSamples.sheared
                   2 (-3) 4 _ _ _ _ _));
    try lra.
  - split; [reflexivity | repeat constructor].
  - unfold AffineSamples.sheared. rewrite voxel_sizes_4x4.
    repeat constructor; apply norm3_nonzero; lra.
Defined.

(** X11.  The obliquity is the same in the two sign conventions: the angles
    of [LPS @ affine @ LPS], and the answer of [_is_oblique] on it, are
    those of [affine]. *)
Theorem is_oblique_lps_invariant (affine : matrix) (thres : R) :
  is4x4 affine ->
  obliquity (LPS @@ affine @@ LPS) = obliquity affine
  /\ _is_oblique (LPS @@ affine @@ LPS) thres = _is_oblique affine thres.
Proof.
  intros H4.
  assert (obliquity (LPS @@ affine @@ LPS) = obliquity affine) as Ho.
  { destruct (is4x4_inv H4)
      as (a00 & a01 & a02 & a03 & a10 & a11 & a12 & a13
          & a20 & a21 & a22 & a23 & a30 & a31 & a32 & a33 & ->).
    rewrite lps_conjugation, !obliquity_4x4.
    destruct (norm3_opp a00 a10 a20) as (_ & _ & ->).
    destruct (norm3_opp a01 a11 a21) as (_ & _ & ->).
    destruct (norm3_opp a02 a12 a22) as (E & _ & _).
    destruct (norm3_opp (- a02) a12 a22) as (_ & E' & _).
    rewrite E', E. unfold max3. now rewrite !Rabs_opp_div. }
  split; [exact Ho|]. unfold _is_oblique. now rewrite Ho.
Qed.

Lemma is_oblique_lps_invariant_witness :
  _is_oblique (LPS @@ AffineSamples.sheared @@ LPS) OBLIQUITY_THRESHOLD_DEG
  = _is_oblique AffineSamples.sheared OBLIQUITY_THRESHOLD_DEG.
Proof.
  refine (proj2 (@is_oblique_lps_invariant AffineSamples.sheared
                   OBLIQUITY_THRESHOLD_DEG _)).
  split; [reflexivity | repeat constructor].
Defined.

(** ** Further properties of the warpdrive matrix *)

Lemma inverse_unique_4x4 (A B C : matrix) :
  is4x4 A -> is4x4 B -> is4x4 C ->
  B @@ A = eye4 -> A @@ C = eye4 -> B = C.
Proof.
  intros HA HB HC HBA HAC.
  rewrite <- (matmul_eye4_r HB), <- HAC.
  rewrite <- matmul_assoc_4x4 by assumption.
  rewrite HBA. now apply matmul_eye4_l.
Qed.

Lemma inv_eye4 : inv eye4 = Ok eye4.
Proof.
  destruct (@inv_4x4 eye4 is4x4_eye4) as (M & Hinv & HM & Hl & _).
  - rewrite det_eye4. lra.
  - rewrite matmul_eye4_l in Hl by exact HM. now rewrite Hinv, Hl.
Qed.

Lemma is4x4_plumb_affine (oblique : matrix) (shape : list nat) :
  is4x4 oblique -> (3 <= length shape)%nat ->
  is4x4 (plumb_affine oblique shape).
Proof.
  intros H4 Hshape.
  destruct shape as [|s0 [|s1 [|s2 more]]]; try (simpl in Hshape; lia).
  destruct (is4x4_inv H4)
    as (a00 & a01 & a02 & a03 & a10 & a11 & a12 & a13
        & a20 & a21 & a22 & a23 & a30 & a31 & a32 & a33 & ->).
  destruct (plumb_affine_4x4 a00 a01 a02 a03 a10 a11 a12 a13
              a20 a21 a22 a23 a30 a31 a32 a33 s0 s1 s2 more)
    as (t0 & t1 & t2 & -> & _).
  split; [reflexivity | repeat constructor].
Qed.

(** The forward matrix of an invertible affine. *)
Lemma afni_warpdrive_forward (oblique : matrix) (shape : list nat) :
  is4x4 oblique -> det 4 oblique <> 0 -> (3 <= length shape)%nat ->
  exists A',
    inv oblique = Ok A' /\ is4x4 A'
    /\ oblique @@ A' = eye4 /\ A' @@ oblique = eye4
    /\ is4x4 (plumb_affine oblique shape @@ A')
    /\ forall forward ras,
         _afni_warpdrive oblique shape forward ras
         = let R0 := plumb_affine oblique shape @@ A' in
           let R1 := if ras then R0 else LPS @@ R0 @@ LPS in
           if forward then Ok R1 else inv R1.
Proof.
  intros H4 Hdet Hshape.
  destruct (inv_4x4 H4 Hdet) as (A' & HinvA & H4A' & HAA' & HA'A).
  exists A'. repeat (split; [assumption|]).
  split; [apply is4x4_matmul; auto using is4x4_plumb_affine|].
  intros forward ras. unfold _afni_warpdrive. rewrite HinvA.
  destruct ras; reflexivity.
Qed.

(** X12.  When some row of the rotation part of an invertible affine
    holds no item that is the largest of its column, in absolute value, the
    plumb affine has that row zeroed and is singular: the forward matrix is
    returned, and asking for the inverse one ([forward=False]) raises
    [LinAlgError], in either sign convention. *)
Theorem afni_warpdrive_raises (oblique : matrix) (shape : list nat)
  (ras : bool) (i : nat) :
  is4x4 oblique -> affine_bottom_row oblique -> det 4 oblique <> 0 ->
  (3 <= length shape)%nat -> (i < 3)%nat ->
  (forall j, (j < 3)%nat ->
     Rabs (entry i j oblique)
     < list_max (map Rabs (column j (firstn 3 oblique)))) ->
  (forall j, (j < 3)%nat -> entry i j (plumb_affine oblique shape) = 0)
  /\ det 4 (plumb_affine oblique shape) = 0
  /\ succeeds (_afni_warpdrive oblique shape true ras)
  /\ _afni_warpdrive oblique shape false ras = Raise LinAlgError.
Proof.
  intros H4 Hb Hdet Hshape Hi Hrow.
  pose proof (is4x4_plumb_affine shape H4 Hshape) as H4p.
  destruct (plumb_affine_zeroed_row shape H4 Hshape Hi Hrow)
    as [Hzero Hsing].
  split; [exact Hzero|]. split; [exact Hsing|]. split.
  - destruct (afni_warpdrive_forward shape H4 Hdet Hshape)
      as (A' & _ & _ & _ & _ & _ & Hw).
    rewrite Hw. cbv zeta. eexists. reflexivity.
  - now apply afni_warpdrive_backward.
Qed.

(** At the sheared sample, whose second row holds no largest item. *)
Lemma afni_warpdrive_raises_witness :
  _afni_warpdrive AffineSamples.sheared AffineSamples.grid false true
  = Raise LinAlgError.
Proof.
  refine (proj2 (proj2 (proj2
            (@afni_warpdrive_raises AffineSamples.sheared
               AffineSamples.grid true 1 is4x4_sheared eq_refl det_sheared
               (le_n 3) _ _)))).
  - lia.
  - intros j Hj. unfold entry, column, list_max, AffineSamples.sheared.
    destruct j as [|[|[|j]]]; try lia; cbn [nth map firstn fold_left];
      rewrite ?Rabs_R0, !Rabs_pos_eq by lra;
      repeat first [ rewrite (Rmax_left 4 3) by lra
                   | rewrite (Rmax_left 4 0) by lra
                   | rewrite (Rmax_right 0 3) by lra
                   | rewrite (Rmax_right 3 4) by lra
                   | rewrite (Rmax_right 0 4) by lra ];
      lra.
Defined.

(** X13.  The matrix for the LPS convention ([ras=False]) is the matrix for
    the RAS convention conjugated by [LPS], for the inverse matrix
    ([forward=False]) as for the forward one; and the call raises for one
    convention exactly when it raises for the other, with the same
    exception. *)
Theorem afni_warpdrive_lps (oblique : matrix) (shape : list nat)
  (forward : bool) :
  is4x4 oblique -> (3 <= length shape)%nat ->
  _afni_warpdrive oblique shape forward false
  = (R0 <- _afni_warpdrive oblique shape forward true ;;
     Ok (LPS @@ R0 @@ LPS)).
Proof.
  intros H4 Hshape.
  destruct (Req_dec_T (det 4 oblique) 0) as [Hdet|Hdet].
  { unfold _afni_warpdrive. now rewrite (inv_singular H4 Hdet). }
  destruct (afni_warpdrive_forward shape H4 Hdet Hshape)
    as (A' & _ & _ & _ & _ & H4R & Hw).
  rewrite !Hw. cbv zeta.
  set (R0 := plumb_affine oblique shape @@ A') in *.
  destruct forward; [reflexivity|].
  pose proof (is4x4_lps_conjugation H4R) as H4L.
  destruct (Req_dec_T (det 4 R0) 0) as [HR|HR].
  - rewrite (inv_singular H4R HR).
    rewrite inv_singular;
      [reflexivity | exact H4L | now rewrite det_lps_conjugation].
  - destruct (inv_4x4 H4R HR) as (Ri & -> & H4Ri & Hl & Hr).
    destruct (@inv_4x4 (LPS @@ R0 @@ LPS) H4L) as (X & -> & H4X & Hl' & _).
    { now rewrite det_lps_conjugation. }
    cbn [bind]. do 2 f_equal. symmetry.
    apply (@inverse_unique_4x4 (LPS @@ R0 @@ LPS));
      auto using is4x4_lps_conjugation.
    rewrite <- lps_conjugation_matmul by assumption.
    rewrite Hr. apply lps_conjugation_eye4.
Qed.

Lemma afni_warpdrive_lps_witness :
  _afni_warpdrive AffineSamples.rotated AffineSamples.grid false false
  = (R0 <- _afni_warpdrive AffineSamples.rotated AffineSamples.grid
             false true ;;
     Ok (LPS @@ R0 @@ LPS)).
Proof.
  exact (@afni_warpdrive_lps AffineSamples.rotated AffineSamples.grid false
           is4x4_rotated (le_n 3)).
Defined.

Lemma matvec_matmul_4x4 (A B : matrix) (x y z w : R) :
  is4x4 A -> is4x4 B ->
  matvec (A @@ B) [x; y; z; w] = matvec A (matvec B [x; y; z; w]).
Proof.
  intros HA HB.
  destruct (is4x4_inv HA)
    as (a00 & a01 & a02 & a03 & a10 & a11 & a12 & a13
        & a20 & a21 & a22 & a23 & a30 & a31 & a32 & a33 & ->).
  destruct (is4x4_inv HB)
    as (b00 & b01 & b02 & b03 & b10 & b11 & b12 & b13
        & b20 & b21 & b22 & b23 & b30 & b31 & b32 & b33 & ->).
  rewrite matmul_4x4. unfold matvec, dot, rsum. simpl. list_eq; ring.
Qed.

Lemma grid_center_4 (shape : list nat) :
  (3 <= length shape)%nat ->
  exists x y z, grid_center shape = [x; y; z; 1].
Proof.
  intros Hshape.
  destruct shape as [|s0 [|s1 [|s2 more]]]; try (simpl in Hshape; lia).
  unfold grid_center. simpl. eauto.
Qed.

(** The inverse of an affine is an affine. *)
Lemma inverse_bottom_row (A A' : matrix) :
  is4x4 A -> is4x4 A' -> affine_bottom_row A -> A @@ A' = eye4 ->
  affine_bottom_row A'.
Proof.
  intros HA HA' Hb E.
  destruct (is4x4_inv HA)
    as (a00 & a01 & a02 & a03 & a10 & a11 & a12 & a13
        & a20 & a21 & a22 & a23 & a30 & a31 & a32 & a33 & ->).
  destruct (is4x4_inv HA')
    as (b00 & b01 & b02 & b03 & b10 & b11 & b12 & b13
        & b20 & b21 & b22 & b23 & b30 & b31 & b32 & b33 & ->).
  unfold affine_bottom_row in *. simpl in Hb.
  injection Hb as -> -> -> ->.
  rewrite matmul_4x4 in E. unfold eye4 in E.
  apply (f_equal (fun M => nth 3 M [])) in E. simpl in E.
  injection E as E0 E1 E2 E3. simpl. list_eq; lra.
Qed.

Lemma matmul_bottom_row (A B : matrix) :
  is4x4 A -> is4x4 B -> affine_bottom_row A -> affine_bottom_row B ->
  affine_bottom_row (A @@ B).
Proof.
  intros HA HB Ha Hb.
  destruct (is4x4_inv HA)
    as (a00 & a01 & a02 & a03 & a10 & a11 & a12 & a13
        & a20 & a21 & a22 & a23 & a30 & a31 & a32 & a33 & ->).
  destruct (is4x4_inv HB)
    as (b00 & b01 & b02 & b03 & b10 & b11 & b12 & b13
        & b20 & b21 & b22 & b23 & b30 & b31 & b32 & b33 & ->).
  unfold affine_bottom_row in *. simpl in Ha, Hb.
  injection Ha as -> -> -> ->. injection Hb as -> -> -> ->.
  rewrite matmul_4x4. simpl. list_eq; ring.
Qed.

(** The plumb affine of a 4x4 affine and what it does to the center of
    the grid. *)
Lemma plumb_affine_center (oblique : matrix) (shape : list nat) :
  is4x4 oblique -> affine_bottom_row oblique -> (3 <= length shape)%nat ->
  affine_bottom_row (plumb_affine oblique shape)
  /\ matvec (plumb_affine oblique shape) (grid_center shape)
     = matvec oblique (grid_center shape).
Proof.
  intros H4 Hb Hshape.
  destruct shape as [|s0 [|s1 [|s2 more]]]; try (simpl in Hshape; lia).
  destruct (is4x4_inv H4)
    as (a00 & a01 & a02 & a03 & a10 & a11 & a12 & a13
        & a20 & a21 & a22 & a23 & a30 & a31 & a32 & a33 & ->).
  destruct (plumb_affine_4x4 a00 a01 a02 a03 a10 a11 a12 a13
              a20 a21 a22 a23 a30 a31 a32 a33 s0 s1 s2 more)
    as (t0 & t1 & t2 & Hp & _ & Hcenter).
  unfold affine_bottom_row in Hb. simpl in Hb.
  injection Hb as E0 E1 E2 E3.
  split; [rewrite Hp; reflexivity | now apply Hcenter].
Qed.

(** X14.  The forward matrix for the RAS convention is an affine, and it
    leaves the point where [oblique] puts the center of the grid where it
    is: the grid is turned about its center. *)
Theorem afni_warpdrive_fixes_center (oblique : matrix) (shape : list nat) :
  is4x4 oblique -> affine_bottom_row oblique -> det 4 oblique <> 0 ->
  (3 <= length shape)%nat ->
  exists R0,
    _afni_warpdrive oblique shape true true = Ok R0
    /\ is4x4 R0 /\ affine_bottom_row R0
    /\ matvec R0 (matvec oblique (grid_center shape))
       = matvec oblique (grid_center shape).
Proof.
  intros H4 Hb Hdet Hshape.
  destruct (afni_warpdrive_forward shape H4 Hdet Hshape)
    as (A' & _ & H4A' & HAA' & HA'A & H4R & Hw).
  pose proof (is4x4_plumb_affine shape H4 Hshape) as H4p.
  destruct (plumb_affine_center shape H4 Hb Hshape) as [Hpb Hcenter].
  exists (plumb_affine oblique shape @@ A').
  split; [now rewrite Hw|]. split; [exact H4R|]. split.
  - apply matmul_bottom_row; auto.
    now apply (inverse_bottom_row H4 H4A' Hb).
  - destruct (grid_center_4 shape Hshape) as (x & y & z & Ec).
    rewrite Ec in *.
    rewrite <- matvec_matmul_4x4 by assumption.
    rewrite matmul_assoc_4x4, HA'A by assumption.
    rewrite matmul_eye4_r by assumption. exact Hcenter.
Qed.

Lemma afni_warpdrive_fixes_center_witness :
  exists R0,
    _afni_warpdrive AffineSamples.sheared AffineSamples.grid true true
    = Ok R0
    /\ matvec R0 (matvec AffineSamples.sheared
                    (grid_center AffineSamples.grid))
       = matvec AffineSamples.sheared (grid_center AffineSamples.grid).
Proof.
  destruct (@afni_warpdrive_fixes_center AffineSamples.sheared
              AffineSamples.grid is4x4_sheared eq_refl det_sheared
              (le_n 3))
    as (R0 & Hok & _ & _ & Hc).
  exists R0. split; [exact Hok | exact Hc].
Defined.

(** *** An affine that is plumb already *)

Lemma plumb_item_whole (a : R) :
  a <> 0 -> plumb_item a (Rabs a) (Rabs a) = a.
Proof.
  intros Ha. assert (Rabs a <> 0) as Ha' by now apply Rabs_no_R0.
  unfold plumb_item. rewrite Rabs_div_Rabs by exact Ha'.
  destruct (Rlt_dec 1 1) as [Hlt|_]; [lra|]. now field.
Qed.

Lemma plumb_item_zero (m v : R) : 0 < m -> plumb_item 0 m v = 0.
Proof. intros Hm. apply plumb_item_minor. now rewrite Rabs_R0. Qed.

(** The plumb items of a column along a cardinal direction are the items
    of the column. *)
Lemma plumb_item_cardinal (a b c : R) :
  cardinal_column a b c ->
  plumb_item a (max3 a b c) (norm3 a b c) = a
  /\ plumb_item b (max3 a b c) (norm3 a b c) = b
  /\ plumb_item c (max3 a b c) (norm3 a b c) = c.
Proof.
  intros [(Ha & -> & ->) | [(-> & Hb & ->) | (-> & -> & Hc)]].
  - destruct (max3_aligned a 0) as (-> & _ & _).
    destruct (norm3_axis a) as (-> & _ & _).
    pose proof (Rabs_pos_lt _ Ha).
    rewrite plumb_item_whole, plumb_item_zero; auto.
  - destruct (max3_aligned b 0) as (_ & -> & _).
    destruct (norm3_axis b) as (_ & -> & _).
    pose proof (Rabs_pos_lt _ Hb).
    rewrite plumb_item_whole, plumb_item_zero; auto.
  - destruct (max3_aligned c 0) as (_ & _ & ->).
    destruct (norm3_axis c) as (_ & _ & ->).
    pose proof (Rabs_pos_lt _ Hc).
    rewrite plumb_item_whole, plumb_item_zero; auto.
Qed.

(** X15.  For an invertible affine whose three axes lie along cardinal
    directions, in any order, of either sign and of any voxel size, the
    plumb affine is the affine itself and [_afni_warpdrive] returns the
    identity, for each direction and each sign convention. *)
Theorem afni_warpdrive_of_plumb (oblique : matrix) (shape : list nat)
  (forward ras : bool) :
  is4x4 oblique -> affine_bottom_row oblique -> det 4 oblique <> 0 ->
  (3 <= length shape)%nat ->
  (forall j, (j < 3)%nat ->
     cardinal_column (entry 0 j oblique) (entry 1 j oblique)
       (entry 2 j oblique)) ->
  plumb_affine oblique shape = oblique
  /\ _afni_warpdrive oblique shape forward ras = Ok eye4.
Proof.
  intros H4 Hb Hdet Hshape Hcols.
  assert (plumb_affine oblique shape = oblique) as Hp.
  { destruct (plumb_affine_center shape H4 Hb Hshape) as [_ Hcenter].
    destruct (grid_center_4 shape Hshape) as (x & y & z & Ec).
    rewrite Ec in Hcenter. clear Ec.
    destruct shape as [|s0 [|s1 [|s2 more]]]; try (simpl in Hshape; lia).
    destruct (is4x4_inv H4)
      as (a00 & a01 & a02 & a03 & a10 & a11 & a12 & a13
          & a20 & a21 & a22 & a23 & a30 & a31 & a32 & a33 & ->).
    destruct (plumb_affine_4x4 a00 a01 a02 a03 a10 a11 a12 a13
                a20 a21 a22 a23 a30 a31 a32 a33 s0 s1 s2 more)
      as (t0 & t1 & t2 & Hp & _ & _).
    rewrite Hp in *. clear Hp.
    unfold affine_bottom_row in Hb. simpl in Hb.
    injection Hb as -> -> -> ->.
    pose proof (Hcols 0%nat) as H0. pose proof (Hcols 1%nat) as H1.
    pose proof (Hcols 2%nat) as H2.
    unfold entry in H0, H1, H2. cbn [nth] in H0, H1, H2.
    destruct (plumb_item_cardinal (H0 ltac:(lia))) as (E00 & E10 & E20).
    destruct (plumb_item_cardinal (H1 ltac:(lia))) as (E01 & E11 & E21).
    destruct (plumb_item_cardinal (H2 ltac:(lia))) as (E02 & E12 & E22).
    rewrite E00, E10, E20, E01, E11, E21, E02, E12, E22 in *.
    unfold matvec, dot, rsum in Hcenter. simpl in Hcenter.
    injection Hcenter as C0 C1 C2.
    list_eq; lra. }
  split; [exact Hp|].
  destruct (afni_warpdrive_forward shape H4 Hdet Hshape)
    as (A' & _ & _ & HAA' & _ & _ & Hw).
  rewrite Hw, Hp, HAA'. cbv zeta.
  destruct ras, forward;
    rewrite ?lps_conjugation_eye4; auto using inv_eye4.
Qed.

(** At an affine whose first two axes are exchanged and whose third axis
    is flipped. *)
Lemma afni_warpdrive_of_plumb_witness :
  _afni_warpdrive
    [[0; 2; 0; 10]; [3; 0; 0; -20]; [0; 0; -4; 30]; [0; 0; 0; 1]]
    AffineSamples.grid false false
  = Ok eye4.
Proof.
  refine (proj2 (@afni_warpdrive_of_plumb
                   [[0; 2; 0; 10]; [3; 0; 0; -20]; [0; 0; -4; 30];
                    [0; 0; 0; 1]]
                   AffineSamples.grid false false _ _ _ _ _)).
  - split; [reflexivity | repeat constructor].
  - reflexivity.
  - rewrite det_4x4. lra.
  - apply le_n.
  - intros j Hj. unfold entry, cardinal_column.
    destruct j as [|[|[|j]]]; [| | |lia]; cbn [nth].
    + right. left. repeat split; lra.
    + left. repeat split; lra.
    + right. right. repeat split; lra.
Defined.

(** *** Inverses and the sign convention *)

(** X4.  Inverting and converting can be done in either order: the inverse
    of the converted matrix is the converted inverse, and [numpy.linalg.inv]
    raises on the one exactly when it raises on the other. *)
Theorem ras_conversion_of_inverse (Mov Ref : Type) (moving : option Mov)
  (reference : option Ref) (A : matrix) :
  is4x4 A ->
  inv (AFNILinearTransform.to_ras (AFNILinearTransform.mk A)
         moving reference)
  = (A' <- inv A ;;
     Ok (AFNILinearTransform.to_ras (AFNILinearTransform.mk A')
           moving reference))
  /\ inv (AFNILinearTransform.parameters
            (AFNILinearTransform.from_ras A moving reference))
     = (A' <- inv A ;;
        Ok (AFNILinearTransform.parameters
              (AFNILinearTransform.from_ras A' moving reference))).
Proof.
  intros H4.
  pose proof (is4x4_lps_conjugation H4) as H4L.
  rewrite (to_ras_conjugation moving reference)
    by (cbn [AFNILinearTransform.parameters]; exact H4).
  rewrite from_ras_conjugation by exact H4.
  cbn [AFNILinearTransform.parameters].
  assert (inv (LPS @@ A @@ LPS)
          = (A' <- inv A ;; Ok (LPS @@ A' @@ LPS))) as Hinv.
  { destruct (Req_dec_T (det 4 A) 0) as [Hdet|Hdet].
    - rewrite (inv_singular H4 Hdet).
      apply inv_singular; [exact H4L | now rewrite det_lps_conjugation].
    - destruct (inv_4x4 H4 Hdet) as (A' & -> & H4A' & Hl & Hr).
      destruct (@inv_4x4 (LPS @@ A @@ LPS) H4L) as (X & -> & H4X & Hl' & _).
      { now rewrite det_lps_conjugation. }
      cbn [bind]. f_equal. symmetry.
      apply (@inverse_unique_4x4 (LPS @@ A @@ LPS));
        auto using is4x4_lps_conjugation.
      rewrite <- lps_conjugation_matmul by assumption.
      rewrite Hr. apply lps_conjugation_eye4. }
  rewrite Hinv.
  destruct (Req_dec_T (det 4 A) 0) as [Hdet|Hdet].
  - rewrite (inv_singular H4 Hdet). split; reflexivity.
  - destruct (inv_4x4 H4 Hdet) as (A' & -> & H4A' & _).
    cbn [bind].
    rewrite (to_ras_conjugation moving reference)
      by (cbn [AFNILinearTransform.parameters]; exact H4A').
    rewrite from_ras_conjugation by exact H4A'.
    split; reflexivity.
Qed.

Lemma ras_conversion_of_inverse_witness :
  inv (AFNILinearTransform.to_ras (Mov:=unit) (Ref:=unit)
         (AFNILinearTransform.mk AffineSamples.rotated) None None)
  = (A' <- inv AffineSamples.rotated ;;
     Ok (AFNILinearTransform.to_ras (Mov:=unit) (Ref:=unit)
           (AFNILinearTransform.mk A') None None)).
Proof.
  exact (proj1 (@ras_conversion_of_inverse unit unit None None
                  AffineSamples.rotated is4x4_rotated)).
Defined.

(** *** The plumb affine is plumb *)

Lemma max3_dominant (a b c : R) :
  (Rabs b < Rabs a -> Rabs c < Rabs a -> max3 a b c = Rabs a)
  /\ (Rabs a < Rabs b -> Rabs c < Rabs b -> max3 a b c = Rabs b)
  /\ (Rabs a < Rabs c -> Rabs b < Rabs c -> max3 a b c = Rabs c).
Proof.
  unfold max3. repeat split; intros H1 H2.
  - rewrite (Rmax_left (Rabs a) (Rabs b)), Rmax_left; lra.
  - rewrite (Rmax_right (Rabs a) (Rabs b)), Rmax_left; lra.
  - rewrite Rmax_right; [reflexivity|].
    apply Rmax_lub; lra.
Qed.

Lemma Rabs_le_norm3 (a b c : R) :
  Rabs a <= norm3 a b c /\ Rabs b <= norm3 a b c /\ Rabs c <= norm3 a b c.
Proof.
  pose proof (norm3_square a b c) as Hsq.
  pose proof (norm3_pos a b c) as Hpos.
  repeat split;
    rewrite <- (Rabs_pos_eq (norm3 a b c)) by exact Hpos;
    apply Rsqr_le_abs_0; unfold Rsqr; nra.
Qed.

(** No cosine exceeds 1. *)
Lemma cosine_le_1 (a b c : R) :
  Rabs (a / norm3 a b c) <= 1 /\ Rabs (b / norm3 a b c) <= 1
  /\ Rabs (c / norm3 a b c) <= 1.
Proof.
  destruct (Rabs_le_norm3 a b c) as (Ha & Hb & Hc).
  pose proof (norm3_pos a b c) as Hpos.
  destruct (Req_dec_T (norm3 a b c) 0) as [E|E].
  - rewrite E. unfold Rdiv. rewrite Rinv_0, !Rmult_0_r, Rabs_R0. lra.
  - assert (0 < norm3 a b c) as Hn by lra.
    unfold Rdiv. rewrite !Rabs_mult, Rabs_inv.
    rewrite (Rabs_pos_eq (norm3 a b c)) by exact Hpos.
    repeat split;
      (apply (Rmult_le_reg_r (norm3 a b c)); [exact Hn|]);
      rewrite Rmult_assoc, Rinv_l by exact E; lra.
Qed.

Lemma max3_one (x y z : R) :
  Rabs x <= 1 -> Rabs y <= 1 -> Rabs z <= 1 ->
  Rabs x = 1 \/ Rabs y = 1 \/ Rabs z = 1 ->
  max3 x y z = 1.
Proof.
  intros Hx Hy Hz H. unfold max3.
  apply Rle_antisym.
  - repeat apply Rmax_lub; assumption.
  - pose proof (Rmax_l (Rmax (Rabs x) (Rabs y)) (Rabs z)).
    pose proof (Rmax_r (Rmax (Rabs x) (Rabs y)) (Rabs z)).
    pose proof (Rmax_l (Rabs x) (Rabs y)).
    pose proof (Rmax_r (Rabs x) (Rabs y)).
    destruct H as [H | [H | H]]; lra.
Qed.

Lemma list_min3_le (x y z : R) :
  list_min [x; y; z] <= x /\ list_min [x; y; z] <= y
  /\ list_min [x; y; z] <= z.
Proof.
  unfold list_min. cbn [fold_left].
  pose proof (Rmin_l (Rmin x y) z). pose proof (Rmin_r (Rmin x y) z).
  pose proof (Rmin_l x y). pose proof (Rmin_r x y).
  repeat split; lra.
Qed.

(** A column of the plumb rotation whose only item that is not zero has
    the absolute value [v]. *)
Lemma plumb_column_norm (p v : R) :
  Rabs p = v -> v <> 0 ->
  Rabs (p / norm3 p 0 0) = 1 /\ Rabs (p / norm3 0 p 0) = 1
  /\ Rabs (p / norm3 0 0 p) = 1.
Proof.
  intros Hp Hv.
  destruct (norm3_axis p) as (-> & -> & ->).
  assert (Rabs p <> 0) by now rewrite Hp.
  now rewrite Rabs_div_Rabs.
Qed.

(** In column [(c0, c1, c2)] the item [a] is the only largest one: the
    plumb items of the others are zero, and the one of [a] has the voxel
    size as absolute value. *)
Ltac plumb_column c0 c1 c2 a :=
  let Em := fresh "Em" in
  let Hz := fresh "Hz" in
  let Hd := fresh "Hd" in
  assert (max3 c0 c1 c2 = Rabs a) as Em
    by (first [ apply (proj1 (max3_dominant c0 c1 c2))
              | apply (proj1 (proj2 (max3_dominant c0 c1 c2)))
              | apply (proj2 (proj2 (max3_dominant c0 c1 c2))) ];
        assumption);
  assert (forall c, Rabs c < Rabs a ->
            plumb_item c (max3 c0 c1 c2) (norm3 c0 c1 c2) = 0) as Hz
    by (intros; apply plumb_item_minor; rewrite Em; assumption);
  assert (Rabs (plumb_item a (max3 c0 c1 c2) (norm3 c0 c1 c2))
          = norm3 c0 c1 c2) as Hd
    by (apply plumb_item_dominant;
        [now rewrite Em | apply sqrt_pos | apply max3_zero]);
  repeat match goal with
         | D : Rabs ?c < Rabs a |- _ => rewrite !(Hz c D); clear D
         end;
  match goal with
  | |- acos (max3 ?x ?y ?z) <= 0 => rewrite (@max3_one x y z)
  end;
  [ rewrite acos_1; lra
  | first [ apply (proj1 (cosine_le_1 _ _ _))
          | apply (proj1 (proj2 (cosine_le_1 _ _ _)))
          | apply (proj2 (proj2 (cosine_le_1 _ _ _))) ] ..
  | match goal with
    | Hv : norm3 c0 c1 c2 <> 0 |- _ =>
        let HN := fresh "HN" in
        pose proof (@plumb_column_norm _ _ Hd Hv) as HN;
        first [ left; apply HN
              | right; left; apply HN
              | right; right; apply HN ]
    end ].

(** X16.  The plumb affine that [_afni_warpdrive] builds passes the test of
    [_is_oblique]: when some column of the rotation part of the affine has
    one item larger, in absolute value, than the two others, the plumb
    affine is not oblique, whatever the threshold (not negative). *)
Theorem plumb_affine_not_oblique (oblique : matrix) (shape : list nat)
  (thres : R) (i j : nat) :
  is4x4 oblique -> (3 <= length shape)%nat -> 0 <= thres ->
  Forall (fun v => v <> 0) (voxel_sizes oblique) ->
  (i < 3)%nat -> (j < 3)%nat ->
  (forall i', (i' < 3)%nat -> i' <> i ->
     Rabs (entry i' j oblique) < Rabs (entry i j oblique)) ->
  _is_oblique (plumb_affine oblique shape) thres = false.
Proof.
  intros H4 Hshape Ht Hvs Hi Hj Hdom.
  destruct shape as [|s0 [|s1 [|s2 more]]]; try (simpl in Hshape; lia).
  destruct (is4x4_inv H4)
    as (a00 & a01 & a02 & a03 & a10 & a11 & a12 & a13
        & a20 & a21 & a22 & a23 & a30 & a31 & a32 & a33 & ->).
  destruct (plumb_affine_4x4 a00 a01 a02 a03 a10 a11 a12 a13
              a20 a21 a22 a23 a30 a31 a32 a33 s0 s1 s2 more)
    as (t0 & t1 & t2 & -> & _ & _).
  rewrite voxel_sizes_4x4 in Hvs.
  inversion Hvs as [|? ? Hv0 Hvs1]; subst.
  inversion Hvs1 as [|? ? Hv1 Hvs2]; subst.
  inversion Hvs2 as [|? ? Hv2 _]; subst. clear Hvs Hvs1 Hvs2.
  apply is_oblique_false; [exact Ht|]. rewrite obliquity_4x4.
  unfold entry in Hdom.
  match goal with
  | |- list_min [?x; ?y; ?z] <= 0 =>
      destruct (list_min3_le x y z) as (L0 & L1 & L2)
  end.
  destruct i as [|[|[|i]]]; try lia;
    destruct j as [|[|[|j]]]; try lia;
    try (pose proof (Hdom 0%nat ltac:(lia) ltac:(lia)) as D0);
    try (pose proof (Hdom 1%nat ltac:(lia) ltac:(lia)) as D1);
    try (pose proof (Hdom 2%nat ltac:(lia) ltac:(lia)) as D2);
    clear Hdom; cbn [nth] in *.
  - eapply Rle_trans; [exact L0|]. clear L0 L1 L2.
    plumb_column a00 a10 a20 a00.
  - eapply Rle_trans; [exact L0|]. clear L0 L1 L2.
    plumb_column a01 a11 a21 a01.
  - eapply Rle_trans; [exact L0|]. clear L0 L1 L2.
    plumb_column a02 a12 a22 a02.
  - eapply Rle_trans; [exact L1|]. clear L0 L1 L2.
    plumb_column a00 a10 a20 a10.
  - eapply Rle_trans; [exact L1|]. clear L0 L1 L2.
    plumb_column a01 a11 a21 a11.
  - eapply Rle_trans; [exact L1|]. clear L0 L1 L2.
    plumb_column a02 a12 a22 a12.
  - eapply Rle_trans; [exact L2|]. clear L0 L1 L2.
    plumb_column a00 a10 a20 a20.
  - eapply Rle_trans; [exact L2|]. clear L0 L1 L2.
    plumb_column a01 a11 a21 a21.
  - eapply Rle_trans; [exact L2|]. clear L0 L1 L2.
    plumb_column a02 a12 a22 a22.
Qed.

(** The sheared sample is oblique; its plumb affine is not. *)
Lemma plumb_affine_not_oblique_witness :
  _is_oblique (plumb_affine AffineSamples.sheared AffineSamples.grid)
    OBLIQUITY_THRESHOLD_DEG
  = false.
Proof.
  refine (@plumb_affine_not_oblique AffineSamples.sheared AffineSamples.grid
            OBLIQUITY_THRESHOLD_DEG 0 0 is4x4_sheared (le_n 3) _ _ _ _ _).
  - unfold OBLIQUITY_THRESHOLD_DEG. lra.
  - unfold AffineSamples.sheared. rewrite voxel_sizes_4x4.
    repeat constructor; apply norm3_nonzero; lra.
  - lia.
  - lia.
  - intros i' Hi' Hne. unfold entry, AffineSamples.sheared.
    destruct i' as [|[|[|i']]]; try lia; cbn [nth];
      rewrite !Rabs_pos_eq by lra; lra.
Defined.

(** ** Further properties of the text parsers *)

(** X17.  [AFNILinearTransformArray.from_string] returns an array exactly
    when it keeps at least one line and the parser of single transforms
    accepts every line kept: the array then holds one transform per line
    kept, in the order of the text, it is never empty, and every transform
    is made of three rows of four numbers and the row of zero, zero, zero,
    one. *)
Theorem array_from_string_transforms (F : Type) (PF : PyFloat F)
  (text : str) (a : AFNILinearTransformArray.t F) :
  (AFNILinearTransformArray.from_string text = Ok a
   <-> AFNILinearTransformArray.data_lines text <> []
       /\ Forall2
            (fun line xfm => AFNILinearTransform.from_string line = Ok xfm)
            (AFNILinearTransformArray.data_lines text)
            (AFNILinearTransformArray.xforms a))
  /\ (AFNILinearTransformArray.from_string text = Ok a ->
      length (AFNILinearTransformArray.xforms a)
      = length (AFNILinearTransformArray.data_lines text)
      /\ AFNILinearTransformArray.xforms a <> []
      /\ Forall parsed (AFNILinearTransformArray.xforms a)).
Proof.
  assert (AFNILinearTransformArray.from_string text = Ok a
          <-> AFNILinearTransformArray.data_lines text <> []
              /\ Forall2
                   (fun line xfm =>
                      AFNILinearTransform.from_string line = Ok xfm)
                   (AFNILinearTransformArray.data_lines text)
                   (AFNILinearTransformArray.xforms a)) as Hiff.
  { unfold AFNILinearTransformArray.from_string.
    destruct (AFNILinearTransformArray.data_lines text) as [|l ls].
    - split; [discriminate | intros [Hne _]; congruence].
    - split.
      + destruct (mapM AFNILinearTransform.from_string (l :: ls))
          as [xs|e] eqn:Hm; cbn [bind]; [|discriminate].
        intros Hok. injection Hok as <-.
        split; [discriminate | now apply mapM_ok_inv].
      + intros [_ Hall]. apply mapM_ok_intro in Hall. rewrite Hall.
        destruct a; reflexivity. }
  split; [exact Hiff|].
  intros Hok. apply Hiff in Hok. destruct Hok as [Hne Hall].
  split; [|split].
  - symmetry. eapply Forall2_length; eauto.
  - intros E. rewrite E in Hall. inversion Hall as [Hnil|]. congruence.
  - clear Hne Hiff.
    induction Hall as [|l x ls xs Hlx _ IH]; constructor; auto.
    eapply from_string_parsed; eauto.
Qed.

(** At the text of two transforms: two lines are kept, and two transforms
    returned. *)
Lemma array_from_string_transforms_witness :
  length (AFNILinearTransformArray.xforms TextSamples.two_transforms_parsed)
  = length (AFNILinearTransformArray.data_lines TextSamples.two_transforms).
Proof.
  refine (proj1 (proj2 (@array_from_string_transforms pyfloat _
                          TextSamples.two_transforms
                          TextSamples.two_transforms_parsed) _)).
  vm_compute. reflexivity.
Defined.

Section Reparse.
Context {F : Type} `{PyFloat F}.
Hypothesis format_g_clean : forall x : F, clean_token (format_g x).

(** The line of numbers of a transform, and the fields that
    [genfromtxt] finds in it. *)
Lemma str_line_facts (xfm : AFNILinearTransform.t F) :
  parsed xfm ->
  let line := AFNILinearTransform.__str__ xfm in
  Forall (fun c => islinebreak c = false) line
  /\ line <> [] /\ strip line = line
  /\ AFNILinearTransform.keep_line line = true
  /\ AFNILinearTransformArray.keep_line line = true
  /\ genfromtxt line
     = map (fun x => loose_call (format_g x)) (written xfm).
Proof.
  intros Hp line.
  destruct (written_tokens format_g_clean Hp) as [Htoks Hne].
  destruct (token_line_facts Htoks Hne)
    as (Hnil & Hnb & Hstrip & Hkeep & Hkeep' & Hsplit).
  fold (written xfm) in *.
  change (join [TAB] (map format_g (written xfm))) with line in *.
  repeat (split; [assumption|]).
  unfold genfromtxt. now rewrite Hsplit, map_map.
Qed.

(** The only line of [to_string] that [from_string] keeps is the line of
    numbers, with the banner and without it. *)
Lemma to_string_data_lines (xfm : AFNILinearTransform.t F) (banner : bool) :
  parsed xfm ->
  AFNILinearTransform.data_lines (AFNILinearTransform.to_string xfm banner)
  = [AFNILinearTransform.__str__ xfm].
Proof.
  intros Hp.
  destruct (str_line_facts Hp) as (Hnb & Hnil & _ & Hkeep & _ & _).
  unfold AFNILinearTransform.data_lines, AFNILinearTransform.to_string.
  set (line := AFNILinearTransform.__str__ xfm) in *.
  assert (splitlines (line ++ [LF]) = [line]) as Hsl.
  { change (line ++ [LF]) with (line ++ LF :: []).
    now rewrite (splitlines_app_LF [] Hnb). }
  destruct banner.
  - change (join [LF] [BANNER; line ++ [LF]])
      with (BANNER ++ LF :: (line ++ [LF])).
    rewrite (splitlines_app_LF _ BANNER_no_linebreak), Hsl.
    cbn [filter].
    replace (AFNILinearTransform.keep_line BANNER) with false
      by (vm_compute; reflexivity).
    now rewrite Hkeep.
  - rewrite Hsl. cbn [filter]. now rewrite Hkeep.
Qed.

(** Parsing what [to_string] wrote never fails: every number [x] comes
    back as [float("%g" % x)]. *)
Lemma from_string_to_string (xfm : AFNILinearTransform.t F) (banner : bool) :
  parsed xfm ->
  exists y,
    AFNILinearTransform.from_string
      (AFNILinearTransform.to_string xfm banner) = Ok y
    /\ AFNILinearTransform.from_string (AFNILinearTransform.__str__ xfm)
       = Ok y
    /\ written y = map (fun x => loose_call (format_g x)) (written xfm).
Proof.
  intros Hp.
  destruct (str_line_facts Hp) as (Hnb & Hnil & _ & Hkeep & _ & Hgen).
  assert (AFNILinearTransform.data_lines (AFNILinearTransform.__str__ xfm)
          = [AFNILinearTransform.__str__ xfm]) as Hd.
  { unfold AFNILinearTransform.data_lines.
    rewrite (splitlines_one Hnb Hnil). cbn [filter]. now rewrite Hkeep. }
  rewrite (from_string_first_line _ (to_string_data_lines banner Hp)).
  rewrite (from_string_first_line _ Hd).
  rewrite Hgen.
  destruct Hp
    as (a0 & a1 & a2 & a3 & a4 & a5 & a6 & a7 & a8 & a9 & a10 & a11 & Hp).
  unfold written. rewrite Hp. cbn [firstn concat app map reshape_3_4 bind].
  eexists. split; [reflexivity|]. split; reflexivity.
Qed.

(** The lines that the array parser keeps of the text of an array. *)
Lemma array_to_string_data_lines (xs : list (AFNILinearTransform.t F)) :
  Forall parsed xs -> xs <> [] ->
  AFNILinearTransformArray.data_lines
    (AFNILinearTransformArray.to_string (AFNILinearTransformArray.mk xs))
  = map AFNILinearTransform.__str__ xs.
Proof.
  intros Hall Hne.
  unfold AFNILinearTransformArray.to_string.
  cbn [AFNILinearTransformArray.xforms].
  rewrite (collect_lines_true format_g_clean Hall Hne).
  set (lines := map AFNILinearTransform.__str__ xs).
  assert (Forall (fun l => l <> []
                           /\ Forall (fun c => islinebreak c = false) l
                           /\ strip l = l
                           /\ AFNILinearTransformArray.keep_line l = true)
            lines) as Hlines.
  { unfold lines. apply Forall_map.
    eapply Forall_impl; [|exact Hall]. intros x Hx.
    destruct (str_line_facts Hx) as (? & ? & ? & _ & ? & _). auto. }
  unfold AFNILinearTransformArray.data_lines.
  rewrite splitlines_join.
  2:{ constructor.
      - split; [discriminate | exact BANNER_no_linebreak].
      - eapply Forall_impl; [|exact Hlines]. intros l (? & ? & _). auto. }
  cbn [filter].
  replace (AFNILinearTransformArray.keep_line BANNER) with false
    by (vm_compute; reflexivity).
  clear -Hlines. induction Hlines as [|l ls (_ & _ & Hs & Hk) _ IH];
    [reflexivity|].
  simpl. rewrite Hk. simpl. now rewrite Hs, IH.
Qed.

Lemma array_from_string_to_string (text : str)
  (a : AFNILinearTransformArray.t F) :
  AFNILinearTransformArray.from_string text = Ok a ->
  exists b,
    AFNILinearTransformArray.from_string
      (AFNILinearTransformArray.to_string a) = Ok b
    /\ map written (AFNILinearTransformArray.xforms b)
       = map (fun xfm => map (fun x => loose_call (format_g x))
                           (written xfm))
           (AFNILinearTransformArray.xforms a).
Proof.
  intros Hok.
  assert (AFNILinearTransformArray.xforms a <> []
          /\ Forall parsed (AFNILinearTransformArray.xforms a))
    as [Hne Hall].
  { unfold AFNILinearTransformArray.from_string in Hok.
    destruct (AFNILinearTransformArray.data_lines text) as [|l ls];
      [discriminate|].
    destruct (mapM AFNILinearTransform.from_string (l :: ls))
      as [xs|e] eqn:Hm; cbn [bind] in Hok; [|discriminate].
    injection Hok as <-. cbn [AFNILinearTransformArray.xforms].
    apply mapM_ok_inv in Hm. split.
    - inversion Hm; discriminate.
    - clear -Hm. induction Hm as [|x y l' ys Hxy _ IH]; constructor; auto.
      eapply from_string_parsed; eauto. }
  destruct a as [xs]. cbn [AFNILinearTransformArray.xforms] in *.
  unfold AFNILinearTransformArray.from_string.
  rewrite (array_to_string_data_lines Hall Hne).
  assert (exists ys,
             mapM AFNILinearTransform.from_string
               (map AFNILinearTransform.__str__ xs) = Ok ys
             /\ map written ys
                = map (fun xfm => map (fun x => loose_call (format_g x))
                                    (written xfm)) xs) as (ys & Hm & Hw).
  { clear Hne Hok. induction Hall as [|x l Hx _ IH].
    - exists []. split; reflexivity.
    - destruct IH as (zs & Hmz & Hwz).
      destruct (from_string_to_string false Hx) as (z & _ & Hz & Hwz').
      exists (z :: zs). cbn [map mapM]. rewrite Hz, Hmz. cbn [bind].
      split; [reflexivity|]. now rewrite Hwz', Hwz. }
  exists (AFNILinearTransformArray.mk ys).
  destruct xs as [|x xs]; [congruence|].
  cbn [map] in *. rewrite Hm. split; [reflexivity | exact Hw].
Qed.
End Reparse.

(** X18.  A transform that [AFNILinearTransform.from_string] returned, whose
    numbers have at most six significant digits, is read back from the text
    that its [to_string] writes, with the banner and without it. *)
Theorem from_string_of_to_string (text : str)
  (xfm : AFNILinearTransform.t pyfloat) (banner : bool) :
  AFNILinearTransform.from_string text = Ok xfm ->
  Forall six_digits (written xfm) ->
  AFNILinearTransform.from_string
    (AFNILinearTransform.to_string xfm banner) = Ok xfm.
Proof.
  intros Hok Hsix.
  pose proof (from_string_parsed _ Hok) as Hp.
  destruct (from_string_to_string pyfloat_format_g_clean banner Hp)
    as (y & -> & Hy & _).
  rewrite <- Hy.
  apply (from_string_str pyfloat_format_g_clean Hp).
  pose proof (from_string_written_canonical _ Hok) as Hcan.
  rewrite Forall_forall in *. intros x Hx.
  apply reread_six_digits; auto.
Qed.

Lemma from_string_of_to_string_witness :
  AFNILinearTransform.from_string
    (AFNILinearTransform.to_string
       (AFNILinearTransform.mk
          [[Finite 1 0; Finite 0 0; Finite 0 0; Finite 0 0];
           [Finite 0 0; Finite 1 0; Finite 0 0; Finite 0 0];
           [Finite 0 0; Finite 0 0; Finite 1 0; Finite 0 0];
           [Finite 0 0; Finite 0 0; Finite 0 0; Finite 1 0]])
       true)
  = Ok (AFNILinearTransform.mk
          [[Finite 1 0; Finite 0 0; Finite 0 0; Finite 0 0];
           [Finite 0 0; Finite 1 0; Finite 0 0; Finite 0 0];
           [Finite 0 0; Finite 0 0; Finite 1 0; Finite 0 0];
           [Finite 0 0; Finite 0 0; Finite 0 0; Finite 1 0]]).
Proof.
  refine (@from_string_of_to_string TextSamples.identity_line _ true _ _).
  - vm_compute. reflexivity.
  - repeat constructor; vm_compute; lia.
Defined.

(** X19.  The text that [AFNILinearTransformArray.to_string] writes for an
    array that [from_string] returned is always accepted by [from_string],
    however many digits the numbers have: the array read has as many
    transforms, and every number [x] comes back as the number that its
    six-digit form ["%g" % x] denotes. *)
Theorem to_string_is_accepted (text : str)
  (a : AFNILinearTransformArray.t pyfloat) :
  AFNILinearTransformArray.from_string text = Ok a ->
  exists b,
    AFNILinearTransformArray.from_string
      (AFNILinearTransformArray.to_string a) = Ok b
    /\ length (AFNILinearTransformArray.xforms b)
       = length (AFNILinearTransformArray.xforms a)
    /\ map written (AFNILinearTransformArray.xforms b)
       = map (fun xfm => map (fun x => loose_call (format_g x))
                           (written xfm))
           (AFNILinearTransformArray.xforms a).
Proof.
  intros Hok.
  destruct (array_from_string_to_string pyfloat_format_g_clean _ Hok)
    as (b & Hb & Hw).
  exists b. split; [exact Hb|]. split; [|exact Hw].
  apply (f_equal (@length _)) in Hw. now rewrite !length_map in Hw.
Qed.

(** At the transform with a number of seven digits: 1234567 comes back
    as 1234570. *)
Lemma to_string_is_accepted_witness :
  exists b,
    AFNILinearTransformArray.from_string
      (AFNILinearTransformArray.to_string TextSamples.seven_digits_parsed)
    = Ok b
    /\ map written (AFNILinearTransformArray.xforms b)
       = map written
           (AFNILinearTransformArray.xforms
              TextSamples.seven_digits_reparsed).
Proof.
  destruct (@to_string_is_accepted TextSamples.seven_digits
              TextSamples.seven_digits_parsed)
    as (b & Hb & _ & Hw).
  - vm_compute. reflexivity.
  - exists b. split; [exact Hb|]. rewrite Hw. vm_compute. reflexivity.
Defined.

(** ** Line ends and comments *)

Lemma splitlines_app_CRLF (line more : str) :
  Forall (fun c => islinebreak c = false) line ->
  splitlines (line ++ CR :: LF :: more) = line :: splitlines more.
Proof.
  induction 1 as [|c line Hc _ IH]; [reflexivity|].
  cbn [app splitlines]. now rewrite Hc, IH.
Qed.

(** The lines of a text do not depend on whether they are separated by
    CR LF or by LF. *)
Lemma splitlines_crlf (lines : list str) :
  Forall (Forall (fun c => islinebreak c = false)) lines ->
  splitlines (join [CR; LF] lines) = splitlines (join [LF] lines).
Proof.
  induction 1 as [|l ls Hl _ IH]; [reflexivity|].
  destruct ls as [|l' ls]; [reflexivity|].
  change (join [CR; LF] (l :: l' :: ls))
    with (l ++ CR :: LF :: join [CR; LF] (l' :: ls)).
  change (join [LF] (l :: l' :: ls))
    with (l ++ LF :: join [LF] (l' :: ls)).
  now rewrite splitlines_app_CRLF, splitlines_app_LF, IH.
Qed.

(** X20.  Both parsers read a text whose lines end in CR LF as they read the
    text with the same lines ending in LF. *)
Theorem from_string_crlf (F : Type) (PF : PyFloat F) (lines : list str) :
  Forall (Forall (fun c => islinebreak c = false)) lines ->
  AFNILinearTransform.from_string (F:=F) (join [CR; LF] lines)
  = AFNILinearTransform.from_string (join [LF] lines)
  /\ AFNILinearTransformArray.from_string (F:=F) (join [CR; LF] lines)
     = AFNILinearTransformArray.from_string (join [LF] lines).
Proof.
  intros Hl. pose proof (splitlines_crlf Hl) as E.
  unfold AFNILinearTransform.from_string,
    AFNILinearTransformArray.from_string,
    AFNILinearTransform.data_lines, AFNILinearTransformArray.data_lines.
  now rewrite E.
Qed.

Lemma from_string_crlf_witness :
  AFNILinearTransformArray.from_string (F:=pyfloat)
    (join [CR; LF] [BANNER; TextSamples.identity_line; []])
  = AFNILinearTransformArray.from_string
      (join [LF] [BANNER; TextSamples.identity_line; []]).
Proof.
  refine (proj2 (@from_string_crlf pyfloat _
                   [BANNER; TextSamples.identity_line; []] _)).
  repeat constructor; apply Forall_forallb_false; vm_compute; reflexivity.
Defined.

Lemma encode_app (s t : str) : encode (s ++ t) = encode s ++ encode t.
Proof. unfold encode. apply flat_map_app. Qed.

Lemma encode_no_hash (s : str) :
  Forall (fun c => c <> "#"%char) s ->
  Forall (fun c => c <> "#"%char) (encode s).
Proof.
  induction 1 as [|c s Hc _ IH]; [constructor|].
  change (c :: s) with ([c] ++ s). rewrite encode_app.
  apply Forall_app. split; [|exact IH].
  clear -Hc.
  destruct c as [[] [] [] [] [] [] [] []];
    repeat constructor; solve [discriminate | exact Hc].
Qed.

Lemma before_first_app (sep : ascii) (s t : str) :
  Forall (fun c => c <> sep) s -> before_first sep (s ++ sep :: t) = s.
Proof.
  induction 1 as [|c s Hc _ IH]; cbn [app before_first].
  - now rewrite Ascii.eqb_refl.
  - apply Ascii.eqb_neq in Hc. now rewrite Hc, IH.
Qed.

Lemma dropwhile_nil (p : ascii -> bool) (s : str) :
  dropwhile p s = [] -> Forall (fun c => p c = true) s.
Proof.
  induction s as [|c s IH]; [constructor|].
  cbn [dropwhile]. destruct (p c) eqn:E; [|discriminate].
  intros Hd. constructor; auto.
Qed.

Lemma dropwhile_keeps (p : ascii -> bool) (s : str) (c : ascii) :
  In c s -> p c = false -> In c (dropwhile p s).
Proof.
  induction s as [|a s IH]; [contradiction|].
  intros [-> | Hin] Hc; cbn [dropwhile].
  - rewrite Hc. now left.
  - destruct (p a); [auto | now right].
Qed.

(** A string is blank when it holds nothing but whitespace. *)
Lemma strip_by_not_nil (p : ascii -> bool) (s : str) :
  strip_by p s <> [] <-> exists c, In c s /\ p c = false.
Proof.
  unfold strip_by, rstrip_by, lstrip_by. split.
  - intros Hne.
    destruct (existsb (fun c => negb (p c)) s) eqn:E.
    + apply existsb_exists in E. destruct E as (c & Hin & Hc).
      exists c. split; [exact Hin|]. now destruct (p c).
    + exfalso. apply Hne.
      assert (dropwhile p s = []) as ->; [|reflexivity].
      clear Hne. induction s as [|a s IH]; [reflexivity|].
      cbn [existsb] in E. apply orb_false_iff in E. destruct E as [Ea Es].
      cbn [dropwhile]. destruct (p a); [auto | discriminate].
  - intros (c & Hin & Hc) E.
    assert (In c (rev (dropwhile p (rev (dropwhile p s))))) as Hin'.
    { apply -> in_rev. apply dropwhile_keeps; [|exact Hc].
      apply -> in_rev. now apply dropwhile_keeps. }
    rewrite E in Hin'. contradiction.
Qed.

Lemma startswith_app (p s t : str) :
  startswith p s = true -> startswith p (s ++ t) = true.
Proof.
  revert s. induction p as [|a p IH]; intros s; [reflexivity|].
  destruct s as [|c s]; [discriminate|].
  cbn [app startswith]. intros Hs. apply andb_true_iff in Hs.
  destruct Hs as [-> Hs]. now rewrite IH.
Qed.

Lemma contains_app (needle s t : str) :
  contains needle s = true -> contains needle (s ++ t) = true.
Proof.
  induction s as [|c s IH].
  - cbn [contains]. rewrite orb_false_r. intros Hs.
    destruct needle; [|discriminate].
    destruct t; reflexivity.
  - cbn [app contains]. intros Hc. apply orb_true_iff in Hc.
    destruct Hc as [Hs | Hc]; apply orb_true_iff.
    + left. now apply (startswith_app _ (c :: s) t).
    + right. now apply IH.
Qed.

(** X21.  A comment at the end of the line of numbers is not read: the line
    and the line followed by ["#"] and any text give the same result, unless
    the comment makes the line hold the banner text, in which case the line
    is not kept at all. *)
Theorem from_string_trailing_comment (F : Type) (PF : PyFloat F)
  (line comment : str) :
  Forall (fun c => islinebreak c = false) line ->
  Forall (fun c => islinebreak c = false) comment ->
  Forall (fun c => c <> "#"%char) line ->
  strip line <> [] ->
  contains (py "3dvolreg matrices") (line ++ "#"%char :: comment) = false ->
  AFNILinearTransform.from_string (F:=F) (line ++ "#"%char :: comment)
  = AFNILinearTransform.from_string line.
Proof.
  intros Hnb Hnbc Hhash Hne Hban.
  set (full := line ++ "#"%char :: comment) in *.
  assert (Forall (fun c => islinebreak c = false) full) as Hnbf.
  { apply Forall_app. split; [exact Hnb|]. constructor; [reflexivity|].
    exact Hnbc. }
  assert (exists c t, line = c :: t /\ c <> "#"%char) as (c & t & El & Hc).
  { destruct line as [|c t]; [now elim Hne|].
    exists c, t. split; [reflexivity|]. now inversion Hhash. }
  assert (strip full <> []) as Hnef.
  { unfold strip in *. apply strip_by_not_nil in Hne.
    destruct Hne as (a & Hin & Ha). apply strip_by_not_nil.
    exists a. split; [|exact Ha]. unfold full. apply in_or_app. now left. }
  assert (contains (py "3dvolreg matrices") line = false) as Hbanl.
  { destruct (contains (py "3dvolreg matrices") line) eqn:E; [|reflexivity].
    apply (contains_app _ _ ("#"%char :: comment)) in E.
    fold full in E. congruence. }
  assert (forall s, s = c :: t ++ "#"%char :: comment \/ s = c :: t ->
            startswith (py "#") s = false) as Hstart.
  { intros s [-> | ->]; change (py "#") with ["#"%char];
      cbn [startswith]; rewrite andb_true_r; apply Ascii.eqb_neq;
      congruence. }
  assert (AFNILinearTransform.keep_line full = true) as Hkf.
  { unfold AFNILinearTransform.keep_line.
    rewrite Hban, (Hstart full) by (left; unfold full; now rewrite El).
    destruct (strip full); [congruence | reflexivity]. }
  assert (AFNILinearTransform.keep_line line = true) as Hkl.
  { unfold AFNILinearTransform.keep_line.
    rewrite Hbanl, (Hstart line) by now right.
    destruct (strip line); [congruence | reflexivity]. }
  assert (AFNILinearTransform.data_lines full = [full]) as Hdf.
  { unfold AFNILinearTransform.data_lines.
    rewrite (splitlines_one Hnbf) by (unfold full; rewrite El; discriminate).
    cbn [filter]. now rewrite Hkf. }
  assert (AFNILinearTransform.data_lines line = [line]) as Hdl.
  { unfold AFNILinearTransform.data_lines.
    rewrite (splitlines_one Hnb) by (rewrite El; discriminate).
    cbn [filter]. now rewrite Hkl. }
  rewrite (from_string_first_line _ Hdf), (from_string_first_line _ Hdl).
  assert (genfromtxt (F:=F) full = genfromtxt line) as ->; [|reflexivity].
  unfold genfromtxt, delimited_splitter, decode_latin1, full.
  rewrite encode_app.
  change (encode ("#"%char :: comment)) with ("#"%char :: encode comment).
  rewrite before_first_app by now apply encode_no_hash.
  rewrite before_first_absent by now apply encode_no_hash.
  reflexivity.
Qed.

Lemma from_string_trailing_comment_witness :
  AFNILinearTransform.from_string (F:=pyfloat)
    (TextSamples.identity_line ++ "#"%char :: py " identity")
  = AFNILinearTransform.from_string TextSamples.identity_line.
Proof.
  refine (@from_string_trailing_comment pyfloat _
            TextSamples.identity_line (py " identity") _ _ _ _ _).
  - apply Forall_forallb_false. vm_compute. reflexivity.
  - apply Forall_forallb_false. vm_compute. reflexivity.
  - repeat constructor; discriminate.
  - vm_compute. discriminate.
  - vm_compute. reflexivity.
Defined.

(** ** The layout of a line of numbers *)

Lemma blank_char_facts (c : ascii) :
  blank_char c = true ->
  isspace c = true /\ islinebreak c = false /\ c <> "#"%char
  /\ (code c < 128)%N.
Proof.
  unfold blank_char. rewrite orb_true_iff, !Ascii.eqb_eq.
  intros [-> | ->]; repeat split; (discriminate || reflexivity).
Qed.

Lemma split_whitespace_leading (w s : str) :
  Forall (fun c => isspace c = true) w ->
  split_whitespace (w ++ s) = split_whitespace s.
Proof.
  induction 1 as [|c w Hc _ IH]; [reflexivity|].
  cbn [app split_whitespace]. now rewrite Hc.
Qed.

Lemma split_whitespace_blank (w : str) :
  Forall (fun c => isspace c = true) w -> split_whitespace w = [].
Proof.
  intros Hw. rewrite <- (app_nil_r w).
  now rewrite split_whitespace_leading.
Qed.

Lemma split_whitespace_cons (c : ascii) (t : str) :
  split_whitespace (c :: t)
  = if isspace c then split_whitespace t
    else match t with
         | [] => [[c]]
         | c' :: _ =>
             if isspace c' then [c] :: split_whitespace t
             else match split_whitespace t with
                  | [] => [[c]]
                  | w :: ws => (c :: w) :: ws
                  end
         end.
Proof. reflexivity. Qed.

Lemma split_whitespace_trailing (s w : str) :
  Forall (fun c => isspace c = true) w ->
  split_whitespace (s ++ w) = split_whitespace s.
Proof.
  intros Hw. induction s as [|c s IH].
  - cbn [app]. now apply split_whitespace_blank.
  - change ((c :: s) ++ w) with (c :: (s ++ w)).
    rewrite (split_whitespace_cons c (s ++ w)), (split_whitespace_cons c s).
    rewrite IH.
    destruct (isspace c); [reflexivity|].
    destruct s as [|c' s]; [|reflexivity].
    cbn [app]. destruct Hw as [|c' w Hc' Hw]; [reflexivity|].
    now rewrite Hc'.
Qed.

(** A token, a whitespace character, and the rest. *)
Lemma split_whitespace_token_gap (tok rest : str) (g : ascii) :
  clean_token tok -> isspace g = true ->
  split_whitespace (tok ++ g :: rest) = tok :: split_whitespace rest.
Proof.
  intros [Hne Htok] Hg. induction Htok as [|c tok Hc Htok IH]; [congruence|].
  destruct (token_char_facts _ Hc) as (Hs & _).
  destruct tok as [|c2 tok].
  - change ([c] ++ g :: rest) with (c :: g :: rest).
    rewrite (split_whitespace_cons c (g :: rest)), Hs, Hg.
    now rewrite (split_whitespace_cons g rest), Hg.
  - assert (isspace c2 = false) as Hs2.
    { inversion Htok as [|? ? Hc2 _]; subst.
      now destruct (token_char_facts _ Hc2). }
    specialize (IH ltac:(discriminate)).
    change ((c :: c2 :: tok) ++ g :: rest)
      with (c :: c2 :: (tok ++ g :: rest)).
    change ((c2 :: tok) ++ g :: rest) with (c2 :: (tok ++ g :: rest)) in IH.
    rewrite (split_whitespace_cons c (c2 :: (tok ++ g :: rest))).
    now rewrite Hs, Hs2, IH.
Qed.

Lemma split_whitespace_one_token (tok : str) :
  clean_token tok -> split_whitespace tok = [tok].
Proof.
  intros Htok.
  pose proof (@split_whitespace_token_gap tok [] " "%char Htok eq_refl)
    as E.
  rewrite <- (@split_whitespace_trailing tok [" "%char])
    by (repeat constructor).
  exact E.
Qed.

Lemma blank_isspace (w : str) :
  blank w -> Forall (fun c => isspace c = true) w.
Proof.
  intros Hw. eapply Forall_impl; [|exact Hw].
  intros c Hc. now destruct (blank_char_facts _ Hc).
Qed.

(** The fields of a line are its tokens, whatever the gaps. *)
Lemma split_whitespace_spaced (fields : list (str * str)) :
  Forall (fun f => clean_token (fst f) /\ blank (snd f)) fields ->
  separated fields ->
  split_whitespace (spaced fields) = map fst fields.
Proof.
  induction 1 as [|[tok gap] rest [Htok Hgap] _ IH]; [reflexivity|].
  cbn [fst snd] in *. intros Hsep. cbn [spaced map fst].
  destruct gap as [|g gap].
  - destruct rest as [|f rest]; [|now destruct Hsep].
    cbn [spaced app]. rewrite app_nil_r.
    now apply split_whitespace_one_token.
  - assert (isspace g = true /\ Forall (fun c => isspace c = true) gap)
      as [Hg Hgs].
    { apply blank_isspace in Hgap. now inversion Hgap. }
    change ((g :: gap) ++ spaced rest) with (g :: (gap ++ spaced rest)).
    rewrite (@split_whitespace_token_gap tok _ g Htok Hg).
    rewrite (split_whitespace_leading _ Hgs). f_equal.
    apply IH. cbn [separated] in Hsep.
    destruct rest; [exact I | now destruct Hsep].
Qed.

Lemma dropwhile_split (p : ascii -> bool) (s : str) :
  exists w, Forall (fun c => p c = true) w /\ s = w ++ dropwhile p s.
Proof.
  induction s as [|c s (w & Hw & E)].
  - exists []. split; [constructor | reflexivity].
  - cbn [dropwhile]. destruct (p c) eqn:Hc.
    + exists (c :: w). split; [now constructor|].
      cbn [app]. now rewrite <- E.
    + exists []. split; [constructor | reflexivity].
Qed.

(** Stripping whitespace changes no field. *)
Lemma split_whitespace_strip_by (p : ascii -> bool) (s : str) :
  (forall c, p c = true -> isspace c = true) ->
  split_whitespace (strip_by p s) = split_whitespace s.
Proof.
  intros Hp. unfold strip_by, rstrip_by, lstrip_by.
  destruct (dropwhile_split p s) as (w & Hw & E).
  rewrite E at 2.
  rewrite split_whitespace_leading
    by (eapply Forall_impl; [|exact Hw]; auto).
  destruct (dropwhile_split p (rev (dropwhile p s))) as (w' & Hw' & E').
  apply (f_equal (@rev _)) in E'.
  rewrite rev_involutive, rev_app_distr in E'.
  rewrite E' at 2.
  rewrite split_whitespace_trailing; [reflexivity|].
  apply Forall_rev. eapply Forall_impl; [|exact Hw']. auto.
Qed.

Lemma Forall_spaced (P : ascii -> Prop) (fields : list (str * str)) :
  Forall (fun f => Forall P (fst f) /\ Forall P (snd f)) fields ->
  Forall P (spaced fields).
Proof.
  induction 1 as [|[tok gap] rest [Htok Hgap] _ IH]; [constructor|].
  cbn [spaced]. rewrite !Forall_app. auto.
Qed.

(** The characters of a line of tokens and gaps. *)
Lemma spaced_line_chars (lead : str) (fields : list (str * str)) :
  blank lead ->
  Forall (fun f => clean_token (fst f) /\ blank (snd f)) fields ->
  Forall (fun c => islinebreak c = false /\ c <> "#"%char
                   /\ (code c < 128)%N)
    (lead ++ spaced fields).
Proof.
  intros Hlead Hfields.
  assert (forall w, blank w ->
            Forall (fun c => islinebreak c = false /\ c <> "#"%char
                             /\ (code c < 128)%N) w) as Hblank.
  { intros w Hw. eapply Forall_impl; [|exact Hw].
    intros c Hc. now destruct (blank_char_facts _ Hc) as (_ & ? & ? & ?). }
  apply Forall_app. split; [now apply Hblank|].
  apply Forall_spaced.
  eapply Forall_impl; [|exact Hfields].
  intros [tok gap] [[_ Htok] Hgap]. cbn [fst snd] in *.
  split; [|now apply Hblank].
  eapply Forall_impl; [|exact Htok].
  intros c Hc. now destruct (token_char_facts _ Hc) as (_ & ? & ? & ?).
Qed.

(** X22.  The numbers of a line may be separated by any runs of spaces and
    tabs, with or without such a run before the first and after the last:
    [from_string] reads the tokens, whatever the gaps, unless the gaps make
    the line hold the banner text; the result is the one for the same tokens
    joined by single tabs, as [to_string] writes them. *)
Theorem from_string_any_spacing (F : Type) (PF : PyFloat F)
  (lead : str) (fields : list (str * str)) :
  blank lead ->
  Forall (fun f => clean_token (fst f) /\ blank (snd f)) fields ->
  separated fields -> fields <> [] ->
  contains (py "3dvolreg matrices") (lead ++ spaced fields) = false ->
  AFNILinearTransform.from_string (F:=F) (lead ++ spaced fields)
  = (rows <- reshape_3_4 (map loose_call (map fst fields)) ;;
     Ok (AFNILinearTransform.mk
           (rows ++ [[float_zero; float_zero; float_zero; float_one]])))
  /\ AFNILinearTransform.from_string (F:=F) (lead ++ spaced fields)
     = AFNILinearTransform.from_string (join [TAB] (map fst fields)).
Proof.
  intros Hlead Hfields Hsep Hne Hban.
  set (line := lead ++ spaced fields) in *.
  pose proof (spaced_line_chars Hlead Hfields) as Hchars. fold line in Hchars.
  assert (split_whitespace line = map fst fields) as Hsplit.
  { unfold line.
    rewrite split_whitespace_leading by now apply blank_isspace.
    now apply split_whitespace_spaced. }
  assert (exists c, In c line /\ isspace c = false) as (c0 & Hin0 & Hc0).
  { destruct fields as [|[tok gap] rest]; [congruence|].
    inversion Hfields as [|? ? [[Htne Htok] _] _]; subst.
    cbn [fst] in *. destruct tok as [|c tok]; [congruence|].
    exists c. split.
    - unfold line. apply in_or_app. right. cbn [spaced app]. now left.
    - inversion Htok as [|? ? Hc _]; subst.
      now destruct (token_char_facts _ Hc). }
  assert (line <> []) as Hnil by (intros E; rewrite E in Hin0; contradiction).
  assert (AFNILinearTransform.keep_line line = true) as Hkeep.
  { unfold AFNILinearTransform.keep_line. rewrite Hban.
    assert (strip line <> []) as Hs
        by (apply strip_by_not_nil; now exists c0).
    assert (startswith (py "#") line = false) as ->.
    { destruct line as [|c t]; [congruence|].
      change (py "#") with ["#"%char]. cbn [startswith].
      rewrite andb_true_r. apply Ascii.eqb_neq.
      inversion Hchars as [|? ? (_ & Hc & _) _]; subst. congruence. }
    destruct (strip line); [congruence | reflexivity]. }
  assert (AFNILinearTransform.data_lines line = [line]) as Hd.
  { unfold AFNILinearTransform.data_lines.
    rewrite splitlines_one; [| |exact Hnil].
    - cbn [filter]. now rewrite Hkeep.
    - eapply Forall_impl; [|exact Hchars]. now intros c (? & _). }
  assert (AFNILinearTransform.from_string (F:=F) line
          = (rows <- reshape_3_4 (map loose_call (map fst fields)) ;;
             Ok (AFNILinearTransform.mk
                   (rows ++ [[float_zero; float_zero; float_zero;
                              float_one]])))) as Hfrom.
  { rewrite (from_string_first_line _ Hd).
    unfold genfromtxt, delimited_splitter, decode_latin1.
    rewrite encode_ascii
      by (eapply Forall_impl; [|exact Hchars]; now intros c (_ & _ & ?)).
    rewrite before_first_absent
      by (eapply Forall_impl; [|exact Hchars]; now intros c (_ & ? & _)).
    assert (split_whitespace (strip_chars (py " " ++ [CR; LF]) line)
            = map fst fields) as Hstrip.
    { unfold strip_chars. rewrite split_whitespace_strip_by; [exact Hsplit|].
      intros c. change (py " " ++ [CR; LF]) with [" "%char; CR; LF].
      cbn [existsb]. rewrite !orb_true_iff.
      intros [E | [E | [E | E]]]; try discriminate E;
        apply Ascii.eqb_eq in E; subst c; reflexivity. }
    destruct (strip_chars (py " " ++ [CR; LF]) line) eqn:E.
    - cbn [split_whitespace] in Hstrip. now rewrite <- Hstrip.
    - now rewrite Hstrip. }
  split; [exact Hfrom|]. rewrite Hfrom.
  assert (Forall clean_token (map fst fields)) as Htoks.
  { apply Forall_map. eapply Forall_impl; [|exact Hfields].
    now intros f [? _]. }
  assert (map fst fields <> []) as Hne'
      by (destruct fields; [congruence | discriminate]).
  destruct (token_line_facts (F:=F) Htoks Hne')
    as (Hnil' & Hnb' & _ & Hkeep' & _ & Hsplit').
  assert (AFNILinearTransform.data_lines (join [TAB] (map fst fields))
          = [join [TAB] (map fst fields)]) as Hd'.
  { unfold AFNILinearTransform.data_lines.
    rewrite (splitlines_one Hnb' Hnil'). cbn [filter]. now rewrite Hkeep'. }
  rewrite (from_string_first_line _ Hd').
  unfold genfromtxt. now rewrite Hsplit'.
Qed.

(** At the identity transform written with spaces, tabs and a trailing
    space. *)
Lemma from_string_any_spacing_witness :
  AFNILinearTransform.from_string (F:=pyfloat)
    (py "  1   0 0 " ++ [TAB] ++ py "0 0 1 0 0  0 0 1 0 ")
  = AFNILinearTransform.from_string TextSamples.identity_line.
Proof.
  pose proof (proj1 (@from_string_any_spacing pyfloat _ (py "  ")
            [(py "1", py "   "); (py "0", py " "); (py "0", py " " ++ [TAB]);
             (py "0", py " "); (py "0", py " "); (py "1", py " ");
             (py "0", py " "); (py "0", py "  "); (py "0", py " ");
             (py "0", py " "); (py "1", py " "); (py "0", py " ")]
            ltac:(repeat constructor)
            ltac:(repeat constructor; discriminate)
            ltac:(cbn; repeat split; discriminate)
            ltac:(discriminate)
            ltac:(vm_compute; reflexivity))) as E.
  etransitivity; [exact E|]. vm_compute. reflexivity.
Defined.
